(** * Conscience Inquiry: a shallow embedding of the page scripts

    The development follows the three scripts of the repository:

    - [js/storage.js]: the prefixed accessors over [localStorage], clearing
      the storage, the completed-pages list and the progress percentage;
    - [js/interactions.js]: reveal blocks, the slider label and its display,
      the character counter, the progress bar and the confirmation toast;
    - [js/synthesis.js]: the journey panel with its evidence summary, the
      synthesis form (restoring, auto-save, slider and submit listeners),
      the debounced functions and the export of the journey as a text
      document.

    The browser is modelled as far as the scripts use it: [localStorage]
    (which may be disabled or full), [JSON.stringify]/[JSON.parse] on the
    values the scripts store, the two form controls of the synthesis page,
    the toast, the pending timers and the downloads that were triggered;
    an element that a function only fills (a display, the progress bar, the
    summary) is an argument and a result of that function.

    Conventions.  A JavaScript string is a [string], read as its sequence of
    code units; the embedding covers code units below 256.  A JavaScript
    number is an integer ([Z]) or [NaN]: every number the scripts store is a
    [parseInt] of a slider position, and integers are exact, which holds of
    JavaScript numbers below 2^53 in magnitude.  A call that leaves this
    ground (an object in the storage, a string used as a number) ends as
    [OutsideModel], about which nothing is stated.  Definitions come first,
    statements after them. *)

From Stdlib Require Import ZArith QArith Qround String Ascii List Lia.
From Stdlib Require Import Decimal DecimalString DecimalN DecimalZ DecimalFacts.
From stdpp Require Import base gmap strings list.

Set Warnings "-register-all".

(* ================================================================== *)
(** * Platform primitives *)
(* ================================================================== *)

(** ** Characters and strings *)

Definition dquote : ascii := ascii_of_nat 34.
Definition backslash : ascii := ascii_of_nat 92.
Definition LF : string := String (ascii_of_nat 10) EmptyString.

(** [WhiteSpace] and [LineTerminator] code units below 256: TAB, LF, VT, FF,
    CR, SP and NBSP.  This is the set [String.prototype.trim] and [parseInt]
    strip. *)
Definition is_whitespace (c : ascii) : bool :=
  let n := nat_of_ascii c in
  ((9 <=? n) && (n <=? 13)) || (n =? 32) || (n =? 160).

Fixpoint trimStart (s : string) : string :=
  match s with
  | EmptyString => EmptyString
  | String c s' => if is_whitespace c then trimStart s' else s
  end.

Fixpoint trimEnd (s : string) : string :=
  match s with
  | EmptyString => EmptyString
  | String c s' =>
      match trimEnd s' with
      | EmptyString => if is_whitespace c then EmptyString else String c EmptyString
      | t => String c t
      end
  end.

(** [s.trim()] *)
Definition trim (s : string) : string := trimEnd (trimStart s).

(** [s.repeat(n)] *)
Fixpoint repeat_string (s : string) (n : nat) : string :=
  match n with
  | O => EmptyString
  | S n' => s +:+ repeat_string s n'
  end.

(** [s.includes(t)] on strings: [t] occurs in [s] as a substring. *)
Fixpoint string_includes (s t : string) : bool :=
  String.prefix t s ||
  match s with
  | EmptyString => false
  | String _ s' => string_includes s' t
  end.

(** The text [t] occurs in the text [s]. *)
Definition occurs_in (t s : string) : Prop :=
  ∃ before after, s = before +:+ t +:+ after.

(** ** Numbers *)

(** [Number.prototype.toString] on an integer: its decimal digits, with a
    leading minus sign when negative.  This is what JavaScript writes for an
    integer that a number holds exactly, below 2^53 in magnitude (the
    exponent form only starts at 10^21). *)
Definition number_to_string (n : Z) : string :=
  NilZero.string_of_int (Z.to_int n).

Definition digit_of (c : ascii) : option (uint → uint) :=
  match nat_of_ascii c with
  | 48 => Some D0 | 49 => Some D1 | 50 => Some D2 | 51 => Some D3
  | 52 => Some D4 | 53 => Some D5 | 54 => Some D6 | 55 => Some D7
  | 56 => Some D8 | 57 => Some D9
  | _ => None
  end.

(** The longest prefix of decimal digits of [s], and what follows it. *)
Fixpoint read_digits (s : string) : uint * string :=
  match s with
  | EmptyString => (Nil, EmptyString)
  | String c s' =>
      match digit_of c with
      | Some d => let '(u, rest) := read_digits s' in (d u, rest)
      | None => (Nil, s)
      end
  end.

(** [parseInt(s, 10)]: leading white space is skipped, an optional sign is
    read, then the longest run of decimal digits; [None] is [NaN] (no digit
    was found).  The integer is the exact one, which is what JavaScript
    returns when it is below 2^53 in magnitude; above, JavaScript rounds to
    the nearest number. *)
Definition parseInt (s : string) : option Z :=
  let s1 := trimStart s in
  let '(negative, s2) :=
    match s1 with
    | String c r =>
        if Ascii.eqb c "-" then (true, r)
        else if Ascii.eqb c "+" then (false, r)
        else (false, s1)
    | EmptyString => (false, s1)
    end in
  match read_digits s2 with
  | (Nil, _) => None
  | (u, _) =>
      let n := Z.of_N (N.of_uint u) in
      Some (if negative then (- n)%Z else n)
  end.

(** [Math.round(q)]: the nearest integer, a tie going up. *)
Definition Math_round (q : Q) : Z := Qfloor (q + (1 # 2))%Q.

(** ** Values *)

(** The JavaScript values the scripts store and read back: [null], booleans,
    numbers (an integer or [NaN]), strings and arrays of such values. *)
Inductive value : Type :=
  | VNull
  | VBool (b : bool)
  | VNum (n : Z)
  | VNaN
  | VStr (s : string)
  | VArr (elements : list value).

(** Truthiness, as [||], [&&] and [if] test it.  An array is truthy. *)
Definition truthy (v : value) : bool :=
  match v with
  | VNull | VNaN => false
  | VBool b => b
  | VNum n => negb (n =? 0)%Z
  | VStr s => negb (String.eqb s EmptyString)
  | VArr _ => true
  end.

(** [a || b] *)
Definition or_else (a b : value) : value := if truthy a then a else b.

(** [ToString], as a template literal applies it.  An array joins its
    elements with commas, [null] elements giving the empty string. *)
Fixpoint to_string (v : value) : string :=
  match v with
  | VNull => "null"
  | VBool true => "true"
  | VBool false => "false"
  | VNum n => number_to_string n
  | VNaN => "NaN"
  | VStr s => s
  | VArr l =>
      String.concat ","
        (map (λ e, match e with VNull => EmptyString | _ => to_string e end) l)
  end.

(** [SameValueZero] between an element and a string, as
    [Array.prototype.includes] compares them. *)
Definition same_as_string (name : string) (e : value) : bool :=
  match e with
  | VStr s => String.eqb s name
  | _ => false
  end.

(** ** JSON *)

Module JSON.

Definition hex_digit (n : nat) : ascii :=
  ascii_of_nat (if n <? 10 then 48 + n else 87 + n).

(** [QuoteJSONString] on one code unit. *)
Definition escape_char (c : ascii) : string :=
  let n := nat_of_ascii c in
  let esc (e : ascii) := String backslash (String e EmptyString) in
  match n with
  | 8 => esc "b"%char
  | 9 => esc "t"%char
  | 10 => esc "n"%char
  | 12 => esc "f"%char
  | 13 => esc "r"%char
  | 34 => esc dquote
  | 92 => esc backslash
  | _ =>
      if n <? 32
      then String backslash
             (String "u" (String "0" (String "0"
                (String (hex_digit (n / 16))
                   (String (hex_digit (n mod 16)) EmptyString)))))
      else String c EmptyString
  end.

Fixpoint escape (s : string) : string :=
  match s with
  | EmptyString => EmptyString
  | String c s' => escape_char c +:+ escape s'
  end.

Definition quote (s : string) : string :=
  String dquote (escape s +:+ String dquote EmptyString).

(** [JSON.stringify(v)].  [NaN] is written as [null]. *)
Fixpoint stringify (v : value) : string :=
  match v with
  | VNull | VNaN => "null"
  | VBool true => "true"
  | VBool false => "false"
  | VNum n => number_to_string n
  | VStr s => quote s
  | VArr l => "[" +:+ String.concat "," (map stringify l) +:+ "]"
  end.

(** What [JSON.parse] reads back from [stringify v]. *)
Fixpoint revived (v : value) : value :=
  match v with
  | VNaN => VNull
  | VArr l => VArr (map revived l)
  | _ => v
  end.

(** JSON white space: space, TAB, LF and CR. *)
Definition is_ws (c : ascii) : bool :=
  let n := nat_of_ascii c in
  (n =? 32) || (n =? 9) || (n =? 10) || (n =? 13).

Fixpoint skip_ws (s : string) : string :=
  match s with
  | EmptyString => EmptyString
  | String c s' => if is_ws c then skip_ws s' else s
  end.

Definition hex_value (c : ascii) : option nat :=
  let n := nat_of_ascii c in
  if (48 <=? n) && (n <=? 57) then Some (n - 48)
  else if (97 <=? n) && (n <=? 102) then Some (n - 87)
  else if (65 <=? n) && (n <=? 70) then Some (n - 55)
  else None.

(** How reading a text ends: with a value, with a syntax error, or on a
    construct of JSON that the embedded values do not cover (an object, a
    number with a fraction or an exponent, a code unit above 255). *)
Inductive result (A : Type) : Type :=
  | Ok (a : A)
  | Malformed
  | Unsupported.
Arguments Ok {A} a.
Arguments Malformed {A}.
Arguments Unsupported {A}.

Definition and_then {A B} (r : result A) (k : A → result B) : result B :=
  match r with
  | Ok a => k a
  | Malformed => Malformed
  | Unsupported => Unsupported
  end.

(** The code unit of [\uXXXX]. *)
Definition unicode_escape (a b c d : ascii) : result ascii :=
  match hex_value a, hex_value b, hex_value c, hex_value d with
  | Some 0, Some 0, Some h, Some l => Ok (ascii_of_nat (16 * h + l))
  | Some _, Some _, Some _, Some _ => Unsupported
  | _, _, _, _ => Malformed
  end.

(** The characters of a string literal, after its opening quote, up to
    the closing quote; the decoded string and what follows the literal. *)
Fixpoint parse_chars (s : string) : result (string * string) :=
  match s with
  | EmptyString => Malformed
  | String c r =>
      if Ascii.eqb c dquote then Ok (EmptyString, r)
      else if Ascii.eqb c backslash then
        match r with
        | String e r' =>
            let simple (x : ascii) :=
              and_then (parse_chars r') (λ '(t, rest), Ok (String x t, rest)) in
            if Ascii.eqb e dquote then simple dquote
            else if Ascii.eqb e backslash then simple backslash
            else if Ascii.eqb e "/" then simple "/"%char
            else if Ascii.eqb e "b" then simple (ascii_of_nat 8)
            else if Ascii.eqb e "f" then simple (ascii_of_nat 12)
            else if Ascii.eqb e "n" then simple (ascii_of_nat 10)
            else if Ascii.eqb e "r" then simple (ascii_of_nat 13)
            else if Ascii.eqb e "t" then simple (ascii_of_nat 9)
            else if Ascii.eqb e "u" then
              match r' with
              | String h1 (String h2 (String h3 (String h4 r''))) =>
                  and_then (unicode_escape h1 h2 h3 h4) (λ x,
                  and_then (parse_chars r'') (λ '(t, rest),
                  Ok (String x t, rest)))
              | _ => Malformed
              end
            else Malformed
        | EmptyString => Malformed
        end
      else if nat_of_ascii c <? 32 then Malformed
      else and_then (parse_chars r) (λ '(t, rest), Ok (String c t, rest))
  end.

(** An integer literal: an optional minus sign, then [0] or a digit run
    that does not start with [0].  A fraction or an exponent after it makes
    a number that the embedding does not cover. *)
Definition parse_number (s : string) : result (value * string) :=
  let '(negative, s1) :=
    match s with
    | String c r => if Ascii.eqb c "-" then (true, r) else (false, s)
    | EmptyString => (false, s)
    end in
  match read_digits s1 with
  | (Nil, _) => Malformed
  | (D0 (D0 _ | D1 _ | D2 _ | D3 _ | D4 _ | D5 _ | D6 _ | D7 _ | D8 _ | D9 _), _) =>
      Malformed
  | (u, rest) =>
      match rest with
      | String c _ =>
          if Ascii.eqb c "." || Ascii.eqb c "e" || Ascii.eqb c "E" then Unsupported
          else
            let n := Z.of_N (N.of_uint u) in
            Ok (VNum (if negative then (- n)%Z else n), rest)
      | EmptyString =>
          let n := Z.of_N (N.of_uint u) in
          Ok (VNum (if negative then (- n)%Z else n), rest)
      end
  end.

Definition literal (word : string) (v : value) (s : string)
  : result (value * string) :=
  if String.prefix word s
  then Ok (v, String.substring (String.length word)
                (String.length s - String.length word) s)
  else Malformed.

(** A value at the head of [s] (no leading white space), and the elements
    of an array after its opening bracket.  [fuel] bounds the nesting and
    the number of elements; twice the length of the text is never used
    up. *)
Fixpoint parse_value (fuel : nat) (s : string) : result (value * string) :=
  match fuel with
  | O => Unsupported
  | S fuel' =>
      match s with
      | EmptyString => Malformed
      | String c r =>
          if Ascii.eqb c dquote then
            and_then (parse_chars r) (λ '(t, rest), Ok (VStr t, rest))
          else if Ascii.eqb c "[" then
            match skip_ws r with
            | String c' r' =>
                if Ascii.eqb c' "]" then Ok (VArr [], r')
                else
                  and_then (parse_elements fuel' (String c' r'))
                    (λ '(l, rest), Ok (VArr l, rest))
            | EmptyString => Malformed
            end
          else if Ascii.eqb c "{" then Unsupported
          else if Ascii.eqb c "n" then literal "null" VNull s
          else if Ascii.eqb c "t" then literal "true" (VBool true) s
          else if Ascii.eqb c "f" then literal "false" (VBool false) s
          else parse_number s
      end
  end
with parse_elements (fuel : nat) (s : string) : result (list value * string) :=
  match fuel with
  | O => Unsupported
  | S fuel' =>
      and_then (parse_value fuel' s) (λ '(v, rest),
        match skip_ws rest with
        | String c r =>
            if Ascii.eqb c "]" then Ok ([v], r)
            else if Ascii.eqb c "," then
              and_then (parse_elements fuel' (skip_ws r))
                (λ '(l, rest'), Ok (v :: l, rest'))
            else Malformed
        | EmptyString => Malformed
        end)
  end.

(** [JSON.parse(text)]: one value between optional white space. *)
Definition parse (text : string) : result value :=
  and_then (parse_value (2 * String.length text + 2) (skip_ws text))
    (λ '(v, rest),
      match skip_ws rest with
      | EmptyString => Ok v
      | String _ _ => Malformed
      end).

End JSON.

(* ================================================================== *)
(** * The browser state and the effects of a script *)
(* ================================================================== *)

(** The exceptions the platform raises into the scripts. *)
Inductive exn : Type :=
  | SecurityError        (* localStorage is disabled *)
  | QuotaExceededError   (* localStorage is full *)
  | SyntaxError          (* JSON.parse on a malformed text *)
  | TypeError.           (* a method that the receiver does not have *)

(** [localStorage]: the stored items, whether access is allowed, and how
    many code units (keys and values together) the origin may hold. *)
Record Storage : Type := mkStorage {
  items : gmap string string;
  enabled : bool;
  quota : nat
}.

Definition storage_size (m : gmap string string) : nat :=
  map_fold (λ k v acc, String.length k + String.length v + acc) 0 m.

(** Whether [localStorage.setItem(k, v)] returns rather than throws. *)
Definition accepts (st : Storage) (k v : string) : bool :=
  enabled st && (storage_size (<[k:=v]> (items st)) <=? quota st).

Inductive Icon : Type := CheckMark | InfoMark.

(** The toast element; [toast_node] tells one created element from another. *)
Record Toast : Type := mkToast {
  toast_node : nat;
  toast_icon : Icon;
  toast_message : string
}.

Inductive Callback : Type :=
  | RemoveToast (node : nat)     (* () => toast.remove() *)
  | Navigate (url : string).     (* () => window.location.href = url *)

(** A call of [setTimeout] that has not fired yet. *)
Record Timer : Type := mkTimer {
  callback : Callback;
  delay : nat
}.

(** The part of the document the synthesis page scripts read and write.  A
    form control is [None] when the page has no such element, and the
    [value] of the element otherwise. *)
Record Document : Type := mkDocument {
  synthesisTextarea_value : option string;   (* #synthesis-statement *)
  finalSlider_value : option string;         (* #final-slider *)
  toast : option Toast;                (* .confirmation-toast *)
  toastStyles : bool;                  (* #toast-styles is present *)
  created : nat                        (* elements created so far *)
}.

Record World : Type := mkWorld {
  localStorage : Storage;
  console : list (string * exn);       (* console.warn *)
  document : Document;
  timers : list Timer;
  downloads : list (string * string);  (* file name, content *)
  today : string                       (* new Date().toLocaleDateString() *)
}.

Definition with_storage (st : Storage) (w : World) : World :=
  mkWorld st (console w) (document w) (timers w) (downloads w) (today w).
Definition with_console (c : list (string * exn)) (w : World) : World :=
  mkWorld (localStorage w) c (document w) (timers w) (downloads w) (today w).
Definition with_document (d : Document) (w : World) : World :=
  mkWorld (localStorage w) (console w) d (timers w) (downloads w) (today w).
Definition with_timers (t : list Timer) (w : World) : World :=
  mkWorld (localStorage w) (console w) (document w) t (downloads w) (today w).
Definition with_downloads (d : list (string * string)) (w : World) : World :=
  mkWorld (localStorage w) (console w) (document w) (timers w) d (today w).

(** How a call ends: it returns, it throws, or it leaves the embedding: it
    relies on a coercion that is not covered (a string or an array used as a
    number) or reads a stored text that [JSON.parse] does not cover. *)
Inductive outcome (A : Type) : Type :=
  | Ret (a : A)
  | Throw (e : exn)
  | OutsideModel.
Arguments Ret {A} a.
Arguments Throw {A} e.
Arguments OutsideModel {A}.

Definition M (A : Type) : Type := World → outcome A * World.

Definition ret {A} (a : A) : M A := λ w, (Ret a, w).
Definition throw {A} (e : exn) : M A := λ w, (Throw e, w).
Definition outside {A} : M A := λ w, (OutsideModel, w).

Definition bind {A B} (m : M A) (k : A → M B) : M B :=
  λ w, match m w with
       | (Ret a, w') => k a w'
       | (Throw e, w') => (Throw e, w')
       | (OutsideModel, w') => (OutsideModel, w')
       end.

(** [try { body } catch (e) { handler }] *)
Definition try_catch {A} (body : M A) (handler : exn → M A) : M A :=
  λ w, match body w with
       | (Throw e, w') => handler e w'
       | r => r
       end.

Declare Scope js_scope.
Delimit Scope js_scope with js.
Notation "x <- m ;; k" := (bind m (λ x, k))
  (at level 100, m at next level, right associativity) : js_scope.
Notation "m ;; k" := (bind m (λ _, k))
  (at level 100, right associativity) : js_scope.
Open Scope js_scope.

(** ** localStorage, console, JSON, timers *)

Definition getItem (k : string) : M (option string) :=
  λ w, if enabled (localStorage w)
       then (Ret (items (localStorage w) !! k), w)
       else (Throw SecurityError, w).

Definition setItem (k v : string) : M unit :=
  λ w, let st := localStorage w in
       if negb (enabled st) then (Throw SecurityError, w)
       else if storage_size (<[k:=v]> (items st)) <=? quota st
       then (Ret tt, with_storage (mkStorage (<[k:=v]> (items st)) (enabled st) (quota st)) w)
       else (Throw QuotaExceededError, w).

Definition removeItem (k : string) : M unit :=
  λ w, let st := localStorage w in
       if enabled st
       then (Ret tt, with_storage (mkStorage (delete k (items st)) (enabled st) (quota st)) w)
       else (Throw SecurityError, w).

(** The keys [localStorage.key(0)], ..., [localStorage.key(length - 1)]. *)
Definition storage_keys : M (list string) :=
  λ w, if enabled (localStorage w)
       then (Ret (map fst (map_to_list (items (localStorage w)))), w)
       else (Throw SecurityError, w).

Definition console_warn (message : string) (e : exn) : M unit :=
  λ w, (Ret tt, with_console (console w ++ [(message, e)]) w).

Definition JSON_parse (text : string) : M value :=
  match JSON.parse text with
  | JSON.Ok v => ret v
  | JSON.Malformed => throw SyntaxError
  | JSON.Unsupported => outside
  end.

Definition setTimeout (f : Callback) (ms : nat) : M unit :=
  λ w, (Ret tt, with_timers (timers w ++ [mkTimer f ms]) w).

(** [a.includes(name)]: on an array, on a string; any other receiver has no
    such method. *)
Definition includes (a : value) (name : string) : M bool :=
  match a with
  | VArr l => ret (existsb (same_as_string name) l)
  | VStr s => ret (string_includes s name)
  | _ => throw TypeError
  end.

(** [a.push(x)]: the array [a] after the call. *)
Definition push (a : value) (x : value) : M value :=
  match a with
  | VArr l => ret (VArr (l ++ [x]))
  | _ => throw TypeError
  end.

(** [names.filter(p => a.includes(p))] *)
Fixpoint filter_included (a : value) (names : list string) : M (list string) :=
  match names with
  | [] => ret []
  | p :: rest =>
      keep <- includes a p ;;
      kept <- filter_included a rest ;;
      ret (if keep then p :: kept else kept)
  end.

(* ================================================================== *)
(** * js/storage.js *)
(* ================================================================== *)

Definition STORAGE_PREFIX : string := "conscience_inquiry_".

Definition saveToStorage (key : string) (v : value) : M bool :=
  try_catch
    (let prefixedKey := STORAGE_PREFIX +:+ key in
     let serialized := JSON.stringify v in
     setItem prefixedKey serialized ;;
     ret true)
    (λ e, console_warn "Failed to save to localStorage:" e ;; ret false).

(** [defaultValue] is [null] when a caller leaves it out; every call in the
    scripts gives it. *)
Definition loadFromStorage (key : string) (defaultValue : value) : M value :=
  try_catch
    (let prefixedKey := STORAGE_PREFIX +:+ key in
     serialized <- getItem prefixedKey ;;
     match serialized with
     | None => ret defaultValue
     | Some text => JSON_parse text
     end)
    (λ e, console_warn "Failed to load from localStorage:" e ;; ret defaultValue).

Definition removeFromStorage (key : string) : M bool :=
  try_catch
    (let prefixedKey := STORAGE_PREFIX +:+ key in
     removeItem prefixedKey ;;
     ret true)
    (λ e, console_warn "Failed to remove from localStorage:" e ;; ret false).

Fixpoint remove_each (keys : list string) : M unit :=
  match keys with
  | [] => ret tt
  | k :: rest => removeItem k ;; remove_each rest
  end.

(** [key && key.startsWith(STORAGE_PREFIX)] *)
Definition is_app_key (key : string) : bool :=
  truthy (VStr key) && String.prefix STORAGE_PREFIX key.

Definition clearAllStorage : M bool :=
  try_catch
    (keys <- storage_keys ;;
     let keysToRemove := filter (λ k, Is_true (is_app_key k)) keys in
     remove_each keysToRemove ;;
     ret true)
    (λ e, console_warn "Failed to clear localStorage:" e ;; ret false).

(** The object [getAllResponses] returns. *)
Record Responses : Type := mkResponses {
  initialSlider : value;
  initialReason : value;
  biologyReflection : value;
  infantsReflection : value;
  traumaReflection : value;
  familyReflection : value;
  starvationReflection : value;
  philosophyReflection : value;
  synthesisStatement : value;
  finalSlider : value;
  completedPages : value
}.

Definition getAllResponses : M Responses :=
  initialSlider <- loadFromStorage "initial_slider" (VNum 50) ;;
  initialReason <- loadFromStorage "initial_reason" (VStr "") ;;
  biologyReflection <- loadFromStorage "biology_reflection" (VStr "") ;;
  infantsReflection <- loadFromStorage "infants_reflection" (VStr "") ;;
  traumaReflection <- loadFromStorage "trauma_reflection" (VStr "") ;;
  familyReflection <- loadFromStorage "family_reflection" (VStr "") ;;
  starvationReflection <- loadFromStorage "starvation_reflection" (VStr "") ;;
  philosophyReflection <- loadFromStorage "philosophy_reflection" (VStr "") ;;
  synthesisStatement <- loadFromStorage "synthesis_statement" (VStr "") ;;
  finalSlider <- loadFromStorage "final_slider" VNull ;;
  completedPages <- loadFromStorage "completed_pages" (VArr []) ;;
  ret (mkResponses initialSlider initialReason biologyReflection
         infantsReflection traumaReflection familyReflection
         starvationReflection philosophyReflection synthesisStatement
         finalSlider completedPages).

Definition markPageCompleted (pageName : string) : M unit :=
  completed <- loadFromStorage "completed_pages" (VArr []) ;;
  present <- includes completed pageName ;;
  if negb present then
    completed' <- push completed (VStr pageName) ;;
    saveToStorage "completed_pages" completed' ;;
    ret tt
  else ret tt.

Definition isPageCompleted (pageName : string) : M bool :=
  completed <- loadFromStorage "completed_pages" (VArr []) ;;
  includes completed pageName.

Definition allPages : list string :=
  ["index"; "biology"; "infants"; "trauma"; "family"; "starvation";
   "philosophy"; "synthesis"].

(** The quotients [completedCount / 8] and their products with 100 are exact
    in binary floating point, so the arithmetic is that of the rationals. *)
Definition getProgressPercentage : M Z :=
  completed <- loadFromStorage "completed_pages" (VArr []) ;;
  kept <- filter_included completed allPages ;;
  let completedCount := length kept in
  ret (Math_round
         ((inject_Z (Z.of_nat completedCount) / inject_Z (Z.of_nat (length allPages)))
          * inject_Z 100)%Q).

(* ================================================================== *)
(** * js/interactions.js *)
(* ================================================================== *)

(** ** Reveal blocks *)

(** An element, as far as the reveal blocks use it: its attributes. *)
Record Element : Type := mkElement {
  attributes : gmap string string
}.

Definition setAttribute (name v : string) (el : Element) : Element :=
  mkElement (<[name:=v]> (attributes el)).

Definition getAttribute (name : string) (el : Element) : option string :=
  attributes el !! name.

(** [String(b)], which [setAttribute] applies to a boolean argument. *)
Definition bool_to_string (b : bool) : string :=
  if b then "true" else "false".

(** A trigger and the content its [aria-controls] names. *)
Record RevealBlock : Type := mkRevealBlock {
  trigger : Element;
  content : Element
}.

(** The initial state [initRevealBlocks] sets on a pair. *)
Definition reveal_init (b : RevealBlock) : RevealBlock :=
  mkRevealBlock
    (setAttribute "aria-expanded" "false" (trigger b))
    (setAttribute "aria-hidden" "true" (content b)).

(** The click listener of a trigger. *)
Definition reveal_click (b : RevealBlock) : RevealBlock :=
  let isExpanded :=
    bool_decide (getAttribute "aria-expanded" (trigger b) = Some "true") in
  mkRevealBlock
    (setAttribute "aria-expanded" (bool_to_string (negb isExpanded)) (trigger b))
    (setAttribute "aria-hidden" (bool_to_string isExpanded) (content b)).

(** [initRevealBlocks] over the triggers of a page, each with the content
    that [getElementById] finds for it: a trigger without content is left
    as it is (and gets no listener). *)
Definition initRevealBlocks (triggers : list (Element * option Element))
  : list (Element * option Element) :=
  map (λ '(t, c),
         match c with
         | None => (t, None)
         | Some c' =>
             let b := reveal_init (mkRevealBlock t c') in
             (trigger b, Some (content b))
         end) triggers.

(** The two flags assistive technology reads from a pair. *)
Definition expanded (b : RevealBlock) : bool :=
  bool_decide (getAttribute "aria-expanded" (trigger b) = Some "true").
Definition hidden (b : RevealBlock) : bool :=
  bool_decide (getAttribute "aria-hidden" (content b) = Some "true").

(** The states a pair takes: the initial one, and each one a click away
    from a state it takes. *)
Inductive reveal_reachable (b0 : RevealBlock) : RevealBlock → Prop :=
  | reach_init : reveal_reachable b0 (reveal_init b0)
  | reach_click b : reveal_reachable b0 b → reveal_reachable b0 (reveal_click b).

(** ** Slider label *)

(** The subtraction is that of the integers: exact in JavaScript as long as
    [value] and [100 - value] are below 2^53 in magnitude, as on the scale
    0..100 of the slider. *)
Definition formatConscienceSlider (value : Z) : string :=
  let innatePercent := value in
  let constructedPercent := (100 - value)%Z in
  if (value =? 50)%Z then "Exactly balanced"
  else if (value <? 50)%Z then number_to_string constructedPercent +:+ "% Constructed"
  else number_to_string innatePercent +:+ "% Innate".

(** ** Slider display *)

(** A number as [parseInt] returns it: an integer, or [NaN] ([None]). *)
Definition Number_toString (n : option Z) : string :=
  match n with
  | Some z => number_to_string z
  | None => "NaN"
  end.

(** [formatConscienceSlider] on such a number.  Every comparison with [NaN]
    is false. *)
Definition formatConscienceSlider_number (value : option Z) : string :=
  let innatePercent := value in
  let constructedPercent := option_map (λ v, 100 - v)%Z value in
  if match value with Some v => (v =? 50)%Z | None => false end
  then "Exactly balanced"
  else if match value with Some v => (v <? 50)%Z | None => false end
  then Number_toString constructedPercent +:+ "% Constructed"
  else Number_toString innatePercent +:+ "% Innate".

(** [updateDisplay] of [initSlider]: the text the display element gets,
    from the [value] of the slider. *)
Definition updateDisplay (formatFn : option (option Z → string))
    (slider_value : string) : string :=
  let value := parseInt slider_value in
  match formatFn with
  | Some f => f value
  | None => Number_toString value +:+ "%"
  end.

(** [initSlider(sliderId, displayId, formatFn = null)]: the text of the
    display element after the call, and after each input event.  An element
    is [None] when the page lacks it. *)
Definition initSlider (slider display : option string)
    (formatFn : option (option Z → string)) : option string :=
  match slider, display with
  | Some v, Some _ => Some (updateDisplay formatFn v)
  | _, _ => display
  end.

(** ** Character counter *)

Record Counter : Type := mkCounter {
  textContent : string;
  color : string
}.

(** [updateCounter], on the text of the textarea. *)
Definition updateCounter (minChars maxChars : Z) (text : string) : Counter :=
  let length := Z.of_nat (String.length text) in
  mkCounter
    (number_to_string length +:+ " / " +:+ number_to_string maxChars +:+ " characters")
    (if (length <? minChars)%Z then "var(--color-text-muted)"
     else if (length <=? maxChars)%Z then "var(--color-success)"
     else "var(--color-warning)").

(** [initCharCounter(textareaId, counterId, minChars = 100, maxChars = 500)]:
    the counter after the initial count and after each input event. *)
Definition initCharCounter (text : string) (minChars maxChars : option Z) : Counter :=
  updateCounter (default 100%Z minChars) (default 500%Z maxChars) text.

(** ** Progress bar *)

(** The two elements of the progress indicator: the [style.width] of the
    fill and the text of the label, each [None] when the page lacks it. *)
Record ProgressBar : Type := mkProgressBar {
  progressFill : option string;
  progressText : option string
}.

Definition initProgressBar (bar : ProgressBar) : M ProgressBar :=
  match progressFill bar with
  | None => ret bar
  | Some _ =>
      percentage <- getProgressPercentage ;;
      ret (mkProgressBar
             (Some (number_to_string percentage +:+ "%"))
             (match progressText bar with
              | Some _ => Some (number_to_string percentage +:+ "% complete")
              | None => None
              end))
  end.

(** ** Confirmation toast *)

(** [showConfirmation(message, type = 'success')]: the toast in place is
    replaced, the style sheet is added once, and the removal of the new
    toast is scheduled. *)
Definition showConfirmation (message : string) (type : option string) : M unit :=
  λ w, let d := document w in
       let node := created d in
       let icon :=
         if String.eqb (default "success" type) "success" then CheckMark else InfoMark in
       let d' :=
         mkDocument (synthesisTextarea_value d) (finalSlider_value d)
           (Some (mkToast node icon message)) true
           (if toastStyles d then S node else S (S node)) in
       setTimeout (RemoveToast node) 3000 (with_document d' w).

(** The callback [() => toast.remove()] of that timer: the element leaves
    the document if it is still in it. *)
Definition toast_remove (node : nat) : M unit :=
  λ w, let d := document w in
       match toast d with
       | Some t =>
           if toast_node t =? node
           then (Ret tt,
                 with_document
                   (mkDocument (synthesisTextarea_value d) (finalSlider_value d)
                      None (toastStyles d) (created d)) w)
           else (Ret tt, w)
       | None => (Ret tt, w)
       end.

(* ================================================================== *)
(** * js/synthesis.js *)
(* ================================================================== *)

(** ** The submit listener of the synthesis form *)

Definition number_value (n : option Z) : value :=
  match n with
  | Some z => VNum z
  | None => VNaN
  end.

(** The listener cancels the default action of the event first, which
    leaves the modelled state as it is. *)
Definition submitHandler : M unit :=
  λ w,
    let synthesisValue :=
      match synthesisTextarea_value (document w) with
      | Some v => trim v
      | None => EmptyString
      end in
    let sliderValue :=
      match finalSlider_value (document w) with
      | Some v => number_value (parseInt v)
      | None => VNum 50
      end in
    (if String.length synthesisValue <? 100 then
       showConfirmation "Please write at least 100 characters for your synthesis."
         (Some "info")
     else
       saveToStorage "synthesis_statement" (VStr synthesisValue) ;;
       saveToStorage "final_slider" sliderValue ;;
       markPageCompleted "synthesis" ;;
       showConfirmation "Synthesis saved. Proceeding to conclusion..." None ;;
       setTimeout (Navigate "conclusion.html") 1500) w.

(** The input listener of the final slider. *)
Definition finalSliderInput : M unit :=
  λ w, match finalSlider_value (document w) with
       | Some v => (saveToStorage "final_slider" (number_value (parseInt v)) ;; ret tt) w
       | None => (Ret tt, w)
       end.

(** The function that the input listener of the textarea debounces. *)
Definition autoSave : M unit :=
  λ w, match synthesisTextarea_value (document w) with
       | Some v => (saveToStorage "synthesis_statement" (VStr v) ;; ret tt) w
       | None => (Ret tt, w)
       end.

(** [v !== null] *)
Definition is_not_null (v : value) : bool :=
  match v with
  | VNull => false
  | _ => true
  end.

(** The first part of [initSynthesisForm]: what was saved is put back into
    the controls; [form] tells whether the page has the form.  The [value] of
    a control is what it is assigned (a range input may move a position to
    its bounds and step).  The input event dispatched on the slider changes
    nothing of the state kept here: the listeners of this function are added
    after it. *)
Definition restoreSavedSynthesis (form : bool) : M unit :=
  if negb form then ret tt
  else
    savedSynthesis <- loadFromStorage "synthesis_statement" (VStr "") ;;
    savedSlider <- loadFromStorage "final_slider" (VNum 50) ;;
    λ w, let d := document w in
         let textarea :=
           match synthesisTextarea_value d with
           | Some shown =>
               if truthy savedSynthesis then Some (to_string savedSynthesis)
               else Some shown
           | None => None
           end in
         let slider :=
           match finalSlider_value d with
           | Some position =>
               if is_not_null savedSlider then Some (to_string savedSlider)
               else Some position
           | None => None
           end in
         (Ret tt,
          with_document
            (mkDocument textarea slider (toast d) (toastStyles d) (created d)) w).

(** ** Export *)

Record Pillar : Type := mkPillar {
  key : Responses → value;
  name : string
}.

Definition pillars : list Pillar :=
  [ mkPillar biologyReflection "The Social Brain";
    mkPillar infantsReflection "Infant Fairness";
    mkPillar traumaReflection "Epigenetic Trauma";
    mkPillar familyReflection "Family & Morality";
    mkPillar starvationReflection "Starvation Study";
    mkPillar philosophyReflection "Philosophy" ].

(** [formatConscienceSlider(v)] on a stored value.  On anything but a number
    the source goes through [ToNumber], which the embedding leaves out. *)
Definition slider_label (v : value) : M string :=
  match v with
  | VNum n => ret (formatConscienceSlider n)
  | _ => outside
  end.

(** [v.trim()]: only a string has the method. *)
Definition trim_method (v : value) : M string :=
  match v with
  | VStr s => ret (trim s)
  | _ => throw TypeError
  end.

(** [response && response.trim()], as the condition of an [if]. *)
Definition is_filled (response : value) : M bool :=
  if truthy response then
    t <- trim_method response ;;
    ret (truthy (VStr t))
  else ret false.

(** The section the export writes for a reflection. *)
Definition reflection_section (title : string) (response : value) : string :=
  LF +:+ title +:+ ":" +:+ LF +:+ to_string response +:+ LF.

(** [pillars.forEach(pillar => ...)], threading the text built so far. *)
Fixpoint append_reflections (responses : Responses) (ps : list Pillar)
    (text : string) : M string :=
  match ps with
  | [] => ret text
  | pillar :: rest =>
      let response := key pillar responses in
      filled <- is_filled response ;;
      append_reflections responses rest
        (if filled then text +:+ reflection_section (name pillar) response
         else text)
  end.

Definition toLocaleDateString : M string := λ w, (Ret (today w), w).

(** The anchor click that saves [text] under [filename]. *)
Definition download (filename text : string) : M unit :=
  λ w, (Ret tt, with_downloads (downloads w ++ [(filename, text)]) w).

(** U+2014, kept as its three UTF-8 bytes. *)
Definition EM_DASH : string :=
  String (ascii_of_nat 226) (String (ascii_of_nat 128)
    (String (ascii_of_nat 148) EmptyString)).

(** The text of the export up to the reflections. *)
Definition export_preamble (date initialLabel finalLabel : string)
    (responses : Responses) : string :=
  let text := "CONSCIENCE INQUIRY " +:+ EM_DASH +:+ " PERSONAL SYNTHESIS" +:+ LF in
  let text := text +:+ repeat_string "=" 50 +:+ LF +:+ LF in
  let text := text +:+ "Date: " +:+ date +:+ LF +:+ LF in
  let text := text +:+ "INITIAL POSITION" +:+ LF in
  let text := text +:+ repeat_string "-" 30 +:+ LF in
  let text := text +:+ "Slider: " +:+ initialLabel +:+ LF in
  let text := text +:+ "Reasoning: "
                +:+ to_string (or_else (initialReason responses) (VStr "Not recorded"))
                +:+ LF +:+ LF in
  let text := text +:+ "FINAL POSITION" +:+ LF in
  let text := text +:+ repeat_string "-" 30 +:+ LF in
  let text := text +:+ "Slider: " +:+ finalLabel +:+ LF in
  let text := text +:+ "Synthesis: "
                +:+ to_string (or_else (synthesisStatement responses) (VStr "Not recorded"))
                +:+ LF +:+ LF in
  let text := text +:+ "JOURNEY REFLECTIONS" +:+ LF in
  text +:+ repeat_string "-" 30 +:+ LF.

(** The text [exportSynthesis] assembles. *)
Definition exportText : M string :=
  responses <- getAllResponses ;;
  date <- toLocaleDateString ;;
  initialLabel <- slider_label (initialSlider responses) ;;
  finalLabel <- slider_label (or_else (finalSlider responses) (VNum 50)) ;;
  append_reflections responses pillars
    (export_preamble date initialLabel finalLabel responses).

Definition exportSynthesis : M unit :=
  text <- exportText ;;
  download "conscience-inquiry-synthesis.txt" text ;;
  showConfirmation "Synthesis exported successfully." None.

(** ** The journey panel *)

(** [escapeHtml(text)]: the text becomes the only child of a new [div],
    and the [innerHTML] of the [div] is the serialization of that text:
    [&], [<], [>] and the no-break space are written as character
    references, every other code unit as it is. *)
Definition escape_html_char (c : ascii) : string :=
  match nat_of_ascii c with
  | 38 => "&amp;"
  | 60 => "&lt;"
  | 62 => "&gt;"
  | 160 => "&nbsp;"
  | _ => String c EmptyString
  end.

Fixpoint escapeHtml (text : string) : string :=
  match text with
  | EmptyString => EmptyString
  | String c text' => escape_html_char c +:+ escapeHtml text'
  end.

(** [class="c"] *)
Definition class_attribute (c : string) : string :=
  "class=" +:+ String dquote c +:+ String dquote EmptyString.

(** The markup of one reflection, with the line breaks and the indentation
    of the template. *)
Definition evidence_item (title text : string) : string :=
  LF +:+ repeat_string " " 8
     +:+ "<div " +:+ class_attribute "evidence-summary__item" +:+ ">" +:+ LF
     +:+ repeat_string " " 10
     +:+ "<h4 " +:+ class_attribute "evidence-summary__title" +:+ ">"
     +:+ title +:+ "</h4>" +:+ LF
     +:+ repeat_string " " 10
     +:+ "<p " +:+ class_attribute "evidence-summary__text" +:+ ">"
     +:+ text +:+ "</p>" +:+ LF
     +:+ repeat_string " " 8 +:+ "</div>" +:+ LF
     +:+ repeat_string " " 6.

Definition NO_REFLECTIONS : string :=
  "<p " +:+ class_attribute "text-muted"
  +:+ ">No reflections recorded yet. Consider revisiting the evidence pages.</p>".

(** [pillars.forEach(pillar => ...)] of [populateEvidenceSummary], threading
    the markup built so far.  The list of pillars is that of the export (the
    [page] each one carries here is not used). *)
Fixpoint append_items (responses : Responses) (ps : list Pillar)
    (html : string) : M string :=
  match ps with
  | [] => ret html
  | pillar :: rest =>
      let response := key pillar responses in
      filled <- is_filled response ;;
      append_items responses rest
        (if filled
         then html +:+ evidence_item (name pillar) (escapeHtml (to_string response))
         else html)
  end.

(** [populateEvidenceSummary(responses)]: the markup assigned to the
    [innerHTML] of [#evidence-summary]; [None] when the page lacks the
    element. *)
Definition populateEvidenceSummary (responses : Responses)
    (summaryContainer : option string) : M (option string) :=
  match summaryContainer with
  | None => ret None
  | Some _ =>
      html <- append_items responses pillars EmptyString ;;
      ret (Some (if truthy (VStr html) then html else NO_REFLECTIONS))
  end.

(** The elements [loadUserJourney] fills: the text of the two displays and
    the markup of the summary, each [None] when the page lacks it. *)
Record JourneyPanel : Type := mkJourneyPanel {
  originalSliderDisplay : option string;   (* #original-slider-value *)
  originalReasonDisplay : option string;   (* #original-reason-display *)
  evidenceSummary : option string          (* #evidence-summary *)
}.

Definition loadUserJourney (page : JourneyPanel) : M JourneyPanel :=
  responses <- getAllResponses ;;
  sliderDisplay <-
    match originalSliderDisplay page with
    | Some _ =>
        label <- slider_label (initialSlider responses) ;;
        ret (Some label)
    | None => ret None
    end ;;
  let reasonDisplay :=
    match originalReasonDisplay page with
    | Some shown =>
        if truthy (initialReason responses)
        then Some (to_string (initialReason responses))
        else Some shown
    | None => None
    end in
  summary <- populateEvidenceSummary responses (evidenceSummary page) ;;
  ret (mkJourneyPanel sliderDisplay reasonDisplay summary).

(** ** Debounce *)

(** The closure [debounce(func, wait)] returns, together with the timers it
    set: [timeout] is its variable ([None] while undefined), [pending] the
    timers that are set and have neither fired nor been cleared, each with
    the arguments its callback holds, and [calls] the arguments [func] was
    called with so far, in order.  When a pending timer fires is left open:
    the delay plays no part. *)
Record Debounced (A : Type) : Type := mkDebounced {
  timeout : option nat;
  pending : list (nat * A);
  next_timer : nat;
  calls : list A
}.
Arguments mkDebounced {A} _ _ _ _.
Arguments timeout {A} _.
Arguments pending {A} _.
Arguments next_timer {A} _.
Arguments calls {A} _.

(** [clearTimeout(id)] on the pending timers. *)
Definition clearTimeout {A} (id : option nat) (l : list (nat * A)) : list (nat * A) :=
  match id with
  | Some i => filter (λ t, t.1 ≠ i) l
  | None => l
  end.

(** [debounce(func, wait)]: the closure before its first call. *)
Definition debounce {A} : Debounced A := mkDebounced None [] 0 [].

(** [executedFunction(...args)] *)
Definition executedFunction {A} (args : A) (d : Debounced A) : Debounced A :=
  let id := next_timer d in
  mkDebounced (Some id) (clearTimeout (timeout d) (pending d) ++ [(id, args)])
    (S id) (calls d).

(** [later], for the call that had [args]. *)
Definition later {A} (args : A) (d : Debounced A) : Debounced A :=
  mkDebounced (timeout d) (clearTimeout (timeout d) (pending d))
    (next_timer d) (calls d ++ [args]).

Fixpoint timer_args {A} (id : nat) (l : list (nat * A)) : option A :=
  match l with
  | [] => None
  | (i, args) :: rest => if i =? id then Some args else timer_args id rest
  end.

(** The timer [id] fires: it leaves the pending ones and its callback
    runs.  A timer that is not pending does not fire. *)
Definition fire {A} (id : nat) (d : Debounced A) : Debounced A :=
  match timer_args id (pending d) with
  | Some args =>
      later args
        (mkDebounced (timeout d) (filter (λ t, t.1 ≠ id) (pending d))
           (next_timer d) (calls d))
  | None => d
  end.

(** What happens to a debounced function: it is called, or a timer
    fires. *)
Inductive DebounceEvent (A : Type) : Type :=
  | Called (args : A)
  | Fired (id : nat).
Arguments Called {A} args.
Arguments Fired {A} id.

Definition debounce_step {A} (d : Debounced A) (ev : DebounceEvent A) : Debounced A :=
  match ev with
  | Called args => executedFunction args d
  | Fired id => fire id d
  end.

Definition debounce_run {A} (events : list (DebounceEvent A)) (d : Debounced A)
  : Debounced A :=
  fold_left debounce_step events d.

(* ================================================================== *)
(** * Notions the statements use *)
(* ================================================================== *)

(** A text that does not begin with a decimal digit. *)
Definition no_digit_head (s : string) : Prop :=
  match s with
  | EmptyString => True
  | String c _ => digit_of c = None
  end.

(** A text that cannot continue a number literal. *)
Definition number_end (s : string) : Prop :=
  match s with
  | EmptyString => True
  | String c _ =>
      digit_of c = None ∧
      Ascii.eqb c "." || Ascii.eqb c "e" || Ascii.eqb c "E" = false
  end.

(** The fuel [JSON.parse_value] needs to read a value back. *)
Fixpoint cost (v : value) : nat :=
  match v with
  | VArr l => S (fold_right (λ x acc, S (Nat.max (cost x) acc)) 0 l)
  | _ => 1
  end.

Definition cost_list (l : list value) : nat :=
  fold_right (λ x acc, S (Nat.max (cost x) acc)) 0 l.

(** How [loadFromStorage(key, d)] ends, as a function of the storage: with
    the default when the storage is disabled, the key is absent or the
    stored text is malformed, and with the parsed value otherwise. *)
Definition read (st : Storage) (key : string) (d : value) : outcome value :=
  if enabled st then
    match items st !! (STORAGE_PREFIX +:+ key) with
    | Some text =>
        match JSON.parse text with
        | JSON.Ok v => Ret v
        | JSON.Malformed => Ret d
        | JSON.Unsupported => OutsideModel
        end
    | None => Ret d
    end
  else Ret d.

(** The storage after [saveToStorage(key, v)]. *)
Definition put (st : Storage) (key : string) (v : value) : Storage :=
  if accepts st (STORAGE_PREFIX +:+ key) (JSON.stringify v)
  then mkStorage (<[STORAGE_PREFIX +:+ key := JSON.stringify v]> (items st))
         (enabled st) (quota st)
  else st.

(** [w'] differs from [w] at most in the console. *)
Definition only_logs (w w' : World) : Prop :=
  localStorage w' = localStorage w ∧ document w' = document w ∧
  timers w' = timers w ∧ downloads w' = downloads w ∧ today w' = today w.

(** [w'] differs from [w] at most in the storage and the console. *)
Definition same_page (w w' : World) : Prop :=
  document w' = document w ∧ timers w' = timers w ∧
  downloads w' = downloads w ∧ today w' = today w.

(** [round(num / den)] for a positive [den], a tie going up. *)
Definition round_half_up (num den : Z) : Z := ((2 * num + den) / (2 * den))%Z.

(** ** Sample worlds *)

Definition blank_page : Document := mkDocument None None None false 0.

Definition world_of (st : Storage) : World :=
  mkWorld st [] blank_page [] [] "1/2/2026".

(** A page with the two controls of the synthesis form. *)
Definition synthesis_world (st : Storage) (text slider : string) : World :=
  mkWorld st [] (mkDocument (Some text) (Some slider) None false 0) [] [] "1/2/2026".

Definition storage_empty : Storage := mkStorage ∅ true 5000.
Definition storage_disabled : Storage := mkStorage ∅ false 5000.
Definition storage_full : Storage := mkStorage ∅ true 0.
Definition storage_garbled : Storage :=
  mkStorage {[ "conscience_inquiry_initial_reason" := "[oops" ]} true 5000.
Definition storage_with_pages (text : string) : Storage :=
  mkStorage {[ "conscience_inquiry_completed_pages" := text ]} true 5000.

(** A storage that holds the list with the index page and is filled to its
    quota. *)
Definition storage_at_quota : Storage :=
  let held : gmap string string :=
    {[ "conscience_inquiry_completed_pages" := JSON.stringify (VArr [VStr "index"]) ]} in
  mkStorage held true (storage_size held).

(** A storage that holds an earlier draft of the synthesis and is filled
    to its quota. *)
Definition storage_with_draft : Storage :=
  let held : gmap string string :=
    {[ "conscience_inquiry_synthesis_statement"
       := JSON.stringify (VStr "An earlier draft.") ]} in
  mkStorage held true (storage_size held).

(** The number of the eight page names that occur in [L]. *)
Definition completed_count (L : list string) : nat :=
  size (list_to_set L ∩ list_to_set allPages : gset string).

(** How many times the name [n] occurs in [L]. *)
Definition occurrences (n : string) (L : list string) : nat :=
  length (filter (λ x, x = n) L).

(** The completed-pages list the storage of [w] holds ([[]] by default). *)
Definition stored_pages (w : World) : outcome value :=
  fst (loadFromStorage "completed_pages" (VArr []) w).

(** The storage is enabled and can take [n] more code units. *)
Definition has_room (st : Storage) (n : nat) : Prop :=
  enabled st = true ∧ storage_size (items st) + n ≤ quota st.

(** The code units an item takes once stored. *)
Definition item_size (key : string) (v : value) : nat :=
  String.length (STORAGE_PREFIX +:+ key) + String.length (JSON.stringify v).

(** [sliderValue] of the submit listener. *)
Definition slider_reading (w : World) : value :=
  match finalSlider_value (document w) with
  | Some v => number_value (parseInt v)
  | None => VNum 50
  end.

Definition REJECTION_MESSAGE : string :=
  "Please write at least 100 characters for your synthesis.".
Definition SAVED_MESSAGE : string :=
  "Synthesis saved. Proceeding to conclusion...".

(** The submit listener refuses the text: it returns having shown the
    rejection message, the storage is as it was, and the only timer it
    added removes the toast. *)
Definition rejects (w : World) : Prop :=
  ∃ w', submitHandler w = (Ret tt, w') ∧
        localStorage w' = localStorage w ∧
        toast (document w')
        = Some (mkToast (created (document w)) InfoMark REJECTION_MESSAGE) ∧
        timers w' = timers w ++ [mkTimer (RemoveToast (created (document w))) 3000].

(** The submit listener takes the text: it returns having shown the
    confirmation and scheduled the move to the next page. *)
Definition accepts_submission (w : World) : Prop :=
  ∃ w', submitHandler w = (Ret tt, w') ∧
        toast (document w')
        = Some (mkToast (created (document w)) CheckMark SAVED_MESSAGE) ∧
        timers w' = timers w ++ [mkTimer (RemoveToast (created (document w))) 3000;
                                   mkTimer (Navigate "conclusion.html") 1500].

(** A record whose sliders are numbers (the final one possibly [null]) and
    whose six reflections are strings. *)
Definition typed_responses (r : Responses) : Prop :=
  (∃ i, initialSlider r = VNum i) ∧
  (finalSlider r = VNull ∨ ∃ f, finalSlider r = VNum f) ∧
  ∀ pillar, pillar ∈ pillars → ∃ t, key pillar r = VStr t.

(** The reflections part of the export, as the specification words it: for
    each topic in order, its name and text when the text is not blank, and
    nothing otherwise. *)
Fixpoint journey_spec (r : Responses) (ps : list Pillar) : string :=
  match ps with
  | [] => EmptyString
  | pillar :: rest =>
      match key pillar r with
      | VStr t =>
          if String.eqb (trim t) EmptyString then journey_spec r rest
          else (LF +:+ name pillar +:+ ":" +:+ LF +:+ t +:+ LF) +:+ journey_spec r rest
      | _ => journey_spec r rest
      end
  end.

(** The final slider the export formats: 50 stands in for [null] and for
    every other falsy value, zero included. *)
Definition exported_final_slider (r : Responses) : value :=
  or_else (finalSlider r) (VNum 50).

(** A world whose storage holds what a submission with the final slider at
    zero leaves. *)
Definition world_after_zero_submission : World :=
  snd (submitHandler (synthesis_world storage_empty (repeat_string "a" 100) "0")).

(** ** Notions of the statements on the rest of the scripts *)

(** A value without [NaN] in it: [JSON.stringify] loses nothing of it. *)
Fixpoint no_NaN (v : value) : bool :=
  match v with
  | VNaN => false
  | VArr l => forallb no_NaN l
  | _ => true
  end.

(** An integer that a JavaScript number holds exactly: below 2^53 in
    magnitude.  On these [parseInt], the arithmetic of the scripts and the
    conversion to a string are those of the integers. *)
Definition safe_integer (v : Z) : Prop :=
  (-9007199254740992 < v < 9007199254740992)%Z.

(** The value has an [includes] method: it is an array or a string. *)
Definition has_includes (v : value) : bool :=
  match v with
  | VArr _ | VStr _ => true
  | _ => false
  end.

(** The percentages [k / 8] rounds to. *)
Definition progress_values : list Z := [0; 13; 25; 38; 50; 63; 75; 88; 100]%Z.

(** How many times the code unit [c] occurs in [s]. *)
Fixpoint count_char (c : ascii) (s : string) : nat :=
  match s with
  | EmptyString => 0
  | String x s' => (if Ascii.eqb x c then 1 else 0) + count_char c s'
  end.

(** The text a markup stands for, as far as the four character references
    of [escapeHtml] go: each of them is read back as its character. *)
Fixpoint read_references (s : string) : string :=
  match s with
  | EmptyString => EmptyString
  | String "&" (String "a" (String "m" (String "p" (String ";" r)))) =>
      String "&" (read_references r)
  | String "&" (String "l" (String "t" (String ";" r))) =>
      String "<" (read_references r)
  | String "&" (String "g" (String "t" (String ";" r))) =>
      String ">" (read_references r)
  | String "&" (String "n" (String "b" (String "s" (String "p" (String ";" r))))) =>
      String (ascii_of_nat 160) (read_references r)
  | String c r => String c (read_references r)
  end.

(** A reflection that is a string with more than white space in it. *)
Definition nonblank (v : value) : bool :=
  match v with
  | VStr t => negb (String.eqb (trim t) EmptyString)
  | _ => false
  end.

(** The pillars whose reflection is not blank, in order. *)
Definition recorded (r : Responses) : list Pillar :=
  List.filter (λ pillar, nonblank (key pillar r)) pillars.

(** The six reflections are strings. *)
Definition text_reflections (r : Responses) : Prop :=
  ∀ pillar, pillar ∈ pillars → ∃ t, key pillar r = VStr t.

(** The markup of the summary: the items of the pillars of [ps] whose
    reflection is not blank, in order. *)
Definition summary_markup (r : Responses) (ps : list Pillar) : string :=
  fold_right
    (λ pillar rest,
       evidence_item (name pillar) (escapeHtml (to_string (key pillar r))) +:+ rest)
    EmptyString
    (List.filter (λ pillar, nonblank (key pillar r)) ps).

(** The record [getAllResponses] returns when nothing is stored. *)
Definition default_responses : Responses :=
  mkResponses (VNum 50) (VStr "") (VStr "") (VStr "") (VStr "") (VStr "")
    (VStr "") (VStr "") (VStr "") VNull (VArr []).

(** The record that [getAllResponses] returns on [storage_with_answers]. *)
Definition sample_answers : Responses :=
  mkResponses (VNum 50) (VStr "It is learned.") (VStr "Mirror <neurons> & more")
    (VStr "   ") (VStr "") (VStr "") (VStr "") (VStr "") (VStr "") VNull (VArr []).

(** The arguments of the calls among [events], in order. *)
Definition called_args {A} (events : list (DebounceEvent A)) : list A :=
  omap (λ ev, match ev with Called args => Some args | Fired _ => None end) events.

(** At most one timer of the closure is pending, the one its variable
    names; [func] was called with arguments taken from [args], in order,
    and the pending timer holds a later one. *)
Definition debounce_invariant {A} (d : Debounced A) (args : list A) : Prop :=
  (pending d = [] ∧ calls d `sublist_of` args) ∨
  (∃ id a, pending d = [(id, a)] ∧ timeout d = Some id ∧
           calls d ++ [a] `sublist_of` args).

(** A storage that holds a reason, a reflection on the biology page and a
    blank reflection on the infants page. *)
Definition storage_with_answers : Storage :=
  mkStorage
    {[ "conscience_inquiry_initial_reason" := JSON.stringify (VStr "It is learned.");
       "conscience_inquiry_biology_reflection" := JSON.stringify (VStr "Mirror <neurons> & more");
       "conscience_inquiry_infants_reflection" := JSON.stringify (VStr "   ");
       "other_site_setting" := "dark" ]}
    true 5000.

(* ================================================================== *)
(** * Strings and numbers *)
(* ================================================================== *)

(** [simpl] unfolds [+:+] on a string whose head is known. *)
#[local] Arguments String.append !s1 s2 : simpl nomatch.

Lemma string_app_assoc (a b c : string) : (a +:+ b) +:+ c = a +:+ (b +:+ c).
Proof. induction a as [|x a IH]; simpl; [reflexivity | now rewrite IH]. Qed.

Lemma string_app_nil_r (a : string) : a +:+ EmptyString = a.
Proof. induction a as [|x a IH]; simpl; [reflexivity | now rewrite IH]. Qed.

Lemma string_app_length (a b : string) :
  String.length (a +:+ b) = String.length a + String.length b.
Proof. induction a as [|x a IH]; simpl; [reflexivity | now rewrite IH]. Qed.

Lemma occurs_in_refl (s : string) : occurs_in s s.
Proof. exists EmptyString, EmptyString. simpl. now rewrite string_app_nil_r. Qed.

Lemma occurs_in_app_l (t a b : string) : occurs_in t a → occurs_in t (a +:+ b).
Proof.
  intros (x & y & ->). exists x, (y +:+ b).
  now rewrite !string_app_assoc.
Qed.

Lemma occurs_in_app_r (t a b : string) : occurs_in t b → occurs_in t (a +:+ b).
Proof.
  intros (x & y & ->). exists (a +:+ x), y.
  now rewrite !string_app_assoc.
Qed.

Example trim_samples :
  map trim ["  a b  "; "ab"; "   "; ""] = ["a b"; "ab"; ""; ""].
Proof. reflexivity. Qed.

Example parseInt_samples :
  map parseInt ["  42px"; "-7"; "abc"; ""; "+3"; "007"]
  = [Some 42%Z; Some (-7)%Z; None; None; Some 3%Z; Some 7%Z].
Proof. reflexivity. Qed.

Lemma trimStart_length (s : string) : String.length (trimStart s) ≤ String.length s.
Proof.
  induction s as [|c s IH]; simpl; [lia|].
  destruct (is_whitespace c); simpl; lia.
Qed.

Lemma trimEnd_length (s : string) : String.length (trimEnd s) ≤ String.length s.
Proof.
  induction s as [|c s IH]; simpl; [lia|].
  destruct (trimEnd s) eqn:E; [destruct (is_whitespace c)|]; simpl in *; lia.
Qed.

Lemma trim_length (s : string) : String.length (trim s) ≤ String.length s.
Proof.
  unfold trim. etransitivity; [apply trimEnd_length | apply trimStart_length].
Qed.

Lemma read_digits_no_digit (rest : string) :
  no_digit_head rest → read_digits rest = (Nil, rest).
Proof. destruct rest as [|c r]; simpl; [reflexivity | now intros ->]. Qed.

Lemma read_digits_string_of_uint (u : uint) (rest : string) :
  no_digit_head rest →
  read_digits (NilEmpty.string_of_uint u +:+ rest) = (u, rest).
Proof.
  intros H. induction u; simpl;
    [now apply read_digits_no_digit | now rewrite IHu ..].
Qed.

Lemma digit_is_plain (c : ascii) (d : uint → uint) :
  digit_of c = Some d →
  is_whitespace c = false ∧ Ascii.eqb c "-" = false ∧ Ascii.eqb c "+" = false.
Proof.
  destruct c as [[] [] [] [] [] [] [] []]; vm_compute; intros; try discriminate; auto.
Qed.

Lemma string_of_uint_head (u : uint) :
  u ≠ Nil →
  ∃ c s d, NilEmpty.string_of_uint u = String c s ∧ digit_of c = Some d.
Proof. destruct u; [congruence | simpl; eauto ..]. Qed.

Lemma string_of_uint_nonnil (u : uint) :
  u ≠ Nil → NilZero.string_of_uint u = NilEmpty.string_of_uint u.
Proof. destruct u; [congruence | reflexivity ..]. Qed.

Lemma parseInt_digits (u : uint) (rest : string) :
  u ≠ Nil → no_digit_head rest →
  parseInt (NilEmpty.string_of_uint u +:+ rest) = Some (Z.of_N (N.of_uint u)).
Proof.
  intros Hu Hrest.
  pose proof (read_digits_string_of_uint u rest Hrest) as Hread.
  destruct (string_of_uint_head u Hu) as (c & s & d & Hs & Hd).
  destruct (digit_is_plain c d Hd) as (Hw & Hm & Hp).
  unfold parseInt. rewrite Hs in *. simpl trimStart. rewrite Hw, Hm, Hp.
  simpl in Hread |- *. rewrite Hread.
  destruct u; [congruence | reflexivity ..].
Qed.

Lemma parseInt_minus_digits (u : uint) (rest : string) :
  u ≠ Nil → no_digit_head rest →
  parseInt (String "-" (NilEmpty.string_of_uint u +:+ rest))
  = Some (- Z.of_N (N.of_uint u))%Z.
Proof.
  intros Hu Hrest.
  pose proof (read_digits_string_of_uint u rest Hrest) as Hread.
  unfold parseInt. simpl. rewrite Hread.
  destruct u; [congruence | reflexivity ..].
Qed.

(** [parseInt] reads back the number a label starts with. *)
Lemma parseInt_number_to_string (n : Z) (rest : string) :
  no_digit_head rest →
  parseInt (number_to_string n +:+ rest) = Some n.
Proof.
  intros Hrest. unfold number_to_string.
  destruct n as [|p|p]; simpl Z.to_int.
  - change (NilZero.string_of_int (Pos zero)) with (NilEmpty.string_of_uint zero).
    now rewrite parseInt_digits.
  - pose proof (DecimalPos.Unsigned.to_uint_nonnil p) as Hp.
    simpl. rewrite (string_of_uint_nonnil _ Hp), parseInt_digits by assumption.
    unfold N.of_uint. now rewrite DecimalPos.Unsigned.of_to.
  - pose proof (DecimalPos.Unsigned.to_uint_nonnil p) as Hp.
    simpl. rewrite (string_of_uint_nonnil _ Hp), parseInt_minus_digits by assumption.
    unfold N.of_uint. now rewrite DecimalPos.Unsigned.of_to.
Qed.

(* ================================================================== *)
(** * The slider label *)
(* ================================================================== *)

Example formatConscienceSlider_samples :
  map formatConscienceSlider [0; 49; 50; 51; 100]%Z
  = ["100% Constructed"; "51% Constructed"; "Exactly balanced";
     "51% Innate"; "100% Innate"].
Proof. reflexivity. Qed.

(** C1.  For an integer slider value [v] between 0 and 100, the label is the
    neutral one exactly when [v = 50]; below 50 it is the decimal numeral of
    [100 - v] followed by the constructed suffix, and above 50 the numeral of
    [v] followed by the innate suffix.  The number a percentage label starts
    with, as [parseInt] reads it, is [100 - v], respectively [v]. *)
Theorem formatConscienceSlider_spec (v : Z) :
  (0 ≤ v ≤ 100)%Z →
  (formatConscienceSlider v = "Exactly balanced" ↔ v = 50%Z) ∧
  ((v < 50)%Z →
     formatConscienceSlider v = number_to_string (100 - v) +:+ "% Constructed" ∧
     parseInt (formatConscienceSlider v) = Some (100 - v)%Z) ∧
  ((50 < v)%Z →
     formatConscienceSlider v = number_to_string v +:+ "% Innate" ∧
     parseInt (formatConscienceSlider v) = Some v).
Proof.
  intros _. unfold formatConscienceSlider.
  destruct (Z.eqb_spec v 50) as [->|Hne]; [|destruct (Z.ltb_spec v 50) as [Hlt|Hge]].
  - repeat split; intros; [lia ..].
  - assert (Hp : parseInt (number_to_string (100 - v) +:+ "% Constructed")
                 = Some (100 - v)%Z)
      by (apply parseInt_number_to_string; reflexivity).
    repeat split; intros; try lia; try assumption.
    exfalso. match goal with H : _ = "Exactly balanced" |- _ => rewrite H in Hp end.
    discriminate Hp.
  - assert (Hp : parseInt (number_to_string v +:+ "% Innate") = Some v)
      by (apply parseInt_number_to_string; reflexivity).
    repeat split; intros; try lia; try assumption.
    exfalso. match goal with H : _ = "Exactly balanced" |- _ => rewrite H in Hp end.
    discriminate Hp.
Qed.

Lemma formatConscienceSlider_spec_witness :
  formatConscienceSlider 50 = "Exactly balanced" ∧
  (formatConscienceSlider 30 = number_to_string (100 - 30) +:+ "% Constructed" ∧
   parseInt (formatConscienceSlider 30) = Some (100 - 30)%Z) ∧
  (formatConscienceSlider 85 = number_to_string 85 +:+ "% Innate" ∧
   parseInt (formatConscienceSlider 85) = Some 85%Z).
Proof.
  refine (conj _ (conj _ _)).
  - apply (formatConscienceSlider_spec 50); [lia | reflexivity].
  - apply (formatConscienceSlider_spec 30); lia.
  - apply (formatConscienceSlider_spec 85); lia.
Defined.

(* ================================================================== *)
(** * The character counter *)
(* ================================================================== *)

(** C6.  With thresholds [minChars ≤ maxChars], the counter takes the muted
    color exactly below the minimum, the success color exactly from the
    minimum to the maximum (both included), and the warning color exactly
    above the maximum; the thresholds default to 100 and 500. *)
Theorem counter_color_bands (minChars maxChars : Z) (text : string) :
  (minChars ≤ maxChars)%Z →
  let n := Z.of_nat (String.length text) in
  let c := color (updateCounter minChars maxChars text) in
  (c = "var(--color-text-muted)" ↔ (n < minChars)%Z) ∧
  (c = "var(--color-success)" ↔ (minChars ≤ n ≤ maxChars)%Z) ∧
  (c = "var(--color-warning)" ↔ (maxChars < n)%Z) ∧
  (n = minChars → c ≠ "var(--color-text-muted)") ∧
  (n = maxChars → c = "var(--color-success)") ∧
  (n = (maxChars + 1)%Z → c = "var(--color-warning)") ∧
  initCharCounter text None None = updateCounter 100 500 text.
Proof.
  intros Hle n c. subst c. unfold updateCounter. simpl color. fold n.
  destruct (Z.ltb_spec n minChars) as [H1|H1];
    [|destruct (Z.leb_spec n maxChars) as [H2|H2]];
    repeat split; intros; try lia; try discriminate; try reflexivity.
Qed.

Lemma counter_color_bands_witness :
  color (updateCounter 3 5 "ab") = "var(--color-text-muted)" ∧
  color (updateCounter 3 5 "abc") = "var(--color-success)" ∧
  color (updateCounter 3 5 "abcde") = "var(--color-success)" ∧
  color (updateCounter 3 5 "abcdef") = "var(--color-warning)".
Proof.
  refine (conj _ (conj _ (conj _ _))).
  - destruct (counter_color_bands 3 5 "ab" ltac:(lia)) as (H & _).
    apply H. simpl. lia.
  - destruct (counter_color_bands 3 5 "abc" ltac:(lia)) as (_ & H & _).
    apply H. simpl. lia.
  - destruct (counter_color_bands 3 5 "abcde" ltac:(lia)) as (_ & _ & _ & _ & H & _).
    apply H. reflexivity.
  - destruct (counter_color_bands 3 5 "abcdef" ltac:(lia)) as (_ & _ & _ & _ & _ & H & _).
    apply H. reflexivity.
Defined.

(* ================================================================== *)
(** * Reveal blocks *)
(* ================================================================== *)

Lemma reveal_init_flags (b : RevealBlock) :
  expanded (reveal_init b) = false ∧ hidden (reveal_init b) = true.
Proof.
  unfold expanded, hidden, reveal_init, getAttribute, setAttribute. simpl.
  rewrite !lookup_insert_eq. split; reflexivity.
Qed.

Lemma reveal_click_flags (b : RevealBlock) :
  expanded (reveal_click b) = negb (expanded b) ∧
  hidden (reveal_click b) = expanded b.
Proof.
  unfold expanded, hidden, reveal_click, getAttribute, setAttribute. simpl.
  rewrite !lookup_insert_eq.
  destruct (bool_decide (attributes (trigger b) !! "aria-expanded" = Some "true"));
    split; reflexivity.
Qed.

(** C8.  On the flags (expanded, hidden) of a trigger/content pair:
    initialisation sets (false, true), a click takes (e, h) to (not e, e),
    and in every state reached from initialisation by clicks the hidden
    flag is the negation of the expanded flag. *)
Theorem reveal_flags_mirror (b0 : RevealBlock) :
  (expanded (reveal_init b0), hidden (reveal_init b0)) = (false, true) ∧
  (∀ b, (expanded (reveal_click b), hidden (reveal_click b))
        = (negb (expanded b), expanded b)) ∧
  (∀ b, reveal_reachable b0 b → hidden b = negb (expanded b)).
Proof.
  split; [|split].
  - destruct (reveal_init_flags b0) as [-> ->]. reflexivity.
  - intros b. destruct (reveal_click_flags b) as [-> ->]. reflexivity.
  - intros b Hreach. induction Hreach as [|b Hreach IH].
    + destruct (reveal_init_flags b0) as [-> ->]. reflexivity.
    + destruct (reveal_click_flags b) as [-> ->].
      now rewrite negb_involutive.
Qed.

Lemma reveal_flags_mirror_witness :
  let b0 := mkRevealBlock (mkElement ∅) (mkElement {["aria-hidden" := "false"]}) in
  let b := reveal_click (reveal_click (reveal_click (reveal_init b0))) in
  hidden b = negb (expanded b).
Proof.
  intros b0 b.
  apply (proj2 (proj2 (reveal_flags_mirror b0))).
  subst b. repeat constructor.
Defined.

(* ================================================================== *)
(** * JSON: what [parse] reads back from [stringify] *)
(* ================================================================== *)

Lemma number_end_no_digit (s : string) : number_end s → no_digit_head s.
Proof. destruct s; simpl; tauto. Qed.

Lemma to_uint_no_leading_zero (p : positive) (u : uint) : Pos.to_uint p ≠ D0 u.
Proof.
  intros H.
  pose proof (DecimalPos.Unsigned.to_of (Pos.to_uint p)) as Hn.
  rewrite DecimalPos.Unsigned.of_to in Hn. simpl in Hn.
  rewrite H in Hn. unfold unorm in Hn. simpl in Hn.
  destruct (nzhead u) eqn:E; try discriminate.
  - injection Hn as ->. now apply (DecimalPos.Unsigned.to_uint_nonzero p).
  - now apply (nzhead_nonzero u u0).
Qed.

Lemma digit_not_minus (c : ascii) (d : uint → uint) :
  digit_of c = Some d → Ascii.eqb c "-" = false.
Proof. intros H. now destruct (digit_is_plain c d H) as (_ & ? & _). Qed.

Lemma parse_number_finish (u : uint) (rest : string) (negative : bool) :
  u ≠ Nil → (∀ u', u ≠ D0 (D0 u')) → (∀ u', u = D0 u' → u' = Nil) →
  number_end rest →
  match u with
  | Nil => JSON.Malformed
  | D0 (D0 _ | D1 _ | D2 _ | D3 _ | D4 _ | D5 _ | D6 _ | D7 _ | D8 _ | D9 _) =>
      JSON.Malformed
  | _ =>
      match rest with
      | String c _ =>
          if Ascii.eqb c "." || Ascii.eqb c "e" || Ascii.eqb c "E"
          then JSON.Unsupported
          else
            let n := Z.of_N (N.of_uint u) in
            JSON.Ok (VNum (if negative then (- n)%Z else n), rest)
      | EmptyString =>
          let n := Z.of_N (N.of_uint u) in
          JSON.Ok (VNum (if negative then (- n)%Z else n), rest)
      end
  end
  = JSON.Ok (VNum (if negative then (- Z.of_N (N.of_uint u))%Z
                   else Z.of_N (N.of_uint u)), rest).
Proof.
  intros Hnil H00 H0 Hend.
  assert (Hrest : match rest with
                  | String c _ =>
                      if Ascii.eqb c "." || Ascii.eqb c "e" || Ascii.eqb c "E"
                      then @JSON.Unsupported (value * string)
                      else JSON.Ok (VNum (if negative then (- Z.of_N (N.of_uint u))%Z
                                          else Z.of_N (N.of_uint u)), rest)
                  | EmptyString =>
                      JSON.Ok (VNum (if negative then (- Z.of_N (N.of_uint u))%Z
                                     else Z.of_N (N.of_uint u)), rest)
                  end
                  = JSON.Ok (VNum (if negative then (- Z.of_N (N.of_uint u))%Z
                                   else Z.of_N (N.of_uint u)), rest)).
  { destruct rest as [|c r]; [reflexivity|]. destruct Hend as [_ ->]. reflexivity. }
  destruct u as [|u'| | | | | | | | |]; try exact Hrest; [congruence|].
  rewrite (H0 u' eq_refl) in *. exact Hrest.
Qed.

Lemma parse_number_digits (u : uint) (rest : string) :
  u ≠ Nil → (∀ u', u = D0 u' → u' = Nil) → number_end rest →
  JSON.parse_number (NilEmpty.string_of_uint u +:+ rest)
  = JSON.Ok (VNum (Z.of_N (N.of_uint u)), rest).
Proof.
  intros Hu H0 Hend.
  pose proof (read_digits_string_of_uint u rest (number_end_no_digit _ Hend)) as Hread.
  destruct (string_of_uint_head u Hu) as (c & s & d & Hs & Hd).
  unfold JSON.parse_number. rewrite Hs in *. simpl String.append in *.
  cbv beta iota. rewrite (digit_not_minus c d Hd). cbv beta iota zeta.
  rewrite Hread.
  apply (parse_number_finish u rest false); try assumption.
  intros u' ->. now specialize (H0 _ eq_refl).
Qed.

Lemma parse_number_minus_digits (u : uint) (rest : string) :
  u ≠ Nil → (∀ u', u = D0 u' → u' = Nil) → number_end rest →
  JSON.parse_number (String "-" (NilEmpty.string_of_uint u +:+ rest))
  = JSON.Ok (VNum (- Z.of_N (N.of_uint u)), rest).
Proof.
  intros Hu H0 Hend.
  pose proof (read_digits_string_of_uint u rest (number_end_no_digit _ Hend)) as Hread.
  unfold JSON.parse_number. cbv beta iota.
  change (Ascii.eqb "-" "-") with true. cbv beta iota zeta. rewrite Hread.
  apply (parse_number_finish u rest true); try assumption.
  intros u' ->. now specialize (H0 _ eq_refl).
Qed.

Lemma parse_number_number_to_string (n : Z) (rest : string) :
  number_end rest →
  JSON.parse_number (number_to_string n +:+ rest) = JSON.Ok (VNum n, rest).
Proof.
  intros Hend. unfold number_to_string.
  destruct n as [|p|p]; simpl Z.to_int.
  - change (NilZero.string_of_int (Pos zero)) with (NilEmpty.string_of_uint zero).
    rewrite parse_number_digits; try assumption; try discriminate; [reflexivity|].
    now intros u' [= <-].
  - pose proof (DecimalPos.Unsigned.to_uint_nonnil p) as Hp.
    simpl. rewrite (string_of_uint_nonnil _ Hp), parse_number_digits; try assumption.
    + unfold N.of_uint. now rewrite DecimalPos.Unsigned.of_to.
    + intros u' H. now destruct (to_uint_no_leading_zero p u').
  - pose proof (DecimalPos.Unsigned.to_uint_nonnil p) as Hp.
    simpl. rewrite (string_of_uint_nonnil _ Hp), parse_number_minus_digits; try assumption.
    + unfold N.of_uint. now rewrite DecimalPos.Unsigned.of_to.
    + intros u' H. now destruct (to_uint_no_leading_zero p u').
Qed.

(** One escaped code unit is read back as that code unit. *)
Lemma parse_chars_escape_char (c : ascii) (tail : string) :
  JSON.parse_chars (JSON.escape_char c +:+ tail)
  = JSON.and_then (JSON.parse_chars tail) (λ '(t, rest), JSON.Ok (String c t, rest)).
Proof. destruct c as [[] [] [] [] [] [] [] []]; reflexivity. Qed.

Lemma parse_chars_escape (s rest : string) :
  JSON.parse_chars (JSON.escape s +:+ String dquote rest) = JSON.Ok (s, rest).
Proof.
  induction s as [|c s IH].
  - reflexivity.
  - simpl JSON.escape. rewrite string_app_assoc, parse_chars_escape_char, IH.
    reflexivity.
Qed.

Lemma quote_app (s rest : string) :
  JSON.quote s +:+ rest = String dquote (JSON.escape s +:+ String dquote rest).
Proof. unfold JSON.quote. simpl. now rewrite string_app_assoc. Qed.

(** Induction on a value, with the hypothesis on every element of an array. *)
Lemma value_nested_ind (P : value → Prop) :
  P VNull → (∀ b, P (VBool b)) → (∀ n, P (VNum n)) → P VNaN →
  (∀ s, P (VStr s)) → (∀ l, Forall P l → P (VArr l)) →
  ∀ v, P v.
Proof.
  intros HNull HBool HNum HNaN HStr HArr.
  fix IH 1.
  intros [ | b | n | | s | l];
    [exact HNull | apply HBool | apply HNum | exact HNaN | apply HStr |].
  apply HArr. induction l as [|x l IHl]; constructor; [apply IH | exact IHl].
Qed.

Lemma literal_app (word : string) (v : value) (rest : string) :
  JSON.literal word v (word +:+ rest) = JSON.Ok (v, rest).
Proof.
  unfold JSON.literal.
  assert (Hp : String.prefix word (word +:+ rest) = true).
  { induction word as [|c w IH]; simpl; [now destruct rest|].
    destruct (ascii_dec c c); [exact IH | congruence]. }
  rewrite Hp, string_app_length.
  replace (String.length word + String.length rest - String.length word)
    with (String.length rest) by lia.
  f_equal. f_equal. clear.
  induction word as [|c w IH]; simpl; [|exact IH].
  induction rest as [|c r IH]; simpl; [reflexivity | now rewrite IH].
Qed.

Lemma parse_value_string (fuel : nat) (r : string) :
  JSON.parse_value (S fuel) (String dquote r)
  = JSON.and_then (JSON.parse_chars r) (λ '(t, rest), JSON.Ok (VStr t, rest)).
Proof. reflexivity. Qed.

Lemma parse_value_array (fuel : nat) (r : string) :
  JSON.parse_value (S fuel) (String "[" r)
  = match JSON.skip_ws r with
    | String c' r' =>
        if Ascii.eqb c' "]" then JSON.Ok (VArr [], r')
        else
          JSON.and_then (JSON.parse_elements fuel (String c' r'))
            (λ '(l, rest), JSON.Ok (VArr l, rest))
    | EmptyString => JSON.Malformed
    end.
Proof. reflexivity. Qed.

Lemma parse_value_number (fuel : nat) (c : ascii) (r : string) (d : uint → uint) :
  digit_of c = Some d ∨ c = "-"%char →
  JSON.parse_value (S fuel) (String c r) = JSON.parse_number (String c r).
Proof.
  intros H.
  assert (Hc : Ascii.eqb c dquote = false ∧ Ascii.eqb c "[" = false ∧
               Ascii.eqb c "{" = false ∧
               Ascii.eqb c "n" = false ∧ Ascii.eqb c "t" = false ∧
               Ascii.eqb c "f" = false).
  { destruct H as [H | ->]; [|now vm_compute].
    revert H. clear.
    destruct c as [[] [] [] [] [] [] [] []]; vm_compute; intros;
      try discriminate; repeat split. }
  destruct Hc as (H1 & H2 & H3 & H4 & H5 & H6).
  simpl. now rewrite H1, H2, H3, H4, H5, H6.
Qed.

Lemma parse_elements_S (fuel : nat) (s : string) :
  JSON.parse_elements (S fuel) s
  = JSON.and_then (JSON.parse_value fuel s) (λ '(v, rest),
      match JSON.skip_ws rest with
      | String c r =>
          if Ascii.eqb c "]" then JSON.Ok ([v], r)
          else if Ascii.eqb c "," then
            JSON.and_then (JSON.parse_elements fuel (JSON.skip_ws r))
              (λ '(l, rest'), JSON.Ok (v :: l, rest'))
          else JSON.Malformed
      | EmptyString => JSON.Malformed
      end).
Proof. reflexivity. Qed.

(** The first character of a number: a digit or the minus sign. *)
Lemma number_to_string_head (n : Z) :
  ∃ c r, number_to_string n = String c r ∧
         ((∃ d, digit_of c = Some d) ∨ c = "-"%char).
Proof.
  unfold number_to_string. destruct n as [|p|p]; simpl Z.to_int.
  - exists "0"%char, EmptyString. split; [reflexivity | left; now exists D0].
  - pose proof (DecimalPos.Unsigned.to_uint_nonnil p) as Hp.
    destruct (string_of_uint_head _ Hp) as (c & s & d & Hs & Hd).
    exists c, s. simpl. rewrite (string_of_uint_nonnil _ Hp). eauto.
  - eexists _, _. split; [reflexivity | now right].
Qed.

(** A serialized value begins with a character that is neither white space
    nor a closing bracket. *)
Lemma stringify_head (v : value) :
  ∃ c r, JSON.stringify v = String c r ∧
         JSON.is_ws c = false ∧ Ascii.eqb c "]" = false.
Proof.
  destruct v as [ | [] | n | | s | l]; simpl;
    try (eexists _, _; split; [reflexivity | now vm_compute]).
  destruct (number_to_string_head n) as (c & r & -> & Hc).
  exists c, r. split; [reflexivity|].
  destruct Hc as [[d Hd] | ->]; [|now vm_compute].
  revert Hd. clear.
  destruct c as [[] [] [] [] [] [] [] []]; vm_compute; intros; try discriminate; auto.
Qed.

Lemma skip_ws_stringify (v : value) (rest : string) :
  JSON.skip_ws (JSON.stringify v +:+ rest) = JSON.stringify v +:+ rest.
Proof.
  destruct (stringify_head v) as (c & r & -> & Hws & _).
  simpl. now rewrite Hws.
Qed.

Lemma stringify_array_cons (x : value) (l : list value) (rest : string) :
  JSON.stringify (VArr (x :: l)) +:+ rest
  = String "[" (String.concat "," (map JSON.stringify (x :: l)) +:+ String "]" rest).
Proof.
  change (JSON.stringify (VArr (x :: l)))
    with ("[" +:+ String.concat "," (map JSON.stringify (x :: l)) +:+ "]").
  now rewrite !string_app_assoc.
Qed.

(** The elements of a non-empty array, up to its closing bracket. *)
Lemma parse_elements_stringify (l : list value) :
  Forall (λ v, ∀ fuel rest, cost v ≤ fuel → number_end rest →
               JSON.parse_value fuel (JSON.stringify v +:+ rest)
               = JSON.Ok (JSON.revived v, rest)) l →
  l ≠ [] →
  ∀ fuel rest, cost_list l ≤ fuel →
    JSON.parse_elements fuel
      (String.concat "," (map JSON.stringify l) +:+ String "]" rest)
    = JSON.Ok (map JSON.revived l, rest).
Proof.
  induction 1 as [|x l Hx Hl IH]; [congruence|].
  intros _ fuel rest Hfuel.
  destruct fuel as [|fuel]; [simpl in Hfuel; lia|].
  simpl in Hfuel. fold (cost_list l) in Hfuel.
  rewrite parse_elements_S.
  destruct l as [|y l].
  - simpl String.concat. rewrite Hx; [reflexivity | lia | now vm_compute].
  - change (String.concat "," (map JSON.stringify (x :: y :: l)))
      with (JSON.stringify x +:+ "," +:+ String.concat "," (map JSON.stringify (y :: l))).
    rewrite !string_app_assoc.
    assert (Hskip : JSON.skip_ws
                      (String.concat "," (map JSON.stringify (y :: l)) +:+ String "]" rest)
                    = String.concat "," (map JSON.stringify (y :: l)) +:+ String "]" rest).
    { destruct l as [|z l]; simpl String.concat.
      - apply skip_ws_stringify.
      - rewrite !string_app_assoc. apply skip_ws_stringify. }
    specialize (IH ltac:(discriminate) fuel rest ltac:(lia)).
    remember (String.concat "," (map JSON.stringify (y :: l)) +:+ String "]" rest) as tail.
    rewrite Hx; [| lia | now vm_compute].
    unfold JSON.and_then at 1. cbv beta iota.
    change ("," +:+ tail) with (String "," tail).
    change (JSON.skip_ws (String "," tail)) with (String "," tail).
    change (Ascii.eqb "," "]") with false. change (Ascii.eqb "," ",") with true.
    cbv beta iota. rewrite Hskip, IH. reflexivity.
Qed.

Lemma parse_value_stringify (v : value) :
  ∀ fuel rest, cost v ≤ fuel → number_end rest →
    JSON.parse_value fuel (JSON.stringify v +:+ rest) = JSON.Ok (JSON.revived v, rest).
Proof.
  induction v as [ | b | n | | s | l IH] using value_nested_ind;
    intros [|fuel] rest Hfuel Hend; try (simpl in Hfuel; lia).
  - apply (literal_app "null" VNull).
  - destruct b; [apply (literal_app "true") | apply (literal_app "false")].
  - simpl JSON.stringify.
    pose proof (parse_number_number_to_string n rest Hend) as Hn.
    destruct (number_to_string_head n) as (c & r & Hs & Hc).
    rewrite Hs in *. simpl String.append in *.
    destruct Hc as [[d Hd] | ->].
    + now rewrite (parse_value_number fuel c _ d) by (now left).
    + now rewrite (parse_value_number fuel "-" _ D0) by (now right).
  - apply (literal_app "null" VNull).
  - simpl JSON.stringify. rewrite quote_app, parse_value_string, parse_chars_escape.
    reflexivity.
  - destruct l as [|x l]; [reflexivity|].
    rewrite stringify_array_cons, parse_value_array.
    assert (Hskip : JSON.skip_ws
                      (String.concat "," (map JSON.stringify (x :: l)) +:+ String "]" rest)
                    = String.concat "," (map JSON.stringify (x :: l)) +:+ String "]" rest).
    { destruct l as [|z l]; simpl String.concat.
      - apply skip_ws_stringify.
      - rewrite !string_app_assoc. apply skip_ws_stringify. }
    rewrite Hskip.
    pose proof (parse_elements_stringify (x :: l) IH ltac:(discriminate) fuel rest) as He.
    assert (Hhead : ∃ c r, String.concat "," (map JSON.stringify (x :: l)) +:+ String "]" rest
                           = String c r ∧ Ascii.eqb c "]" = false).
    { destruct (stringify_head x) as (c & r & Hs & _ & Hc).
      destruct l as [|z l]; simpl String.concat; rewrite Hs; simpl; eauto. }
    destruct Hhead as (c & r & Hs & Hc). rewrite Hs in *. rewrite Hc.
    rewrite He; [reflexivity|]. simpl in Hfuel. unfold cost_list. simpl. lia.
Qed.

Lemma cost_le_length (v : value) : cost v ≤ String.length (JSON.stringify v).
Proof.
  induction v as [ | b | n | | s | l IH] using value_nested_ind;
    try (simpl; lia).
  - destruct b; simpl; lia.
  - simpl. destruct (number_to_string_head n) as (c & r & -> & _). simpl. lia.
  - simpl JSON.stringify. simpl String.length. rewrite string_app_length.
    change (String.length "]") with 1.
    enough (l ≠ [] →
            cost_list l ≤ S (String.length (String.concat "," (map JSON.stringify l)))) as H.
    { destruct l as [|x l]; [simpl; lia|].
      specialize (H ltac:(discriminate)).
      change (cost (VArr (x :: l))) with (S (cost_list (x :: l))). lia. }
    induction IH as [|x l Hx Hl IHl]; [congruence|]. intros _.
    destruct l as [|y l].
    + simpl. lia.
    + specialize (IHl ltac:(discriminate)).
      change (String.concat "," (map JSON.stringify (x :: y :: l)))
        with (JSON.stringify x +:+ "," +:+ String.concat "," (map JSON.stringify (y :: l))).
      rewrite !string_app_length. change (String.length ",") with 1.
      change (cost_list (x :: y :: l)) with (S (Nat.max (cost x) (cost_list (y :: l)))).
      lia.
Qed.

(** [JSON.parse(JSON.stringify(v))] is [v], with [null] where [v] has [NaN]. *)
Lemma parse_stringify (v : value) :
  JSON.parse (JSON.stringify v) = JSON.Ok (JSON.revived v).
Proof.
  unfold JSON.parse.
  rewrite <- (string_app_nil_r (JSON.stringify v)) at 2.
  rewrite skip_ws_stringify, parse_value_stringify;
    [reflexivity | | exact I].
  pose proof (cost_le_length v). lia.
Qed.

Example parse_samples :
  map JSON.parse ["[1, 2]"; " null "; "[oops"; "01"; "1.5"; "{}"; "[true,false]"]
  = [JSON.Ok (VArr [VNum 1; VNum 2]); JSON.Ok VNull; JSON.Malformed; JSON.Malformed;
     JSON.Unsupported; JSON.Unsupported; JSON.Ok (VArr [VBool true; VBool false])].
Proof. vm_compute. reflexivity. Qed.

Example stringify_samples :
  map JSON.stringify [VArr [VStr "index"; VNum (-12); VNaN; VArr []]; VStr LF; VNull]
  = ["[" +:+ String dquote "index" +:+ String dquote ",-12,null,[]]";
     String dquote (String backslash "n") +:+ String dquote "";
     "null"].
Proof. reflexivity. Qed.

(* ================================================================== *)
(** * The storage accessors *)
(* ================================================================== *)

Lemma prefixed_inj (k1 k2 : string) :
  STORAGE_PREFIX +:+ k1 = STORAGE_PREFIX +:+ k2 → k1 = k2.
Proof. apply String.app_inj. Qed.

Lemma only_logs_refl (w : World) : only_logs w w.
Proof. repeat split. Qed.

Lemma only_logs_trans (w1 w2 w3 : World) :
  only_logs w1 w2 → only_logs w2 w3 → only_logs w1 w3.
Proof.
  intros (A1 & A2 & A3 & A4 & A5) (B1 & B2 & B3 & B4 & B5).
  repeat split; congruence.
Qed.

Lemma same_page_refl (w : World) : same_page w w.
Proof. repeat split. Qed.

Lemma same_page_trans (w1 w2 w3 : World) :
  same_page w1 w2 → same_page w2 w3 → same_page w1 w3.
Proof.
  intros (A2 & A3 & A4 & A5) (B2 & B3 & B4 & B5).
  repeat split; congruence.
Qed.

Lemma only_logs_same_page (w w' : World) : only_logs w w' → same_page w w'.
Proof. intros (_ & H). exact H. Qed.

(** [loadFromStorage] ends as [read] says and changes nothing but the
    console. *)
Lemma loadFromStorage_run (key : string) (d : value) (w : World) :
  ∃ w', loadFromStorage key d w = (read (localStorage w) key d, w') ∧
        only_logs w w'.
Proof.
  unfold loadFromStorage, try_catch, bind, getItem, read, JSON_parse.
  destruct (enabled (localStorage w)) eqn:En.
  - destruct (items (localStorage w) !! (STORAGE_PREFIX +:+ key)) as [text|] eqn:Ek.
    + destruct (JSON.parse text) as [x| |] eqn:Ep; simpl.
      * eexists; split; [reflexivity | apply only_logs_refl].
      * eexists; split; [reflexivity | repeat split].
      * eexists; split; [reflexivity | apply only_logs_refl].
    + eexists; split; [reflexivity | apply only_logs_refl].
  - eexists; split; [reflexivity | repeat split].
Qed.

Lemma read_never_throws (st : Storage) (key : string) (d : value) (e : exn) :
  read st key d ≠ Throw e.
Proof.
  unfold read. destruct (enabled st); [|discriminate].
  destruct (items st !! (STORAGE_PREFIX +:+ key)) as [text|]; [|discriminate].
  destruct (JSON.parse text); discriminate.
Qed.

(** [saveToStorage] returns whether the storage took the item, leaves the
    storage as [put] says and changes nothing else but the console. *)
Lemma saveToStorage_run (key : string) (v : value) (w : World) :
  ∃ w', saveToStorage key v w
        = (Ret (accepts (localStorage w) (STORAGE_PREFIX +:+ key) (JSON.stringify v)), w') ∧
        localStorage w' = put (localStorage w) key v ∧ same_page w w'.
Proof.
  unfold saveToStorage, try_catch, bind, setItem, put, accepts.
  destruct (enabled (localStorage w)) eqn:En; simpl.
  - destruct (storage_size _ <=? quota (localStorage w)) eqn:Eq; simpl.
    + eexists; split; [reflexivity | repeat split].
    + eexists; split; [reflexivity | repeat split].
  - eexists; split; [reflexivity | repeat split].
Qed.

Lemma removeFromStorage_run (key : string) (w : World) :
  ∃ w', removeFromStorage key w = (Ret (enabled (localStorage w)), w') ∧ same_page w w'.
Proof.
  unfold removeFromStorage, try_catch, bind, removeItem.
  destruct (enabled (localStorage w)) eqn:En; simpl;
    (eexists; split; [reflexivity | repeat split]).
Qed.

Lemma read_put_same (st : Storage) (key : string) (v d : value) :
  accepts st (STORAGE_PREFIX +:+ key) (JSON.stringify v) = true →
  read (put st key v) key d = Ret (JSON.revived v).
Proof.
  intros Hacc. unfold put. rewrite Hacc. unfold read. simpl.
  apply andb_prop in Hacc as [-> _].
  now rewrite lookup_insert_eq, parse_stringify.
Qed.

Lemma read_put_other (st : Storage) (key key' : string) (v d : value) :
  key ≠ key' → read (put st key v) key' d = read st key' d.
Proof.
  intros Hne. unfold put. destruct (accepts _ _ _); [|reflexivity].
  unfold read. simpl. rewrite lookup_insert_ne; [reflexivity|].
  intros H. apply Hne. now apply prefixed_inj.
Qed.

(** C7.  None of the three accessors raises, whatever the storage does.
    [saveToStorage] returns [true] when [setItem] returned and [false] when
    it threw, and so does [removeFromStorage] with [removeItem].
    [loadFromStorage] returns its default when [getItem] throws, when the
    key is absent and when the stored text is malformed, and the parsed
    value when the text parses. *)
Theorem storage_accessors_never_raise (key : string) (v d : value) (w : World) :
  let k := STORAGE_PREFIX +:+ key in
  (∃ b w', saveToStorage key v w = (Ret b, w') ∧
           ((∃ w1, setItem k (JSON.stringify v) w = (Ret tt, w1)) → b = true) ∧
           ((∃ e w1, setItem k (JSON.stringify v) w = (Throw e, w1)) → b = false)) ∧
  (∃ b w', removeFromStorage key w = (Ret b, w') ∧
           ((∃ w1, removeItem k w = (Ret tt, w1)) → b = true) ∧
           ((∃ e w1, removeItem k w = (Throw e, w1)) → b = false)) ∧
  (∀ e, fst (loadFromStorage key d w) ≠ Throw e) ∧
  ((∃ e w1, getItem k w = (Throw e, w1)) →
   fst (loadFromStorage key d w) = Ret d) ∧
  ((∃ w1, getItem k w = (Ret None, w1)) →
   fst (loadFromStorage key d w) = Ret d) ∧
  (∀ text, (∃ w1, getItem k w = (Ret (Some text), w1)) →
           JSON.parse text = JSON.Malformed →
           fst (loadFromStorage key d w) = Ret d) ∧
  (∀ text x, (∃ w1, getItem k w = (Ret (Some text), w1)) →
             JSON.parse text = JSON.Ok x →
             fst (loadFromStorage key d w) = Ret x).
Proof.
  intros k. split; [|split].
  - destruct (saveToStorage_run key v w) as (w' & E & _).
    eexists _, w'. split; [exact E|]. fold k. unfold accepts, setItem.
    destruct (enabled (localStorage w)); simpl;
      [destruct (storage_size _ <=? quota (localStorage w))|]; simpl;
      split; intros H; try reflexivity; destruct H as (? & H); try discriminate;
      destruct H as (? & H); discriminate.
  - destruct (removeFromStorage_run key w) as (w' & E & _).
    eexists _, w'. split; [exact E|]. unfold removeItem.
    destruct (enabled (localStorage w)); simpl;
      split; intros H; try reflexivity; destruct H as (? & H); try discriminate;
      destruct H as (? & H); discriminate.
  - destruct (loadFromStorage_run key d w) as (w' & E & _).
    rewrite E. cbn [fst].
    split; [intros e; apply read_never_throws|].
    unfold read, getItem. fold k.
    destruct (enabled (localStorage w)); simpl.
    + destruct (items (localStorage w) !! k) as [text|]; simpl.
      * split; [|split; [|split]].
        -- intros (? & ? & H). discriminate.
        -- intros (? & H). discriminate.
        -- intros t (? & [= <-]) ->. reflexivity.
        -- intros t x (? & [= <-]) ->. reflexivity.
      * split; [|split; [|split]]; try reflexivity.
        intros t x (? & H). discriminate.
    + split; [|split; [|split]]; try reflexivity.
      intros t x (? & H). discriminate.
Qed.

Lemma storage_accessors_never_raise_witness :
  (∃ w', saveToStorage "initial_reason" (VStr "because") (world_of storage_empty)
         = (Ret true, w')) ∧
  (∃ w', saveToStorage "initial_reason" (VStr "because") (world_of storage_full)
         = (Ret false, w')) ∧
  (∃ w', removeFromStorage "initial_reason" (world_of storage_disabled)
         = (Ret false, w')) ∧
  fst (loadFromStorage "initial_reason" (VStr "") (world_of storage_disabled))
  = Ret (VStr "") ∧
  fst (loadFromStorage "initial_reason" (VStr "") (world_of storage_garbled))
  = Ret (VStr "").
Proof.
  refine (conj _ (conj _ (conj _ (conj _ _)))).
  - destruct (storage_accessors_never_raise "initial_reason" (VStr "because") VNull
                (world_of storage_empty)) as ((b & w' & E & Hok & _) & _).
    exists w'. rewrite Hok in E; [exact E|]. eexists. vm_compute. reflexivity.
  - destruct (storage_accessors_never_raise "initial_reason" (VStr "because") VNull
                (world_of storage_full)) as ((b & w' & E & _ & Hfail) & _).
    exists w'. rewrite Hfail in E; [exact E|]. eexists _, _. vm_compute. reflexivity.
  - destruct (storage_accessors_never_raise "initial_reason" VNull VNull
                (world_of storage_disabled)) as (_ & (b & w' & E & _ & Hfail) & _).
    exists w'. rewrite Hfail in E; [exact E|]. eexists _, _. vm_compute. reflexivity.
  - destruct (storage_accessors_never_raise "initial_reason" VNull (VStr "")
                (world_of storage_disabled)) as (_ & _ & _ & Hthrow & _).
    apply Hthrow. eexists _, _. vm_compute. reflexivity.
  - destruct (storage_accessors_never_raise "initial_reason" VNull (VStr "")
                (world_of storage_garbled)) as (_ & _ & _ & _ & _ & Hbad & _).
    apply (Hbad "[oops"); [|now vm_compute].
    eexists. vm_compute. reflexivity.
Defined.

(** ** Running a load or a save inside a longer script *)

Lemma bind_load {B} (key : string) (d : value) (f : value → M B) (w : World) :
  ∃ w', bind (loadFromStorage key d) f w
        = match read (localStorage w) key d with
          | Ret v => f v w'
          | Throw e => (Throw e, w')
          | OutsideModel => (OutsideModel, w')
          end ∧
        only_logs w w'.
Proof.
  destruct (loadFromStorage_run key d w) as (w' & E & L).
  exists w'. unfold bind. now rewrite E.
Qed.

Lemma bind_save {B} (key : string) (v : value) (f : bool → M B) (w : World) :
  ∃ w', bind (saveToStorage key v) f w
        = f (accepts (localStorage w) (STORAGE_PREFIX +:+ key) (JSON.stringify v)) w' ∧
        localStorage w' = put (localStorage w) key v ∧ same_page w w'.
Proof.
  destruct (saveToStorage_run key v w) as (w' & E & L).
  exists w'. unfold bind. now rewrite E.
Qed.

(** One [loadFromStorage] of a script that has only logged so far. *)
Ltac load_step :=
  match goal with
  | Hlog : only_logs ?w0 ?w |- context [bind (loadFromStorage ?k ?d) ?f ?w] =>
      let w' := fresh "w" in
      let E := fresh "E" in
      let L := fresh "L" in
      destruct (bind_load k d f w) as (w' & E & L);
      rewrite E; clear E; try rewrite (proj1 Hlog);
      apply (only_logs_trans _ _ _ Hlog) in L; clear Hlog;
      rename L into Hlog
  end.

Lemma read_absent (st : Storage) (key : string) (d : value) :
  items st !! (STORAGE_PREFIX +:+ key) = None → read st key d = Ret d.
Proof. intros H. unfold read. rewrite H. now destruct (enabled st). Qed.

Lemma loaded_is_read (key : string) (d : value) (w : World) :
  fst (loadFromStorage key d w) = read (localStorage w) key d.
Proof.
  destruct (loadFromStorage_run key d w) as (w' & E & _). now rewrite E.
Qed.

(* ================================================================== *)
(** * The response record *)
(* ================================================================== *)

(** C10.  When the storage holds no item under the application prefix,
    [getAllResponses] returns the defaults: slider 50, no final slider, no
    completed page, and the empty string for every text. *)
Theorem getAllResponses_defaults (w : World) :
  (∀ key, items (localStorage w) !! (STORAGE_PREFIX +:+ key) = None) →
  fst (getAllResponses w)
  = Ret {| initialSlider := VNum 50;
           initialReason := VStr "";
           biologyReflection := VStr "";
           infantsReflection := VStr "";
           traumaReflection := VStr "";
           familyReflection := VStr "";
           starvationReflection := VStr "";
           philosophyReflection := VStr "";
           synthesisStatement := VStr "";
           finalSlider := VNull;
           completedPages := VArr [] |}.
Proof.
  intros Habsent. unfold getAllResponses.
  pose proof (only_logs_refl w) as Hlog.
  do 11 (load_step; rewrite (read_absent _ _ _ (Habsent _))).
  reflexivity.
Qed.

Lemma getAllResponses_defaults_witness :
  fst (getAllResponses (world_of storage_empty))
  = Ret (mkResponses (VNum 50) (VStr "") (VStr "") (VStr "") (VStr "") (VStr "")
           (VStr "") (VStr "") (VStr "") VNull (VArr [])).
Proof.
  apply (getAllResponses_defaults (world_of storage_empty)).
  intros key. apply lookup_empty.
Defined.

(* ================================================================== *)
(** * Progress *)
(* ================================================================== *)

Lemma existsb_same_as_string (p : string) (L : list string) :
  existsb (same_as_string p) (VStr <$> L) = bool_decide (p ∈ L).
Proof.
  induction L as [|x L IH]; [reflexivity|].
  rewrite fmap_cons. cbn [existsb same_as_string].
  - rewrite IH. destruct (String.eqb_spec x p) as [->|Hne]; simpl.
    + symmetry. apply bool_decide_eq_true. rewrite elem_of_cons. auto.
    + apply bool_decide_ext. rewrite elem_of_cons.
      split; [auto | intros [->|?]; [congruence | assumption]].
Qed.

Lemma filter_included_list (L names : list string) (w : World) :
  filter_included (VArr (VStr <$> L)) names w
  = (Ret (filter (λ p, p ∈ L) names), w).
Proof.
  induction names as [|p names IH]; [reflexivity|].
  simpl filter_included. unfold bind at 1. simpl includes. unfold ret at 1.
  unfold bind at 1. rewrite IH. unfold ret.
  rewrite existsb_same_as_string, filter_cons.
  destruct (decide (p ∈ L)) as [Hin|Hout].
  - now rewrite (bool_decide_eq_true_2 _ Hin).
  - now rewrite (bool_decide_eq_false_2 _ Hout).
Qed.

Lemma allPages_NoDup : NoDup allPages.
Proof. refine (bool_decide_unpack (NoDup allPages) _). vm_compute. exact I. Qed.

Lemma filter_length_as_set (L pages : list string) :
  NoDup pages →
  length (filter (λ p, p ∈ L) pages)
  = size (list_to_set L ∩ list_to_set pages : gset string).
Proof.
  intros Hnd.
  rewrite <- (size_list_to_set (C:=gset string) (filter (λ p, p ∈ L) pages))
    by now apply NoDup_filter.
  f_equal. apply set_eq. intros p.
  rewrite elem_of_list_to_set, list_elem_of_filter, elem_of_intersection,
    !elem_of_list_to_set. tauto.
Qed.

Lemma Math_round_eighths (c : nat) :
  c ≤ 8 →
  Math_round ((inject_Z (Z.of_nat c) / inject_Z (Z.of_nat (length allPages)))
              * inject_Z 100)%Q
  = round_half_up (100 * Z.of_nat c) 8.
Proof.
  intros H.
  do 9 (destruct c as [|c]; [now vm_compute|]). lia.
Qed.

Example round_half_up_eighths :
  map (λ c, round_half_up (100 * c) 8) [0; 1; 2; 3; 4; 5; 6; 7; 8]%Z
  = [0; 13; 25; 38; 50; 63; 75; 88; 100]%Z.
Proof. reflexivity. Qed.

Lemma completed_count_le (L : list string) : completed_count L ≤ 8.
Proof.
  unfold completed_count.
  rewrite <- (filter_length_as_set L allPages allPages_NoDup).
  etransitivity; [apply length_filter | reflexivity].
Qed.

(** The percentage, from the list the storage holds. *)
Lemma getProgressPercentage_value (w : World) (L : list string) :
  fst (loadFromStorage "completed_pages" (VArr []) w) = Ret (VArr (VStr <$> L)) →
  fst (getProgressPercentage w)
  = Ret (round_half_up (100 * Z.of_nat (completed_count L)) 8).
Proof.
  intros Hload. rewrite loaded_is_read in Hload.
  unfold getProgressPercentage.
  pose proof (only_logs_refl w) as Hlog. load_step. rewrite Hload.
  unfold bind at 1. rewrite filter_included_list. unfold ret. cbn [fst].
  rewrite (filter_length_as_set L allPages allPages_NoDup).
  fold (completed_count L).
  now rewrite (Math_round_eighths _ (completed_count_le L)).
Qed.

(** C2.  For a stored completed-pages list [L], the percentage is
    [round(100 * c / 8)] where [c] counts the eight page names that occur in
    [L].  It is 0 when none occurs and 100 when all eight occur, and two
    lists that hold the same names among the eight give the same percentage:
    other names and repetitions do not count. *)
Theorem getProgressPercentage_spec (w : World) (L : list string) :
  fst (loadFromStorage "completed_pages" (VArr []) w) = Ret (VArr (VStr <$> L)) →
  fst (getProgressPercentage w)
  = Ret (round_half_up (100 * Z.of_nat (completed_count L)) 8) ∧
  ((∀ p, p ∈ allPages → p ∉ L) → fst (getProgressPercentage w) = Ret 0%Z) ∧
  ((∀ p, p ∈ allPages → p ∈ L) → fst (getProgressPercentage w) = Ret 100%Z) ∧
  (∀ w2 L2,
     fst (loadFromStorage "completed_pages" (VArr []) w2) = Ret (VArr (VStr <$> L2)) →
     (∀ p, p ∈ allPages → (p ∈ L ↔ p ∈ L2)) →
     fst (getProgressPercentage w2) = fst (getProgressPercentage w)).
Proof.
  intros Hload.
  pose proof (getProgressPercentage_value w L Hload) as Hvalue.
  split; [exact Hvalue|]. split; [|split].
  - intros Hnone. rewrite Hvalue.
    assert (completed_count L = 0) as ->; [|reflexivity].
    unfold completed_count. apply size_empty_iff. apply elem_of_equiv_empty.
    intros p. rewrite elem_of_intersection, !elem_of_list_to_set.
    intros [HL Hp]. exact (Hnone p Hp HL).
  - intros Hall. rewrite Hvalue.
    assert (completed_count L = 8) as ->; [|reflexivity].
    unfold completed_count.
    replace (list_to_set L ∩ list_to_set allPages : gset string)
      with (list_to_set allPages : gset string).
    + rewrite size_list_to_set by apply allPages_NoDup. reflexivity.
    + apply set_eq. intros p.
      rewrite elem_of_intersection, !elem_of_list_to_set.
      split; [intros Hp; split; [apply Hall|]; exact Hp | intros [_ Hp]; exact Hp].
  - intros w2 L2 Hload2 Hsame.
    rewrite Hvalue, (getProgressPercentage_value w2 L2 Hload2).
    assert (completed_count L2 = completed_count L) as ->; [|reflexivity].
    unfold completed_count.
    assert ((list_to_set L2 ∩ list_to_set allPages : gset string)
            = list_to_set L ∩ list_to_set allPages) as ->; [|reflexivity].
    apply set_eq. intros p.
    rewrite !elem_of_intersection, !elem_of_list_to_set.
    split; intros [HL Hp]; (split; [apply (Hsame p Hp); exact HL | exact Hp]).
Qed.

Lemma getProgressPercentage_spec_witness :
  let w := world_of (storage_with_pages
             (JSON.stringify (VArr (VStr <$> ["index"; "biology"; "index"; "intro"])))) in
  fst (getProgressPercentage w) = Ret 25%Z.
Proof.
  intros w.
  refine (eq_trans
            (proj1 (getProgressPercentage_spec w ["index"; "biology"; "index"; "intro"] _)) _).
  - vm_compute. reflexivity.
  - vm_compute. reflexivity.
Defined.

(* ================================================================== *)
(** * Completed pages *)
(* ================================================================== *)

Lemma revived_strings (L : list string) :
  JSON.revived (VArr (VStr <$> L)) = VArr (VStr <$> L).
Proof.
  simpl. f_equal. induction L as [|x L IH]; [reflexivity|].
  rewrite fmap_cons. simpl. now rewrite IH.
Qed.

Lemma occurrences_pos (n : string) (L : list string) :
  n ∈ L ↔ 0 < occurrences n L.
Proof.
  unfold occurrences. induction L as [|x L IH].
  - split; [intros H; inversion H | simpl; lia].
  - rewrite filter_cons, elem_of_cons.
    destruct (decide (x = n)) as [->|Hne]; simpl.
    + split; [lia | auto].
    + rewrite IH. split; [intros [E|H]; [congruence | exact H] | auto].
Qed.

Lemma occurrences_app (n : string) (L1 L2 : list string) :
  occurrences n (L1 ++ L2) = occurrences n L1 + occurrences n L2.
Proof. unfold occurrences. now rewrite filter_app, length_app. Qed.

Lemma occurrences_absent (n : string) (L : list string) :
  n ∉ L → occurrences n L = 0.
Proof. rewrite occurrences_pos. lia. Qed.

(** One call: the page is appended when the list lacks it, and the storage
    is written only then. *)
Lemma markPageCompleted_run (pageName : string) (l : list value) (w : World) :
  read (localStorage w) "completed_pages" (VArr []) = Ret (VArr l) →
  ∃ w', markPageCompleted pageName w = (Ret tt, w') ∧
        localStorage w'
        = (if existsb (same_as_string pageName) l then localStorage w
           else put (localStorage w) "completed_pages" (VArr (l ++ [VStr pageName]))) ∧
        same_page w w'.
Proof.
  intros Hread. unfold markPageCompleted.
  pose proof (only_logs_refl w) as Hlog. load_step. rewrite Hread.
  unfold bind at 1. simpl includes. unfold ret at 1.
  destruct (existsb (same_as_string pageName) l); cbn [negb]; cbv beta iota.
  - exists w0. split; [reflexivity|]. split; [apply Hlog | now apply only_logs_same_page].
  - cbv [bind push ret].
    destruct (saveToStorage_run "completed_pages" (VArr (l ++ [VStr pageName])) w0)
      as (w1 & E & Hst & Hpage).
    rewrite E. exists w1. split; [reflexivity|]. split.
    + now rewrite Hst, (proj1 Hlog).
    + eapply same_page_trans; [apply only_logs_same_page, Hlog | exact Hpage].
Qed.

Lemma stored_pages_read (w : World) :
  stored_pages w = read (localStorage w) "completed_pages" (VArr []).
Proof. apply loaded_is_read. Qed.

Lemma put_refused (st : Storage) (key : string) (v : value) :
  accepts st (STORAGE_PREFIX +:+ key) (JSON.stringify v) = false → put st key v = st.
Proof. intros H. unfold put. now rewrite H. Qed.

(** One call, on a stored list of names. *)
Lemma markPageCompleted_step (w : World) (n : string) (L : list string) :
  stored_pages w = Ret (VArr (VStr <$> L)) →
  ∃ w1, markPageCompleted n w = (Ret tt, w1) ∧
        localStorage w1
        = (if bool_decide (n ∈ L) then localStorage w
           else put (localStorage w) "completed_pages" (VArr (VStr <$> (L ++ [n])))).
Proof.
  intros Hstored. rewrite stored_pages_read in Hstored.
  destruct (markPageCompleted_run n _ w Hstored) as (w1 & E1 & Hst1 & _).
  rewrite existsb_same_as_string in Hst1.
  exists w1. split; [exact E1|]. rewrite Hst1. now rewrite fmap_app.
Qed.

Lemma stored_pages_put (st : Storage) (w : World) (L : list string) :
  localStorage w = put st "completed_pages" (VArr (VStr <$> L)) →
  accepts st (STORAGE_PREFIX +:+ "completed_pages") (JSON.stringify (VArr (VStr <$> L))) = true →
  stored_pages w = Ret (VArr (VStr <$> L)).
Proof.
  intros Hst Hacc. rewrite stored_pages_read, Hst, read_put_same by exact Hacc.
  now rewrite revived_strings.
Qed.

Lemma stored_pages_same_storage (w w' : World) :
  localStorage w' = localStorage w → stored_pages w' = stored_pages w.
Proof. intros H. now rewrite !stored_pages_read, H. Qed.

(** C3, as the code has it.  From a stored list [L] in which [n] occurs at
    most once, two successive calls of [markPageCompleted(n)] both return.
    The list they leave is [L] when it held [n], [L] with [n] appended when
    it did not and the storage took the write, and [L] when the storage
    refused the write (disabled, or over quota).  The second call leaves the
    storage as the first left it.  When [n] was there or the write was
    taken, [n] occurs exactly once in the list; the list only grows by a
    name it lacked, appended at its end. *)
Theorem markPageCompleted_idempotent (w : World) (n : string) (L : list string) :
  stored_pages w = Ret (VArr (VStr <$> L)) →
  occurrences n L ≤ 1 →
  let taken :=
    accepts (localStorage w) (STORAGE_PREFIX +:+ "completed_pages")
      (JSON.stringify (VArr (VStr <$> (L ++ [n])))) in
  let L1 := if bool_decide (n ∈ L) then L else if taken then L ++ [n] else L in
  ∃ w1 w2,
    markPageCompleted n w = (Ret tt, w1) ∧
    markPageCompleted n w1 = (Ret tt, w2) ∧
    stored_pages w1 = Ret (VArr (VStr <$> L1)) ∧
    stored_pages w2 = Ret (VArr (VStr <$> L1)) ∧
    localStorage w2 = localStorage w1 ∧
    (n ∈ L ∨ taken = true → occurrences n L1 = 1) ∧
    (L1 = L ∨ ((n ∉ L) ∧ L1 = L ++ [n])).
Proof.
  intros Hstored Hocc taken L1.
  assert (Htaken : taken = accepts (localStorage w) (STORAGE_PREFIX +:+ "completed_pages")
                             (JSON.stringify (VArr (VStr <$> (L ++ [n])))))
    by reflexivity.
  assert (HL1 : L1 = if bool_decide (n ∈ L) then L else if taken then L ++ [n] else L)
    by reflexivity.
  clearbody taken L1.
  destruct (markPageCompleted_step w n L Hstored) as (w1 & E1 & Hst1).
  destruct (decide (n ∈ L)) as [Hin|Hin].
  - (* the page is already there *)
    rewrite (bool_decide_eq_true_2 _ Hin) in HL1, Hst1. subst L1.
    pose proof (stored_pages_same_storage w w1 Hst1) as Hs1. rewrite Hstored in Hs1.
    destruct (markPageCompleted_step w1 n L Hs1) as (w2 & E2 & Hst2).
    rewrite (bool_decide_eq_true_2 _ Hin) in Hst2.
    exists w1, w2. repeat (split; [first [assumption | now rewrite (stored_pages_same_storage _ _ Hst2)]|]).
    split; [|now left].
    intros _. apply occurrences_pos in Hin. lia.
  - rewrite (bool_decide_eq_false_2 _ Hin) in HL1, Hst1.
    destruct taken.
    + (* the page is new and the storage takes the write *)
      subst L1. symmetry in Htaken.
      pose proof (stored_pages_put _ w1 (L ++ [n]) Hst1 Htaken) as Hs1.
      destruct (markPageCompleted_step w1 n (L ++ [n]) Hs1) as (w2 & E2 & Hst2).
      assert (Hin1 : n ∈ L ++ [n]) by (rewrite elem_of_app, elem_of_cons; auto).
      rewrite (bool_decide_eq_true_2 _ Hin1) in Hst2.
      exists w1, w2. repeat (split; [first [assumption | now rewrite (stored_pages_same_storage _ _ Hst2)]|]).
      split; [|right; auto].
      intros _. rewrite occurrences_app, (occurrences_absent n L Hin). unfold occurrences.
      rewrite filter_cons. destruct (decide (n = n)); [reflexivity | congruence].
    + (* the page is new and the storage refuses the write *)
      subst L1. symmetry in Htaken.
      rewrite (put_refused _ _ _ Htaken) in Hst1.
      pose proof (stored_pages_same_storage w w1 Hst1) as Hs1. rewrite Hstored in Hs1.
      destruct (markPageCompleted_step w1 n L Hs1) as (w2 & E2 & Hst2).
      rewrite (bool_decide_eq_false_2 _ Hin), Hst1, (put_refused _ _ _ Htaken), <- Hst1
        in Hst2.
      exists w1, w2. repeat (split; [first [assumption | now rewrite (stored_pages_same_storage _ _ Hst2)]|]).
      split; [|now left].
      intros [Hcase | Hcase]; [contradiction | discriminate].
Qed.

Lemma markPageCompleted_idempotent_witness :
  let w := world_of (storage_with_pages (JSON.stringify (VArr (VStr <$> ["index"])))) in
  ∃ w1 w2,
    markPageCompleted "biology" w = (Ret tt, w1) ∧
    markPageCompleted "biology" w1 = (Ret tt, w2) ∧
    stored_pages w1 = Ret (VArr (VStr <$> ["index"; "biology"])) ∧
    stored_pages w2 = Ret (VArr (VStr <$> ["index"; "biology"])) ∧
    localStorage w2 = localStorage w1 ∧
    (("biology" : string) ∈ ["index"] ∨ true = true →
     occurrences "biology" ["index"; "biology"] = 1) ∧
    (["index"; "biology"] = ["index"] ∨
     ((("biology" : string) ∉ ["index"]) ∧ ["index"; "biology"] = ["index"] ++ ["biology"])).
Proof.
  intros w.
  apply (markPageCompleted_idempotent w "biology" ["index"]).
  - vm_compute. reflexivity.
  - vm_compute. lia.
Defined.

(** C3 without the condition on the storage.  With a storage filled to its
    quota the write of the longer list is refused: after two calls the
    stored list is the one it was, without the page. *)
Lemma markPageCompleted_refused :
  let w := world_of storage_at_quota in
  let w2 := snd (markPageCompleted "biology" (snd (markPageCompleted "biology" w))) in
  stored_pages w = Ret (VArr (VStr <$> ["index"])) ∧
  occurrences "biology" ["index"] ≤ 1 ∧
  fst (markPageCompleted "biology" w) = Ret tt ∧
  fst (markPageCompleted "biology" (snd (markPageCompleted "biology" w))) = Ret tt ∧
  stored_pages w2 = Ret (VArr (VStr <$> ["index"])) ∧
  ¬ ∃ L', stored_pages w2 = Ret (VArr (VStr <$> L')) ∧ occurrences "biology" L' = 1.
Proof.
  intros w w2.
  assert (Hfinal : stored_pages w2 = Ret (VArr (VStr <$> ["index"]))) by now vm_compute.
  split; [now vm_compute|]. split; [vm_compute; lia|].
  split; [now vm_compute|]. split; [now vm_compute|]. split; [exact Hfinal|].
  intros (L' & Hstored & Hone). rewrite Hfinal in Hstored.
  injection Hstored as Hlist.
  assert (L' = ["index"]) as ->.
  { destruct L' as [|x [|y L']]; try discriminate Hlist.
    now injection Hlist as ->. }
  vm_compute in Hone. discriminate Hone.
Qed.

(* ================================================================== *)
(** * The synthesis form *)
(* ================================================================== *)

Lemma storage_size_insert_le (m : gmap string string) (k v : string) :
  storage_size (<[k:=v]> m) ≤ storage_size m + (String.length k + String.length v).
Proof.
  unfold storage_size.
  assert (Hcomm : ∀ (j1 j2 z1 z2 : string) (y : nat),
             String.length j1 + String.length z1 + (String.length j2 + String.length z2 + y)
             = String.length j2 + String.length z2 + (String.length j1 + String.length z1 + y))
    by (intros; lia).
  destruct (m !! k) as [old|] eqn:Hk.
  - rewrite <- insert_delete_eq.
    rewrite map_fold_insert_L; [| intros; apply Hcomm | apply lookup_delete_eq].
    rewrite (map_fold_delete_L _ _ k old m); [lia | intros; apply Hcomm | exact Hk].
  - rewrite map_fold_insert_L; [lia | intros; apply Hcomm | exact Hk].
Qed.

Lemma has_room_accepts (st : Storage) (key : string) (v : value) (n : nat) :
  has_room st n → item_size key v ≤ n →
  accepts st (STORAGE_PREFIX +:+ key) (JSON.stringify v) = true ∧
  has_room (put st key v) (n - item_size key v).
Proof.
  intros [Hen Hsize] Hitem. unfold item_size in *.
  pose proof (storage_size_insert_le (items st) (STORAGE_PREFIX +:+ key) (JSON.stringify v)).
  assert (Hacc : accepts st (STORAGE_PREFIX +:+ key) (JSON.stringify v) = true).
  { unfold accepts. rewrite Hen. cbn [andb]. apply Nat.leb_le. lia. }
  split; [exact Hacc|]. unfold put. rewrite Hacc.
  split; cbn [enabled items quota]; [exact Hen | lia].
Qed.

Lemma put_lookup_other (st : Storage) (key key' : string) (v : value) :
  key ≠ key' →
  items (put st key v) !! (STORAGE_PREFIX +:+ key') = items st !! (STORAGE_PREFIX +:+ key').
Proof.
  intros Hne. unfold put. destruct (accepts _ _ _); [|reflexivity].
  simpl. apply lookup_insert_ne. intros H. apply Hne. now apply prefixed_inj.
Qed.

Lemma put_lookup_same (st : Storage) (key : string) (v : value) :
  items (put st key v) !! (STORAGE_PREFIX +:+ key)
  = if accepts st (STORAGE_PREFIX +:+ key) (JSON.stringify v)
    then Some (JSON.stringify v)
    else items st !! (STORAGE_PREFIX +:+ key).
Proof.
  unfold put. destruct (accepts _ _ _); [|reflexivity].
  simpl. apply lookup_insert_eq.
Qed.

(** What [showConfirmation] does to the world. *)
Lemma showConfirmation_run (message : string) (type : option string) (w : World) :
  showConfirmation message type w
  = (Ret tt,
     mkWorld (localStorage w) (console w)
       (mkDocument (synthesisTextarea_value (document w)) (finalSlider_value (document w))
          (Some (mkToast (created (document w))
                   (if String.eqb (default "success" type) "success"
                    then CheckMark else InfoMark) message))
          true
          (if toastStyles (document w) then S (created (document w))
           else S (S (created (document w)))))
       (timers w ++ [mkTimer (RemoveToast (created (document w))) 3000])
       (downloads w) (today w)).
Proof. reflexivity. Qed.

Lemma submitHandler_short (w : World) (s : string) :
  synthesisTextarea_value (document w) = Some s →
  String.length (trim s) < 100 →
  submitHandler w = showConfirmation REJECTION_MESSAGE (Some "info") w.
Proof.
  intros Hs Hlen. unfold submitHandler. rewrite Hs.
  now rewrite (proj2 (Nat.ltb_lt _ _) Hlen).
Qed.

Lemma submitHandler_long (w : World) (s : string) :
  synthesisTextarea_value (document w) = Some s →
  100 ≤ String.length (trim s) →
  submitHandler w
  = (saveToStorage "synthesis_statement" (VStr (trim s)) ;;
     saveToStorage "final_slider" (slider_reading w) ;;
     markPageCompleted "synthesis" ;;
     showConfirmation SAVED_MESSAGE None ;;
     setTimeout (Navigate "conclusion.html") 1500) w.
Proof.
  intros Hs Hlen. unfold submitHandler. rewrite Hs.
  now rewrite (proj2 (Nat.ltb_ge _ _) Hlen).
Qed.

Lemma submitHandler_rejects (w : World) (s : string) :
  synthesisTextarea_value (document w) = Some s →
  String.length (trim s) < 100 → rejects w.
Proof.
  intros Hs Hlen. unfold rejects.
  rewrite (submitHandler_short w s Hs Hlen), showConfirmation_run.
  eexists. split; [reflexivity|]. repeat split.
Qed.

(** The run of an accepted submission when the stored completed-pages value
    is an array. *)
Lemma submitHandler_accepted_run (w : World) (s : string) (l : list value) :
  synthesisTextarea_value (document w) = Some s →
  100 ≤ String.length (trim s) →
  read (localStorage w) "completed_pages" (VArr []) = Ret (VArr l) →
  let st1 := put (localStorage w) "synthesis_statement" (VStr (trim s)) in
  let st2 := put st1 "final_slider" (slider_reading w) in
  let st3 := if existsb (same_as_string "synthesis") l then st2
             else put st2 "completed_pages" (VArr (l ++ [VStr "synthesis"])) in
  ∃ w', submitHandler w = (Ret tt, w') ∧
        localStorage w' = st3 ∧
        toast (document w')
        = Some (mkToast (created (document w)) CheckMark SAVED_MESSAGE) ∧
        timers w' = timers w ++ [mkTimer (RemoveToast (created (document w))) 3000;
                                   mkTimer (Navigate "conclusion.html") 1500].
Proof.
  intros Hs Hlen Hpages st1 st2 st3.
  rewrite (submitHandler_long w s Hs Hlen).
  destruct (bind_save "synthesis_statement" (VStr (trim s))
              (λ _, saveToStorage "final_slider" (slider_reading w) ;;
                    markPageCompleted "synthesis" ;;
                    showConfirmation SAVED_MESSAGE None ;;
                    setTimeout (Navigate "conclusion.html") 1500) w)
    as (w1 & -> & Hst1 & Hp1).
  destruct (bind_save "final_slider" (slider_reading w)
              (λ _, markPageCompleted "synthesis" ;;
                    showConfirmation SAVED_MESSAGE None ;;
                    setTimeout (Navigate "conclusion.html") 1500) w1)
    as (w2 & -> & Hst2 & Hp2).
  assert (Hpages2 : read (localStorage w2) "completed_pages" (VArr []) = Ret (VArr l)).
  { rewrite Hst2, Hst1, !read_put_other by discriminate. exact Hpages. }
  destruct (markPageCompleted_run "synthesis" l w2 Hpages2) as (w3 & E3 & Hst3 & Hp3).
  unfold bind at 1. rewrite E3.
  unfold bind, setTimeout. rewrite showConfirmation_run. cbn [timers with_timers localStorage document].
  eexists. split; [reflexivity|]. cbn [localStorage document timers toast].
  pose proof (same_page_trans _ _ _ (same_page_trans _ _ _ Hp1 Hp2) Hp3) as (Hdoc & Htim & _).
  rewrite Hdoc, Htim, Hst3, Hst2, Hst1, <- !app_assoc. repeat split.
Qed.

Lemma rejects_excludes_accepts (w : World) : rejects w → ¬ accepts_submission w.
Proof.
  intros (w1 & E1 & _ & T1 & _) (w2 & E2 & T2 & _).
  rewrite E1 in E2. injection E2 as <-. rewrite T1 in T2. discriminate T2.
Qed.

Lemma existsb_revived_synthesis (l : list value) :
  existsb (same_as_string "synthesis") (map JSON.revived (l ++ [VStr "synthesis"])) = true.
Proof.
  rewrite map_app, existsb_app. simpl. now rewrite orb_true_r.
Qed.

(** What an accepted submission leaves in a storage that has room for it. *)
Lemma submitHandler_persists (w w' : World) (s : string) (l : list value) :
  synthesisTextarea_value (document w) = Some s →
  100 ≤ String.length (trim s) →
  read (localStorage w) "completed_pages" (VArr []) = Ret (VArr l) →
  submitHandler w = (Ret tt, w') →
  has_room (localStorage w)
    (item_size "synthesis_statement" (VStr (trim s))
     + item_size "final_slider" (slider_reading w)
     + item_size "completed_pages" (VArr (l ++ [VStr "synthesis"]))) →
  read (localStorage w') "synthesis_statement" (VStr "") = Ret (VStr (trim s)) ∧
  read (localStorage w') "final_slider" VNull = Ret (JSON.revived (slider_reading w)) ∧
  ∃ l', read (localStorage w') "completed_pages" (VArr []) = Ret (VArr l') ∧
        existsb (same_as_string "synthesis") l' = true.
Proof.
  intros Hs Hlen Hpages Hrun Hroom.
  destruct (submitHandler_accepted_run w s l Hs Hlen Hpages) as (w2 & E & Hst & _).
  rewrite Hrun in E. injection E as <-.
  set (v1 := VStr (trim s)) in *. set (v2 := slider_reading w) in *.
  set (v3 := VArr (l ++ [VStr "synthesis"])) in *.
  destruct (has_room_accepts _ "synthesis_statement" v1 _ Hroom ltac:(lia)) as [A1 R1].
  destruct (has_room_accepts _ "final_slider" v2 _ R1 ltac:(lia)) as [A2 R2].
  destruct (has_room_accepts _ "completed_pages" v3 _ R2 ltac:(lia)) as [A3 _].
  rewrite Hst. clear Hst Hrun.
  destruct (existsb (same_as_string "synthesis") l) eqn:Hthere.
  - split; [|split].
    + rewrite read_put_other by discriminate. now rewrite read_put_same.
    + now rewrite read_put_same.
    + exists l. split; [|exact Hthere].
      rewrite !read_put_other by discriminate. exact Hpages.
  - split; [|split].
    + rewrite !read_put_other by discriminate. now rewrite read_put_same.
    + rewrite read_put_other by discriminate. now rewrite read_put_same.
    + eexists. split; [now rewrite read_put_same|].
      subst v3. simpl JSON.revived. apply existsb_revived_synthesis.
Qed.

(** C4, as the code has it.  The length that counts is that of the trimmed
    text.  A text of 99 code units, and any text whose trimmed length is
    below 100, is rejected: the message is shown, the storage is as it was
    and no navigation is scheduled.  A text whose trimmed length is at least
    100 is accepted when the stored completed-pages value is an array: the
    confirmation is shown and the move to the next page is scheduled after
    the removal of the toast; and when the storage has room for the three
    items, the trimmed text and the slider value are read back from it and
    the completed pages hold the synthesis page. *)
Theorem submit_validation (w : World) (s : string) :
  synthesisTextarea_value (document w) = Some s →
  (String.length s = 99 → rejects w) ∧
  (String.length (trim s) < 100 → rejects w) ∧
  (100 ≤ String.length (trim s) →
   ∀ l, read (localStorage w) "completed_pages" (VArr []) = Ret (VArr l) →
     ∃ w', submitHandler w = (Ret tt, w') ∧
           toast (document w')
           = Some (mkToast (created (document w)) CheckMark SAVED_MESSAGE) ∧
           timers w' = timers w ++ [mkTimer (RemoveToast (created (document w))) 3000;
                                      mkTimer (Navigate "conclusion.html") 1500] ∧
           (has_room (localStorage w)
              (item_size "synthesis_statement" (VStr (trim s))
               + item_size "final_slider" (slider_reading w)
               + item_size "completed_pages" (VArr (l ++ [VStr "synthesis"]))) →
            read (localStorage w') "synthesis_statement" (VStr "") = Ret (VStr (trim s)) ∧
            read (localStorage w') "final_slider" VNull = Ret (JSON.revived (slider_reading w)) ∧
            ∃ l', read (localStorage w') "completed_pages" (VArr []) = Ret (VArr l') ∧
                  existsb (same_as_string "synthesis") l' = true)).
Proof.
  intros Hs. split; [|split].
  - intros H99. apply (submitHandler_rejects w s Hs).
    pose proof (trim_length s). lia.
  - apply (submitHandler_rejects w s Hs).
  - intros Hlen l Hpages.
    destruct (submitHandler_accepted_run w s l Hs Hlen Hpages) as (w' & E & _ & Ht & Htim).
    exists w'. split; [exact E|]. split; [exact Ht|]. split; [exact Htim|].
    apply (submitHandler_persists w w' s l Hs Hlen Hpages E).
Qed.

Lemma submit_validation_witness :
  rejects (synthesis_world storage_empty (repeat_string "a" 99) "40") ∧
  ∃ w', submitHandler (synthesis_world storage_empty (repeat_string "a" 100) "40")
        = (Ret tt, w') ∧
        read (localStorage w') "synthesis_statement" (VStr "") = Ret (VStr (repeat_string "a" 100)) ∧
        read (localStorage w') "final_slider" VNull = Ret (VNum 40).
Proof.
  split.
  - refine (proj1 (submit_validation
                     (synthesis_world storage_empty (repeat_string "a" 99) "40")
                     (repeat_string "a" 99) eq_refl) _).
    reflexivity.
  - destruct (submit_validation (synthesis_world storage_empty (repeat_string "a" 100) "40")
                (repeat_string "a" 100) eq_refl) as (_ & _ & H).
    destruct (H ltac:(vm_compute; lia) [] eq_refl) as (w' & E & _ & _ & Hroom).
    exists w'. split; [exact E|].
    destruct Hroom as (R1 & R2 & _); [split; [reflexivity | vm_compute; lia]|].
    split; [exact R1 | exact R2].
Defined.

(** C4 as first worded.  A text of exactly 100 code units that ends with a
    space is rejected and not accepted: its trimmed length is 99. *)
Lemma submit_padded_text_rejected :
  let s := repeat_string "a" 99 +:+ " " in
  let w := synthesis_world storage_empty s "40" in
  String.length s = 100 ∧ rejects w ∧ ¬ accepts_submission w ∧
  localStorage (snd (submitHandler w)) = localStorage w.
Proof.
  intros s w.
  assert (Hrej : rejects w).
  { apply (submitHandler_rejects w s eq_refl). vm_compute. lia. }
  split; [reflexivity|]. split; [exact Hrej|].
  split; [now apply rejects_excludes_accepts|].
  destruct Hrej as (w' & -> & Hst & _). exact Hst.
Qed.

Lemma put_enabled (st : Storage) (key : string) (v : value) :
  enabled (put st key v) = enabled st.
Proof. unfold put. now destruct (accepts _ _ _). Qed.

(** Whatever the stored completed-pages value is, [markPageCompleted]
    touches no other item and nothing of the page. *)
Lemma markPageCompleted_frame (pageName : string) (w : World) :
  ∃ o w', markPageCompleted pageName w = (o, w') ∧ same_page w w' ∧
          enabled (localStorage w') = enabled (localStorage w) ∧
          ∀ key, key ≠ "completed_pages" →
                 items (localStorage w') !! (STORAGE_PREFIX +:+ key)
                 = items (localStorage w) !! (STORAGE_PREFIX +:+ key).
Proof.
  unfold markPageCompleted.
  pose proof (only_logs_refl w) as Hlog. load_step.
  pose proof (only_logs_same_page _ _ Hlog) as Hpage.
  pose proof (proj1 Hlog) as Hst.
  assert (Hstay : ∀ o : outcome unit,
             ∃ o' w', (o, w0) = (o', w') ∧ same_page w w' ∧
                      enabled (localStorage w') = enabled (localStorage w) ∧
                      ∀ key, key ≠ "completed_pages" →
                             items (localStorage w') !! (STORAGE_PREFIX +:+ key)
                             = items (localStorage w) !! (STORAGE_PREFIX +:+ key)).
  { intros o. exists o, w0. split; [reflexivity|]. split; [exact Hpage|].
    split; [now rewrite Hst|]. intros key _. now rewrite Hst. }
  destruct (read (localStorage w) "completed_pages" (VArr []))
    as [[ | b | z | | str | l] | e | ]; try apply Hstay.
  - unfold bind at 1. simpl includes. unfold ret at 1.
    destruct (string_includes str pageName); cbn [negb]; cbv beta iota; apply Hstay.
  - unfold bind at 1. simpl includes. unfold ret at 1.
    destruct (existsb (same_as_string pageName) l); cbn [negb]; cbv beta iota;
      [apply Hstay|].
    cbv [bind push ret].
    destruct (saveToStorage_run "completed_pages" (VArr (l ++ [VStr pageName])) w0)
      as (w1 & E & Hst1 & Hpage1).
    rewrite E. exists (Ret tt), w1. split; [reflexivity|].
    split; [exact (same_page_trans _ _ _ Hpage Hpage1)|].
    split; [now rewrite Hst1, put_enabled, Hst|].
    intros key Hkey. rewrite Hst1, put_lookup_other, Hst by congruence. reflexivity.
Qed.

(** An accepted submission, whatever the storage holds: the item of the
    synthesis is the trimmed text when the storage took it, and when the
    listener returns it has shown the confirmation. *)
Lemma submitHandler_long_outcome (w : World) (s : string) :
  synthesisTextarea_value (document w) = Some s →
  100 ≤ String.length (trim s) →
  ∃ o w', submitHandler w = (o, w') ∧
          enabled (localStorage w') = enabled (localStorage w) ∧
          items (localStorage w') !! (STORAGE_PREFIX +:+ "synthesis_statement")
          = items (put (localStorage w) "synthesis_statement" (VStr (trim s)))
              !! (STORAGE_PREFIX +:+ "synthesis_statement") ∧
          (o = Ret tt →
           ∃ node, toast (document w') = Some (mkToast node CheckMark SAVED_MESSAGE)).
Proof.
  intros Hs Hlen. rewrite (submitHandler_long w s Hs Hlen).
  destruct (bind_save "synthesis_statement" (VStr (trim s))
              (λ _, saveToStorage "final_slider" (slider_reading w) ;;
                    markPageCompleted "synthesis" ;;
                    showConfirmation SAVED_MESSAGE None ;;
                    setTimeout (Navigate "conclusion.html") 1500) w)
    as (w1 & -> & Hst1 & _).
  destruct (bind_save "final_slider" (slider_reading w)
              (λ _, markPageCompleted "synthesis" ;;
                    showConfirmation SAVED_MESSAGE None ;;
                    setTimeout (Navigate "conclusion.html") 1500) w1)
    as (w2 & -> & Hst2 & _).
  destruct (markPageCompleted_frame "synthesis" w2) as (o & w3 & E3 & _ & Hen & Hframe).
  specialize (Hframe "synthesis_statement" ltac:(discriminate)).
  rewrite Hst2, put_lookup_other, Hst1 in Hframe by discriminate.
  rewrite Hst2, put_enabled, Hst1, put_enabled in Hen.
  unfold bind at 1. rewrite E3. destruct o as [[] | e | ].
  - unfold bind, setTimeout. rewrite showConfirmation_run.
    eexists _, _. split; [reflexivity|]. cbn [localStorage with_timers document toast].
    split; [exact Hen|]. split; [exact Hframe|]. intros _. eexists. reflexivity.
  - eexists _, _. split; [reflexivity|]. split; [exact Hen|].
    split; [exact Hframe | discriminate].
  - eexists _, _. split; [reflexivity|]. split; [exact Hen|].
    split; [exact Hframe | discriminate].
Qed.

(** C9, as the code has it.  The check is on the trimmed text: the
    submission is rejected exactly when [trim(s)] is shorter than 100.  When
    it is not rejected the item written under [synthesis_statement] is the
    serialized [trim(s)] when the storage takes the write, and the item is
    as it was when the storage refuses it (disabled, or over quota).  So the
    value read back after a write that was taken is [trim(s)]; it differs
    from [s] whenever trimming removes something. *)
Theorem submission_checks_trimmed_text (w : World) (s : string) :
  synthesisTextarea_value (document w) = Some s →
  let k := STORAGE_PREFIX +:+ "synthesis_statement" in
  let text := JSON.stringify (VStr (trim s)) in
  (rejects w ↔ String.length (trim s) < 100) ∧
  (100 ≤ String.length (trim s) →
   let w' := snd (submitHandler w) in
   items (localStorage w') !! k
   = (if accepts (localStorage w) k text then Some text
      else items (localStorage w) !! k) ∧
   (accepts (localStorage w) k text = true →
    read (localStorage w') "synthesis_statement" (VStr "") = Ret (VStr (trim s)) ∧
    (trim s ≠ s → read (localStorage w') "synthesis_statement" (VStr "") ≠ Ret (VStr s)))).
Proof.
  intros Hs k text. split.
  - split; [|apply (submitHandler_rejects w s Hs)].
    intros (w1 & E1 & _ & T1 & _).
    destruct (Nat.lt_ge_cases (String.length (trim s)) 100) as [Hlt|Hge]; [exact Hlt|].
    destruct (submitHandler_long_outcome w s Hs Hge) as (o & w2 & E2 & _ & _ & Htoast).
    rewrite E1 in E2. injection E2 as <- <-.
    destruct (Htoast eq_refl) as (node & T2). rewrite T1 in T2. discriminate T2.
  - intros Hge w'.
    destruct (submitHandler_long_outcome w s Hs Hge) as (o & w2 & E2 & Hen & Hitem & _).
    subst w'. rewrite E2. cbn [snd].
    rewrite put_lookup_same in Hitem. fold k text in Hitem.
    split; [exact Hitem|]. intros Hacc. rewrite Hacc in Hitem.
    assert (Hread : read (localStorage w2) "synthesis_statement" (VStr "") = Ret (VStr (trim s))).
    { unfold read. fold k. rewrite Hitem, Hen. unfold text. rewrite parse_stringify.
      apply andb_prop in Hacc as [-> _]. reflexivity. }
    split; [exact Hread|]. intros Hne. rewrite Hread. congruence.
Qed.

Lemma submission_checks_trimmed_text_witness :
  let s := "  " +:+ repeat_string "b" 100 +:+ " " in
  let w := synthesis_world storage_empty s "40" in
  read (localStorage (snd (submitHandler w))) "synthesis_statement" (VStr "")
  = Ret (VStr (repeat_string "b" 100)).
Proof.
  intros s w.
  destruct (submission_checks_trimmed_text w s eq_refl) as (_ & H).
  destruct (H ltac:(vm_compute; lia)) as (_ & Hread).
  destruct (Hread ltac:(vm_compute; reflexivity)) as (Hr & _).
  exact Hr.
Defined.

(** C9 without the condition on the storage.  With a storage that holds
    an earlier draft and is filled to its quota, a text of 100 letters is
    not rejected: the confirmation is shown and the move to the next page is
    scheduled.  The write of the text is refused, and what is stored under
    [synthesis_statement] afterwards is the earlier draft, not [trim(s)]. *)
Lemma submission_keeps_earlier_draft :
  let s := repeat_string "b" 100 in
  let w := synthesis_world storage_with_draft s "40" in
  let w' := snd (submitHandler w) in
  100 ≤ String.length (trim s) ∧ ¬ rejects w ∧ accepts_submission w ∧
  fst (submitHandler w) = Ret tt ∧
  read (localStorage w') "synthesis_statement" (VStr "")
  = Ret (VStr "An earlier draft.") ∧
  read (localStorage w') "synthesis_statement" (VStr "") ≠ Ret (VStr (trim s)).
Proof.
  intros s w w'.
  assert (Hlen : 100 ≤ String.length (trim s)) by (vm_compute; lia).
  assert (Hacc : accepts_submission w).
  { destruct (submitHandler_accepted_run w s [] eq_refl Hlen)
      as (w1 & E & _ & Htoast & Htimers); [vm_compute; reflexivity|].
    exists w1. split; [exact E|]. split; [exact Htoast | exact Htimers]. }
  assert (Hread : read (localStorage w') "synthesis_statement" (VStr "")
                  = Ret (VStr "An earlier draft."))
    by (vm_compute; reflexivity).
  split; [exact Hlen|].
  split; [intros Hrej; exact (rejects_excludes_accepts w Hrej Hacc)|].
  split; [exact Hacc|]. split; [vm_compute; reflexivity|].
  split; [exact Hread|]. rewrite Hread. intros H. vm_compute in H. discriminate H.
Qed.

(* ================================================================== *)
(** * Export *)
(* ================================================================== *)

(** [getAllResponses] changes nothing but the console, however it ends. *)
Lemma getAllResponses_logs (w : World) :
  ∃ o w', getAllResponses w = (o, w') ∧ only_logs w w'.
Proof.
  unfold getAllResponses.
  pose proof (only_logs_refl w) as Hlog.
  do 11 (load_step;
         match goal with
         | |- context [match ?r with Ret _ => _ | Throw _ => _ | OutsideModel => _ end] =>
             destruct r as [? | ? | ]
         end;
         [ | eexists _, _; split; [reflexivity | exact Hlog] ..]).
  eexists _, _. split; [reflexivity | exact Hlog].
Qed.

Lemma is_filled_string (t : string) (w : World) :
  is_filled (VStr t) w = (Ret (negb (String.eqb (trim t) EmptyString)), w).
Proof.
  unfold is_filled, truthy. destruct t as [|c t]; [reflexivity|].
  reflexivity.
Qed.

(** On string reflections the loop of the export appends [journey_spec]. *)
Lemma append_reflections_strings (r : Responses) (ps : list Pillar) :
  (∀ pillar, pillar ∈ ps → ∃ t, key pillar r = VStr t) →
  ∀ text w, append_reflections r ps text w = (Ret (text +:+ journey_spec r ps), w).
Proof.
  induction ps as [|pillar ps IH]; intros Hstr text w.
  - simpl. unfold ret. now rewrite string_app_nil_r.
  - destruct (Hstr pillar ltac:(apply elem_of_cons; auto)) as (t & Ht).
    simpl append_reflections. simpl journey_spec. rewrite Ht.
    unfold bind. rewrite is_filled_string.
    rewrite IH by (intros q Hq; apply Hstr, elem_of_cons; auto).
    unfold reflection_section. simpl to_string.
    destruct (String.eqb (trim t) EmptyString); cbn [negb]; [reflexivity|].
    do 2 f_equal. unfold LF. rewrite !string_app_assoc. simpl.
    rewrite !string_app_assoc. reflexivity.
Qed.

(** The text of the export, for a typed record. *)
Lemma exportText_typed (w : World) (r : Responses) (i : Z) :
  fst (getAllResponses w) = Ret r →
  typed_responses r →
  initialSlider r = VNum i →
  ∃ f, exported_final_slider r = VNum f ∧
       fst (exportText w)
       = Ret (export_preamble (today w) (formatConscienceSlider i)
                (formatConscienceSlider f) r
              +:+ journey_spec r pillars).
Proof.
  intros Hr (_ & Hfinal & Hstr) Hi.
  assert (Hf : ∃ f, exported_final_slider r = VNum f).
  { unfold exported_final_slider, or_else.
    destruct Hfinal as [-> | (f & ->)]; simpl; [eauto|].
    destruct (f =? 0)%Z; simpl; eauto. }
  destruct Hf as (f & Hf). exists f. split; [exact Hf|].
  unfold exportText.
  destruct (getAllResponses_logs w) as (o & w1 & E & Hlog).
  rewrite E in Hr. cbn [fst] in Hr. subst o.
  unfold bind at 1. rewrite E.
  unfold bind at 1, toLocaleDateString.
  unfold bind at 1. rewrite Hi. cbn [slider_label]. unfold ret at 1.
  unfold bind at 1. fold (exported_final_slider r). rewrite Hf.
  cbn [slider_label]. unfold ret at 1.
  rewrite (append_reflections_strings r pillars Hstr).
  destruct Hlog as (_ & _ & _ & _ & ->). reflexivity.
Qed.

Lemma prefix_app (t after : string) : String.prefix t (t +:+ after) = true.
Proof.
  induction t as [|c t IH]; simpl; [now destruct after|].
  destruct (ascii_dec c c); [exact IH | congruence].
Qed.

Lemma prefix_split (t s : string) :
  String.prefix t s = true → ∃ after, s = t +:+ after.
Proof.
  revert s. induction t as [|c t IH]; intros s H.
  - exists s. reflexivity.
  - destruct s as [|d s]; [discriminate|]. simpl in H.
    destruct (ascii_dec c d) as [->|]; [|discriminate].
    destruct (IH s H) as (after & ->). now exists after.
Qed.

Lemma string_includes_nil (t : string) :
  string_includes EmptyString t = String.prefix t EmptyString || false.
Proof. reflexivity. Qed.

Lemma string_includes_cons (c : ascii) (s t : string) :
  string_includes (String c s) t
  = String.prefix t (String c s) || string_includes s t.
Proof. reflexivity. Qed.

(** [string_includes] decides [occurs_in]. *)
Lemma string_includes_occurs (s t : string) :
  string_includes s t = true ↔ occurs_in t s.
Proof.
  split.
  - induction s as [|c s IH]; intros H.
    + rewrite string_includes_nil, orb_false_r in H.
      destruct (prefix_split _ _ H) as (after & E).
      now exists EmptyString, after.
    + rewrite string_includes_cons in H. apply orb_prop in H as [H|H].
      * destruct (prefix_split _ _ H) as (after & E). now exists EmptyString, after.
      * destruct (IH H) as (before & after & ->). now exists (String c before), after.
  - intros (before & after & ->). induction before as [|c before IH].
    + change (EmptyString +:+ t +:+ after) with (t +:+ after).
      destruct (t +:+ after) as [|d u] eqn:E.
      * rewrite string_includes_nil, <- E, prefix_app. reflexivity.
      * rewrite string_includes_cons, <- E, prefix_app. reflexivity.
    + change (String c before +:+ t +:+ after) with (String c (before +:+ t +:+ after)).
      rewrite string_includes_cons, IH. apply orb_true_r.
Qed.

Lemma journey_spec_cons (r : Responses) (q : Pillar) (ps : list Pillar) :
  journey_spec r (q :: ps)
  = match key q r with
    | VStr t =>
        if String.eqb (trim t) EmptyString then journey_spec r ps
        else reflection_section (name q) (VStr t) +:+ journey_spec r ps
    | _ => journey_spec r ps
    end.
Proof. reflexivity. Qed.

Lemma journey_contains (r : Responses) (ps : list Pillar) (pillar : Pillar) (t : string) :
  pillar ∈ ps → key pillar r = VStr t → trim t ≠ EmptyString →
  occurs_in (reflection_section (name pillar) (VStr t)) (journey_spec r ps).
Proof.
  intros Hin Ht Hfilled. induction ps as [|q ps IH]; [inversion Hin|].
  rewrite journey_spec_cons.
  apply elem_of_cons in Hin as [<- | Hin].
  - rewrite Ht.
    destruct (String.eqb_spec (trim t) EmptyString) as [E|_]; [contradiction|].
    apply occurs_in_app_l, occurs_in_refl.
  - specialize (IH Hin).
    destruct (key q r) as [ | | | | u | ]; try exact IH.
    destruct (String.eqb (trim u) EmptyString); [exact IH|].
    now apply occurs_in_app_r.
Qed.

Lemma journey_all_blank (r : Responses) (ps : list Pillar) :
  (∀ pillar t, pillar ∈ ps → key pillar r = VStr t → trim t = EmptyString) →
  journey_spec r ps = EmptyString.
Proof.
  induction ps as [|q ps IH]; intros Hblank; [reflexivity|].
  rewrite journey_spec_cons, IH by (intros p t Hp; apply Hblank, elem_of_cons; auto).
  destruct (key q r) as [ | | | | u | ] eqn:E; try reflexivity.
  now rewrite (Hblank q u ltac:(apply elem_of_cons; auto) E).
Qed.

(** X20.  What the export of a typed record holds: the line of the initial
    label, the line of the label of the exported final slider, and the
    section of every reflection that is not blank; the reflections part is
    [journey_spec], where a blank reflection contributes nothing. *)
Lemma exportText_contents (w : World) (r : Responses) (i : Z) :
  fst (getAllResponses w) = Ret r →
  typed_responses r →
  initialSlider r = VNum i →
  ∃ f text,
    exported_final_slider r = VNum f ∧
    fst (exportText w) = Ret text ∧
    text = export_preamble (today w) (formatConscienceSlider i)
             (formatConscienceSlider f) r +:+ journey_spec r pillars ∧
    occurs_in ("Slider: " +:+ formatConscienceSlider i +:+ LF) text ∧
    occurs_in ("Slider: " +:+ formatConscienceSlider f +:+ LF) text ∧
    ∀ pillar t, pillar ∈ pillars → key pillar r = VStr t → trim t ≠ EmptyString →
                occurs_in (reflection_section (name pillar) (VStr t)) text.
Proof.
  intros Hr Htyped Hi.
  destruct (exportText_typed w r i Hr Htyped Hi) as (f & Hf & Htext).
  exists f, (export_preamble (today w) (formatConscienceSlider i)
               (formatConscienceSlider f) r +:+ journey_spec r pillars).
  split; [exact Hf|]. split; [exact Htext|]. split; [reflexivity|].
  split; [|split].
  - apply occurs_in_app_l. unfold export_preamble. cbv zeta.
    do 7 apply occurs_in_app_l. apply occurs_in_app_r, occurs_in_refl.
  - apply occurs_in_app_l. unfold export_preamble. cbv zeta.
    do 3 apply occurs_in_app_l. apply occurs_in_app_r, occurs_in_refl.
  - intros pillar t Hin Ht Hfilled. apply occurs_in_app_r.
    now apply journey_contains.
Qed.

Example formatConscienceSlider_zero : formatConscienceSlider 0 = "100% Constructed".
Proof. reflexivity. Qed.

(** A stored final slider of zero is exported as 50. *)
Lemma exported_final_slider_of_zero (r : Responses) :
  finalSlider r = VNum 0 → exported_final_slider r = VNum 50.
Proof. intros H. unfold exported_final_slider. now rewrite H. Qed.

Lemma exported_final_slider_nonzero (r : Responses) (f : Z) :
  finalSlider r = VNum f → f ≠ 0%Z → exported_final_slider r = VNum f.
Proof.
  intros H Hf. unfold exported_final_slider, or_else. rewrite H. simpl.
  now destruct (Z.eqb_spec f 0).
Qed.

(** C5 at a final slider of zero.  A submission with the final slider at 0
    stores the number 0, whose label is the all-constructed one.  The export
    of that storage returns, but its final position reads as the balanced
    label, and the label of the stored value occurs nowhere in the text. *)
Theorem export_final_slider_zero :
  let w := world_after_zero_submission in
  fst (loadFromStorage "final_slider" VNull w) = Ret (VNum 0) ∧
  formatConscienceSlider 0 = "100% Constructed" ∧
  ∃ text,
    fst (exportText w) = Ret text ∧
    downloads (snd (exportSynthesis w)) = [("conscience-inquiry-synthesis.txt", text)] ∧
    occurs_in ("FINAL POSITION" +:+ LF +:+ repeat_string "-" 30 +:+ LF
               +:+ "Slider: Exactly balanced" +:+ LF) text ∧
    ¬ occurs_in (formatConscienceSlider 0) text.
Proof.
  intros w. split; [now vm_compute|]. split; [reflexivity|].
  eexists. split; [vm_compute; reflexivity|].
  split; [vm_compute; reflexivity|]. split.
  - apply string_includes_occurs. vm_compute. reflexivity.
  - intros H. apply string_includes_occurs in H. vm_compute in H. discriminate H.
Qed.

(* ================================================================== *)
(** * Saving, loading, removing and clearing *)
(* ================================================================== *)

Lemma revived_no_NaN (v : value) : no_NaN v = true → JSON.revived v = v.
Proof.
  induction v as [ | b | n | | s | l IH] using value_nested_ind;
    intros H; try reflexivity; [discriminate H|].
  simpl in *. f_equal. induction IH as [|x l Hx _ IHl]; [reflexivity|].
  simpl in H. apply andb_prop in H as [H1 H2].
  simpl. now rewrite Hx, IHl.
Qed.

(** X1.  A value that [saveToStorage] stored is the value [loadFromStorage]
    returns under the same key afterwards: [save] returned [true], then
    [load] returns the value with [NaN] read back as [null] (the value
    itself when it holds no [NaN]); [save] returned [false], then [load]
    returns what it returned before. *)
Theorem saveToStorage_round_trip (key : string) (v d : value) (w w1 : World) (b : bool) :
  saveToStorage key v w = (Ret b, w1) →
  fst (loadFromStorage key d w1)
  = (if b then Ret (JSON.revived v) else fst (loadFromStorage key d w)) ∧
  (b = true → no_NaN v = true → fst (loadFromStorage key d w1) = Ret v).
Proof.
  intros Hsave.
  destruct (saveToStorage_run key v w) as (w' & E & Hst & _).
  rewrite Hsave in E. injection E as Hb <-.
  assert (H1 : fst (loadFromStorage key d w1)
               = (if b then Ret (JSON.revived v) else fst (loadFromStorage key d w))).
  { rewrite !loaded_is_read, Hst. destruct b.
    - apply read_put_same. now symmetry.
    - now rewrite put_refused. }
  split; [exact H1|]. intros -> Hplain. rewrite H1. now rewrite revived_no_NaN.
Qed.

Lemma saveToStorage_round_trip_witness :
  fst (loadFromStorage "initial_reason" VNull
         (snd (saveToStorage "initial_reason" (VStr "because") (world_of storage_empty))))
  = Ret (VStr "because").
Proof.
  refine (proj2 (saveToStorage_round_trip "initial_reason" (VStr "because") VNull
                   (world_of storage_empty) _ true _) eq_refl eq_refl).
  vm_compute. reflexivity.
Defined.

(** X2.  [saveToStorage] under one key leaves what [loadFromStorage]
    returns under every other key as it was, whether the storage took the
    item or not. *)
Theorem saveToStorage_other_keys (key key' : string) (v d : value) (w : World) :
  key' ≠ key →
  fst (loadFromStorage key' d (snd (saveToStorage key v w)))
  = fst (loadFromStorage key' d w).
Proof.
  intros Hne.
  destruct (saveToStorage_run key v w) as (w' & E & Hst & _).
  rewrite E. cbn [snd]. rewrite !loaded_is_read, Hst.
  apply read_put_other. congruence.
Qed.

Lemma saveToStorage_other_keys_witness :
  fst (loadFromStorage "initial_slider" (VNum 50)
         (snd (saveToStorage "initial_reason" (VStr "because")
                 (world_of storage_with_answers))))
  = fst (loadFromStorage "initial_slider" (VNum 50) (world_of storage_with_answers)).
Proof.
  apply (saveToStorage_other_keys "initial_reason" "initial_slider").
  discriminate.
Defined.

(** The storage after [removeFromStorage]. *)
Lemma removeFromStorage_storage (key : string) (w : World) :
  localStorage (snd (removeFromStorage key w))
  = if enabled (localStorage w)
    then mkStorage (delete (STORAGE_PREFIX +:+ key) (items (localStorage w)))
           true (quota (localStorage w))
    else localStorage w.
Proof.
  unfold removeFromStorage, try_catch, bind, removeItem.
  destruct (enabled (localStorage w)) eqn:En; reflexivity.
Qed.

(** X3.  After [removeFromStorage(key)], [loadFromStorage(key, d)] returns
    the default [d], whatever the storage held and whether it is enabled or
    not; what is loaded under every other key is as before. *)
Theorem removeFromStorage_forgets (key : string) (d : value) (w : World) :
  let w1 := snd (removeFromStorage key w) in
  fst (loadFromStorage key d w1) = Ret d ∧
  ∀ key' d', key' ≠ key →
    fst (loadFromStorage key' d' w1) = fst (loadFromStorage key' d' w).
Proof.
  intros w1. subst w1. split.
  - rewrite loaded_is_read, removeFromStorage_storage.
    destruct (enabled (localStorage w)) eqn:En.
    + apply read_absent. simpl. apply lookup_delete_eq.
    + unfold read. now rewrite En.
  - intros key' d' Hne. rewrite !loaded_is_read, removeFromStorage_storage.
    destruct (enabled (localStorage w)) eqn:En; [|reflexivity].
    unfold read. simpl. rewrite En.
    rewrite lookup_delete_ne; [reflexivity|].
    intros H. apply Hne. symmetry. now apply prefixed_inj.
Qed.

Lemma elem_of_storage_keys (m : gmap string string) (k : string) :
  k ∈ map fst (map_to_list m) ↔ is_Some (m !! k).
Proof.
  rewrite list_elem_of_In, in_map_iff. split.
  - intros ([k' v] & Hk & Hin). simpl in Hk. subst k'.
    apply list_elem_of_In, elem_of_map_to_list in Hin. now exists v.
  - intros (v & Hv). exists (k, v). split; [reflexivity|].
    now apply list_elem_of_In, elem_of_map_to_list.
Qed.

Lemma is_app_key_prefix (k : string) :
  is_app_key k = String.prefix STORAGE_PREFIX k.
Proof. destruct k; reflexivity. Qed.

(** The loop [keysToRemove.forEach(key => localStorage.removeItem(key))]. *)
Lemma remove_each_run (keys : list string) (w : World) :
  enabled (localStorage w) = true →
  ∃ w', remove_each keys w = (Ret tt, w') ∧ same_page w w' ∧
        console w' = console w ∧
        enabled (localStorage w') = true ∧
        quota (localStorage w') = quota (localStorage w) ∧
        ∀ k, items (localStorage w') !! k
             = if bool_decide (k ∈ keys) then None else items (localStorage w) !! k.
Proof.
  revert w. induction keys as [|k0 keys IH]; intros w En.
  - exists w. split; [reflexivity|]. split; [apply same_page_refl|].
    split; [reflexivity|]. split; [exact En|]. split; [reflexivity|].
    intros k. rewrite bool_decide_eq_false_2; [reflexivity | apply not_elem_of_nil].
  - simpl remove_each. unfold bind at 1, removeItem. rewrite En.
    cbv beta iota zeta.
    match goal with |- context [remove_each keys ?w1] => set (w1' := w1) end.
    destruct (IH w1' eq_refl) as (w' & E & Hpage & Hcon & Hen & Hq & Hitems).
    exists w'. split; [exact E|].
    split; [exact (same_page_trans _ _ _ ltac:(repeat split) Hpage)|].
    split; [exact Hcon|]. split; [exact Hen|]. split; [exact Hq|].
    intros k. rewrite Hitems. subst w1'. cbn [localStorage with_storage items].
    destruct (decide (k ∈ keys)) as [Hin|Hout].
    + rewrite !bool_decide_eq_true_2; [reflexivity | | exact Hin].
      apply elem_of_cons. now right.
    + rewrite (bool_decide_eq_false_2 _ Hout).
      destruct (decide (k = k0)) as [->|Hne].
      * rewrite bool_decide_eq_true_2 by (apply elem_of_cons; now left).
        apply lookup_delete_eq.
      * rewrite bool_decide_eq_false_2.
        -- now apply lookup_delete_ne.
        -- rewrite elem_of_cons. intros [?|?]; [congruence | contradiction].
Qed.

(** One call of [clearAllStorage]. *)
Lemma clearAllStorage_run (w : World) :
  ∃ w', clearAllStorage w = (Ret (enabled (localStorage w)), w') ∧
        same_page w w' ∧
        enabled (localStorage w') = enabled (localStorage w) ∧
        quota (localStorage w') = quota (localStorage w) ∧
        ∀ k, items (localStorage w') !! k
             = if enabled (localStorage w) && String.prefix STORAGE_PREFIX k
               then None else items (localStorage w) !! k.
Proof.
  unfold clearAllStorage, try_catch. unfold bind at 1. unfold storage_keys.
  destruct (enabled (localStorage w)) eqn:En.
  - match goal with |- context [remove_each ?ks] => set (keys := ks) end.
    destruct (remove_each_run keys w En) as (w' & E & Hpage & _ & Hen & Hq & Hitems).
    unfold bind. rewrite E. exists w'. split; [reflexivity|].
    split; [exact Hpage|]. split; [exact Hen|]. split; [exact Hq|].
    intros k. rewrite Hitems. cbn [andb]. subst keys.
    destruct (String.prefix STORAGE_PREFIX k) eqn:Hp.
    + destruct (items (localStorage w) !! k) as [v|] eqn:Hk.
      * rewrite bool_decide_eq_true_2; [reflexivity|].
        apply list_elem_of_filter. split.
        -- rewrite is_app_key_prefix, Hp. exact I.
        -- apply elem_of_storage_keys. now exists v.
      * now destruct (bool_decide _).
    + rewrite bool_decide_eq_false_2; [reflexivity|].
      rewrite list_elem_of_filter, is_app_key_prefix, Hp. intros [[] _].
  - simpl. eexists. split; [reflexivity|]. split; [repeat split|].
    split; [exact En|]. split; [reflexivity|]. intros k. reflexivity.
Qed.

(** X4.  [clearAllStorage] returns [true] exactly when the storage is
    enabled.  The items it leaves are those it found, less the ones whose
    key starts with the application prefix when the storage is enabled: an
    item of another application under the same origin stays, and a disabled
    storage keeps everything.  The page is as it was. *)
Theorem clearAllStorage_clears (w : World) :
  let st := localStorage w in
  let w' := snd (clearAllStorage w) in
  fst (clearAllStorage w) = Ret (enabled st) ∧
  (∀ k v, items (localStorage w') !! k = Some v ↔
          items st !! k = Some v ∧
          (enabled st = false ∨ String.prefix STORAGE_PREFIX k = false)) ∧
  same_page w w'.
Proof.
  intros st w'. subst st w'.
  destruct (clearAllStorage_run w) as (w' & E & Hpage & _ & _ & Hitems).
  rewrite E. cbn [fst snd]. split; [reflexivity|]. split; [|exact Hpage].
  intros k v. rewrite Hitems.
  destruct (enabled (localStorage w)); cbn [andb].
  - destruct (String.prefix STORAGE_PREFIX k).
    + split; [discriminate | intros [_ [?|?]]; discriminate].
    + split; [auto | intros [? _]; assumption].
  - split; [auto | intros [? _]; assumption].
Qed.

Lemma read_after_clear (w : World) (key : string) (d : value) :
  read (localStorage (snd (clearAllStorage w))) key d = Ret d.
Proof.
  destruct (clearAllStorage_run w) as (w' & E & _ & Hen & _ & Hitems).
  rewrite E. cbn [snd]. unfold read. rewrite Hen, Hitems.
  destruct (enabled (localStorage w)); [|reflexivity].
  now rewrite prefix_app.
Qed.

Lemma getAllResponses_of_defaults (w : World) :
  (∀ key d, read (localStorage w) key d = Ret d) →
  fst (getAllResponses w) = Ret default_responses.
Proof.
  intros H. unfold getAllResponses.
  pose proof (only_logs_refl w) as Hlog.
  do 11 (load_step; rewrite H).
  reflexivity.
Qed.

(** What [isPageCompleted] returns, from the list the storage holds. *)
Lemma isPageCompleted_value (w : World) (n : string) (L : list string) :
  stored_pages w = Ret (VArr (VStr <$> L)) →
  fst (isPageCompleted n w) = Ret (bool_decide (n ∈ L)).
Proof.
  intros H. rewrite stored_pages_read in H. unfold isPageCompleted.
  pose proof (only_logs_refl w) as Hlog. load_step. rewrite H.
  simpl includes. unfold ret. cbn [fst]. now rewrite existsb_same_as_string.
Qed.

(** X5.  After [clearAllStorage] the application starts afresh, whether the
    storage is enabled or not: [getAllResponses] returns the defaults, the
    progress is 0 and no page counts as completed. *)
Theorem clearAllStorage_resets (w : World) :
  let w' := snd (clearAllStorage w) in
  fst (getAllResponses w') = Ret default_responses ∧
  fst (getProgressPercentage w') = Ret 0%Z ∧
  ∀ n, fst (isPageCompleted n w') = Ret false.
Proof.
  intros w'.
  assert (Hread : ∀ key d, read (localStorage w') key d = Ret d)
    by (intros; apply read_after_clear).
  assert (Hpages : stored_pages w' = Ret (VArr (VStr <$> []))).
  { rewrite stored_pages_read. apply Hread. }
  split; [now apply getAllResponses_of_defaults|]. split.
  - rewrite (getProgressPercentage_value w' [] Hpages). reflexivity.
  - intros n. rewrite (isPageCompleted_value w' n [] Hpages). reflexivity.
Qed.

(* ================================================================== *)
(** * Completed pages and progress, further *)
(* ================================================================== *)

(** The list the storage holds after [markPageCompleted(n)]. *)
Lemma markPageCompleted_stored (w : World) (n : string) (L : list string) :
  stored_pages w = Ret (VArr (VStr <$> L)) →
  let taken := accepts (localStorage w) (STORAGE_PREFIX +:+ "completed_pages")
                 (JSON.stringify (VArr (VStr <$> (L ++ [n])))) in
  stored_pages (snd (markPageCompleted n w))
  = Ret (VArr (VStr <$> (if bool_decide (n ∈ L) then L
                         else if taken then L ++ [n] else L))).
Proof.
  intros Hstored taken.
  destruct (markPageCompleted_step w n L Hstored) as (w1 & E & Hst).
  rewrite E. cbn [snd].
  destruct (bool_decide (n ∈ L)).
  - now rewrite (stored_pages_same_storage w w1 Hst).
  - destruct taken eqn:Htaken.
    + now apply (stored_pages_put (localStorage w)).
    + rewrite put_refused in Hst by exact Htaken.
      now rewrite (stored_pages_same_storage w w1 Hst).
Qed.

(** X6.  [isPageCompleted(n)] tells whether [n] is in the stored list.
    After [markPageCompleted(n)] it returns [true], provided the page was
    there already or the storage took the longer list; and a call of
    [markPageCompleted(n)] never changes the answer for another page. *)
Theorem isPageCompleted_after_mark (w : World) (n : string) (L : list string) :
  stored_pages w = Ret (VArr (VStr <$> L)) →
  let w1 := snd (markPageCompleted n w) in
  fst (isPageCompleted n w) = Ret (bool_decide (n ∈ L)) ∧
  (n ∈ L ∨
   accepts (localStorage w) (STORAGE_PREFIX +:+ "completed_pages")
     (JSON.stringify (VArr (VStr <$> (L ++ [n])))) = true →
   fst (isPageCompleted n w1) = Ret true) ∧
  (∀ m, m ≠ n → fst (isPageCompleted m w1) = fst (isPageCompleted m w)).
Proof.
  intros Hstored w1.
  pose proof (markPageCompleted_stored w n L Hstored) as H1. cbv zeta in H1.
  fold w1 in H1.
  split; [now apply isPageCompleted_value|]. split.
  - intros Hok. rewrite (isPageCompleted_value w1 n _ H1). f_equal.
    apply bool_decide_eq_true_2.
    destruct (decide (n ∈ L)) as [Hin|Hout].
    + now rewrite (bool_decide_eq_true_2 _ Hin).
    + rewrite (bool_decide_eq_false_2 _ Hout).
      destruct Hok as [Hin | ->]; [contradiction|].
      apply elem_of_app. right. apply elem_of_cons. now left.
  - intros m Hm.
    rewrite (isPageCompleted_value w1 m _ H1), (isPageCompleted_value w m L Hstored).
    f_equal. apply bool_decide_ext.
    destruct (bool_decide (n ∈ L)); [reflexivity|].
    destruct (accepts _ _ _); [|reflexivity].
    rewrite elem_of_app, elem_of_cons.
    split; [intros [?|[?|Hnil]]; [assumption | congruence | inversion Hnil] | auto].
Qed.

Lemma isPageCompleted_after_mark_witness :
  let w := world_of (storage_with_pages (JSON.stringify (VArr [VStr "index"]))) in
  fst (isPageCompleted "biology" (snd (markPageCompleted "biology" w))) = Ret true.
Proof.
  intros w.
  destruct (isPageCompleted_after_mark w "biology" ["index"]) as (_ & H & _).
  - vm_compute. reflexivity.
  - apply H. right. vm_compute. reflexivity.
Defined.

Lemma filter_included_total (v : value) (names : list string) (w : World) :
  has_includes v = true →
  ∃ kept, filter_included v names w = (Ret kept, w) ∧ length kept ≤ length names.
Proof.
  intros Hv.
  assert (Hinc : ∀ p, ∃ b, includes v p w = (Ret b, w)).
  { intros p. destruct v; try discriminate Hv; simpl; unfold ret; eauto. }
  induction names as [|p names (kept & E & Hlen)].
  - exists []. split; [reflexivity | simpl; lia].
  - destruct (Hinc p) as (b & Eb). simpl filter_included.
    unfold bind at 1. rewrite Eb. unfold bind at 1. rewrite E. unfold ret.
    exists (if b then p :: kept else kept).
    split; [reflexivity|]. destruct b; simpl; lia.
Qed.

Lemma round_eighths_values (c : nat) :
  c ≤ 8 →
  round_half_up (100 * Z.of_nat c) 8 ∈ progress_values ∧
  (0 ≤ round_half_up (100 * Z.of_nat c) 8 ≤ 100)%Z.
Proof.
  intros H.
  do 9 (destruct c as [|c];
        [split; [refine (bool_decide_unpack _ _); vm_compute; exact I
                | vm_compute; split; discriminate]|]).
  lia.
Qed.

(** One call of [getProgressPercentage] on a stored array or string. *)
Lemma getProgressPercentage_run (w : World) (v : value) :
  stored_pages w = Ret v → has_includes v = true →
  ∃ p w', getProgressPercentage w = (Ret p, w') ∧ only_logs w w' ∧
          p ∈ progress_values ∧ (0 ≤ p ≤ 100)%Z.
Proof.
  intros Hstored Hv. rewrite stored_pages_read in Hstored.
  unfold getProgressPercentage.
  pose proof (only_logs_refl w) as Hlog. load_step. rewrite Hstored.
  destruct (filter_included_total v allPages w0 Hv) as (kept & E & Hlen).
  unfold bind at 1. rewrite E. unfold ret.
  change (length allPages) with 8 in Hlen.
  rewrite (Math_round_eighths _ Hlen).
  eexists _, _. split; [reflexivity|]. split; [exact Hlog|].
  now apply round_eighths_values.
Qed.

(** X7.  Whenever the stored completed-pages value is an array or a string
    (the empty array stands in when nothing is stored), whatever it holds,
    [getProgressPercentage] returns one of the nine percentages 0, 13, 25,
    38, 50, 63, 75, 88 and 100, hence a number between 0 and 100. *)
Theorem getProgressPercentage_range (w : World) (v : value) :
  stored_pages w = Ret v → has_includes v = true →
  ∃ p, fst (getProgressPercentage w) = Ret p ∧
       p ∈ progress_values ∧ (0 ≤ p ≤ 100)%Z.
Proof.
  intros Hstored Hv.
  destruct (getProgressPercentage_run w v Hstored Hv) as (p & w' & E & _ & Hp).
  exists p. now rewrite E.
Qed.

Lemma getProgressPercentage_range_witness :
  let w := world_of (storage_with_pages
             (JSON.stringify (VArr [VStr "index"; VNum 7; VStr "biology"; VNull]))) in
  ∃ p, fst (getProgressPercentage w) = Ret p ∧
       p ∈ progress_values ∧ (0 ≤ p ≤ 100)%Z.
Proof.
  intros w.
  apply (getProgressPercentage_range w
           (VArr [VStr "index"; VNum 7; VStr "biology"; VNull])).
  - vm_compute. reflexivity.
  - reflexivity.
Defined.

(** X9.  When the stored completed-pages value is [null], a boolean or a
    number (a text that parses, but to no list), [markPageCompleted],
    [isPageCompleted] and [getProgressPercentage] all end in a [TypeError]:
    the value has no [includes].  [markPageCompleted] has written nothing
    by then. *)
Theorem completed_pages_without_includes (w : World) (v : value) (n : string) :
  stored_pages w = Ret v → has_includes v = false →
  fst (markPageCompleted n w) = Throw TypeError ∧
  fst (isPageCompleted n w) = Throw TypeError ∧
  fst (getProgressPercentage w) = Throw TypeError ∧
  localStorage (snd (markPageCompleted n w)) = localStorage w.
Proof.
  intros Hstored Hv. rewrite stored_pages_read in Hstored.
  assert (Hinc : ∀ p w', includes v p w' = (Throw TypeError, w')).
  { intros p w'. destruct v; try discriminate Hv; reflexivity. }
  pose proof (only_logs_refl w) as Hlog.
  split; [|split; [|split]].
  - unfold markPageCompleted. load_step. rewrite Hstored.
    unfold bind at 1. now rewrite Hinc.
  - unfold isPageCompleted. load_step. rewrite Hstored. now rewrite Hinc.
  - unfold getProgressPercentage. load_step. rewrite Hstored.
    unfold bind at 1. simpl filter_included. unfold bind at 1. now rewrite Hinc.
  - unfold markPageCompleted. load_step. rewrite Hstored.
    unfold bind at 1. rewrite Hinc. exact (proj1 Hlog).
Qed.

Lemma completed_pages_without_includes_witness :
  let w := world_of (storage_with_pages "null") in
  fst (markPageCompleted "index" w) = Throw TypeError ∧
  fst (isPageCompleted "index" w) = Throw TypeError ∧
  fst (getProgressPercentage w) = Throw TypeError ∧
  localStorage (snd (markPageCompleted "index" w)) = localStorage w.
Proof.
  intros w.
  apply (completed_pages_without_includes w VNull "index").
  - vm_compute. reflexivity.
  - reflexivity.
Defined.

Lemma completed_count_filter (L : list string) :
  completed_count L = length (filter (λ p, p ∈ L) allPages).
Proof.
  unfold completed_count. symmetry.
  apply filter_length_as_set, allPages_NoDup.
Qed.

(** What a name appended to the list adds to the count. *)
Lemma filter_length_snoc (L pages : list string) (n : string) :
  NoDup pages →
  length (filter (λ p, p ∈ L ++ [n]) pages)
  = length (filter (λ p, p ∈ L) pages)
    + (if bool_decide (n ∈ pages ∧ n ∉ L) then 1 else 0).
Proof.
  intros Hnd. induction Hnd as [|p pages Hp Hnd IH]; [reflexivity|].
  rewrite !filter_cons.
  assert (Hrest : (if bool_decide (n ∈ p :: pages ∧ n ∉ L) then 1 else 0)
                  = (if bool_decide (p = n ∧ n ∉ L) then 1 else 0)
                    + (if bool_decide (n ∈ pages ∧ n ∉ L) then 1 else 0)).
  { destruct (decide (p = n)) as [->|Hne].
    - destruct (decide (n ∉ L)) as [Hout|Hin].
      + rewrite (bool_decide_eq_true_2 (n ∈ n :: pages ∧ n ∉ L))
          by (split; [apply elem_of_cons; now left | exact Hout]).
        rewrite (bool_decide_eq_true_2 (n = n ∧ n ∉ L)) by tauto.
        now rewrite (bool_decide_eq_false_2 (n ∈ pages ∧ n ∉ L)) by tauto.
      + rewrite (bool_decide_eq_false_2 (n ∈ n :: pages ∧ n ∉ L)) by tauto.
        rewrite (bool_decide_eq_false_2 (n = n ∧ n ∉ L)) by tauto.
        now rewrite (bool_decide_eq_false_2 (n ∈ pages ∧ n ∉ L)) by tauto.
    - rewrite (bool_decide_eq_false_2 (p = n ∧ n ∉ L)) by tauto.
      simpl.
      rewrite (bool_decide_ext (n ∈ p :: pages ∧ n ∉ L) (n ∈ pages ∧ n ∉ L));
        [reflexivity|].
      rewrite elem_of_cons.
      split; [intros [[?|?] ?]; [congruence | tauto] | tauto]. }
  rewrite Hrest. clear Hrest.
  destruct (decide (p ∈ L)) as [Hin|Hout].
  - rewrite decide_True by (apply elem_of_app; now left).
    rewrite (bool_decide_eq_false_2 (p = n ∧ n ∉ L)).
    + simpl. now rewrite IH.
    + intros [-> Hn]. contradiction.
  - destruct (decide (p = n)) as [->|Hne].
    + rewrite decide_True by (apply elem_of_app; right; apply elem_of_cons; now left).
      rewrite (bool_decide_eq_true_2 (n = n ∧ n ∉ L)) by tauto.
      simpl. rewrite IH. lia.
    + rewrite decide_False.
      * rewrite (bool_decide_eq_false_2 (p = n ∧ n ∉ L)) by tauto.
        simpl. now rewrite IH.
      * rewrite elem_of_app, elem_of_cons.
        intros [?|[?|Hnil]]; [contradiction | congruence | inversion Hnil].
Qed.

Lemma completed_count_snoc (L : list string) (n : string) :
  completed_count (L ++ [n])
  = completed_count L + (if bool_decide (n ∈ allPages ∧ n ∉ L) then 1 else 0).
Proof.
  rewrite !completed_count_filter. apply filter_length_snoc, allPages_NoDup.
Qed.

Lemma round_eighths_step (c : nat) :
  S c ≤ 8 →
  (round_half_up (100 * Z.of_nat c) 8 + 12 ≤ round_half_up (100 * Z.of_nat (S c)) 8
   ≤ round_half_up (100 * Z.of_nat c) 8 + 13)%Z.
Proof.
  intros H.
  do 8 (destruct c as [|c]; [vm_compute; split; discriminate|]).
  lia.
Qed.

(** X8.  [markPageCompleted] never lowers the progress.  The percentage is
    as before when the page was in the list or is not one of the eight; it
    is 12 or 13 points higher when one of the eight pages enters the list,
    which takes a storage that accepts the longer list. *)
Theorem markPageCompleted_progress (w : World) (n : string) (L : list string) :
  stored_pages w = Ret (VArr (VStr <$> L)) →
  ∃ p p1,
    fst (getProgressPercentage w) = Ret p ∧
    fst (getProgressPercentage (snd (markPageCompleted n w))) = Ret p1 ∧
    (p ≤ p1 ≤ p + 13)%Z ∧
    (n ∈ L ∨ n ∉ allPages → p1 = p) ∧
    (n ∉ L → n ∈ allPages →
     accepts (localStorage w) (STORAGE_PREFIX +:+ "completed_pages")
       (JSON.stringify (VArr (VStr <$> (L ++ [n])))) = true →
     (p + 12 ≤ p1)%Z).
Proof.
  intros Hstored.
  pose proof (markPageCompleted_stored w n L Hstored) as H1. cbv zeta in H1.
  eexists _, _.
  split; [exact (getProgressPercentage_value w L Hstored)|].
  split; [exact (getProgressPercentage_value _ _ H1)|].
  pose proof (completed_count_snoc L n) as Hsnoc.
  pose proof (completed_count_le (L ++ [n])) as Hle.
  destruct (decide (n ∈ L)) as [Hin|Hout].
  - rewrite (bool_decide_eq_true_2 _ Hin).
    split; [lia|]. split; [reflexivity | contradiction].
  - rewrite (bool_decide_eq_false_2 _ Hout).
    destruct (accepts _ _ _).
    + destruct (decide (n ∈ allPages)) as [Hpage|Hother].
      * rewrite bool_decide_eq_true_2 in Hsnoc by tauto.
        replace (completed_count L + 1) with (S (completed_count L)) in Hsnoc by lia.
        rewrite Hsnoc in *.
        pose proof (round_eighths_step _ Hle).
        split; [lia|]. split; [intros [?|?]; contradiction | intros; lia].
      * rewrite bool_decide_eq_false_2 in Hsnoc by tauto.
        rewrite Hsnoc, Nat.add_0_r.
        split; [lia|]. split; [reflexivity | intros; contradiction].
    + split; [lia|]. split; [reflexivity | discriminate].
Qed.

Lemma markPageCompleted_progress_witness :
  let w := world_of (storage_with_pages (JSON.stringify (VArr [VStr "index"]))) in
  ∃ p p1,
    fst (getProgressPercentage w) = Ret p ∧
    fst (getProgressPercentage (snd (markPageCompleted "biology" w))) = Ret p1 ∧
    (p + 12 ≤ p1 ≤ p + 13)%Z.
Proof.
  intros w.
  destruct (markPageCompleted_progress w "biology" ["index"])
    as (p & p1 & E & E1 & Hle & _ & Hup).
  - vm_compute. reflexivity.
  - exists p, p1. refine (conj E (conj E1 (conj _ (proj2 Hle)))).
    apply Hup.
    + vm_compute. intros H. inversion H as [|? ? ? Hnil]. inversion Hnil.
    + refine (bool_decide_unpack _ _). vm_compute. exact I.
    + vm_compute. reflexivity.
Defined.

(* ================================================================== *)
(** * The slider display, the progress bar, reveal blocks and toasts *)
(* ================================================================== *)

(** The number a label starts with, and what follows it. *)
Lemma formatConscienceSlider_parts (v : Z) :
  (v = 50%Z ∧ formatConscienceSlider v = "Exactly balanced") ∨
  ((v < 50)%Z ∧
   formatConscienceSlider v = number_to_string (100 - v) +:+ "% Constructed") ∨
  ((50 < v)%Z ∧ formatConscienceSlider v = number_to_string v +:+ "% Innate").
Proof.
  unfold formatConscienceSlider.
  destruct (Z.eqb_spec v 50) as [->|Hne]; [left; now split|].
  destruct (Z.ltb_spec v 50); right; [left | right]; (split; [lia | reflexivity]).
Qed.

(** X10.  Two different integer positions on the scale 0..100 of the
    slider never get the same label: below 50 the label carries [100 - v]
    and the constructed suffix, above 50 it carries [v] and the innate
    suffix, and only 50 is called balanced. *)
Theorem formatConscienceSlider_distinct (a b : Z) :
  (0 ≤ a ≤ 100)%Z → (0 ≤ b ≤ 100)%Z →
  a ≠ b → formatConscienceSlider a ≠ formatConscienceSlider b.
Proof.
  intros _ _ Hne Heq.
  assert (Hc : ∀ v, parseInt (number_to_string v +:+ "% Constructed") = Some v)
    by (intros; apply parseInt_number_to_string; reflexivity).
  assert (Hi : ∀ v, parseInt (number_to_string v +:+ "% Innate") = Some v)
    by (intros; apply parseInt_number_to_string; reflexivity).
  pose proof (f_equal parseInt Heq) as Hp.
  destruct (formatConscienceSlider_parts a) as [[-> Ea] | [[Ha Ea] | [Ha Ea]]];
    destruct (formatConscienceSlider_parts b) as [[-> Eb] | [[Hb Eb] | [Hb Eb]]];
    try congruence;
    rewrite Ea, Eb in Heq; rewrite Ea, Eb in Hp;
    rewrite ?Hc, ?Hi in Hp;
    try (change (parseInt "Exactly balanced") with (@None Z) in Hp);
    try discriminate Hp; try (injection Hp as Hp; lia).
  - injection Hp as Hp. rewrite Hp in Heq.
    apply String.app_inj in Heq. discriminate Heq.
  - injection Hp as Hp. rewrite <- Hp in Heq.
    apply String.app_inj in Heq. discriminate Heq.
Qed.

Lemma formatConscienceSlider_distinct_witness :
  formatConscienceSlider 30 ≠ formatConscienceSlider 70.
Proof. apply (formatConscienceSlider_distinct 30 70); [lia | lia | discriminate]. Defined.

Lemma formatConscienceSlider_number_integer (v : Z) :
  formatConscienceSlider_number (Some v) = formatConscienceSlider v.
Proof. reflexivity. Qed.

(** X11.  When the [value] of the slider is the decimal numeral of an
    integer [v] that a number holds exactly (followed, as for a fractional
    position, by something that is not a digit), the display shows the label
    [formatFn] gives to [v] and [v%] without a formatter; with
    [formatConscienceSlider] as the formatter it shows the label of [v],
    provided [100 - v] is held exactly as well.  A missing slider or display
    leaves the page as it is. *)
Theorem initSlider_shows_position (v : Z) (rest shown : string)
    (f : option Z → string) :
  safe_integer v →
  no_digit_head rest →
  let position := number_to_string v +:+ rest in
  initSlider (Some position) (Some shown) None
  = Some (number_to_string v +:+ "%") ∧
  initSlider (Some position) (Some shown) (Some f) = Some (f (Some v)) ∧
  (safe_integer (100 - v) →
   initSlider (Some position) (Some shown) (Some formatConscienceSlider_number)
   = Some (formatConscienceSlider v)) ∧
  initSlider None (Some shown) (Some f) = Some shown ∧
  initSlider (Some position) None (Some f) = None.
Proof.
  intros _ Hrest position. unfold initSlider, updateDisplay.
  subst position. rewrite (parseInt_number_to_string v rest Hrest).
  repeat split.
Qed.

Lemma initSlider_shows_position_witness :
  initSlider (Some "30.5") (Some "") (Some formatConscienceSlider_number)
  = Some "70% Constructed".
Proof.
  refine (proj1 (proj2 (proj2
            (initSlider_shows_position 30 ".5" "" formatConscienceSlider_number _ _))) _).
  - unfold safe_integer. lia.
  - reflexivity.
  - unfold safe_integer. lia.
Defined.

(** X12.  On a page with the fill element, and a stored completed-pages
    value that is an array or a string, [initProgressBar] sets the width of
    the fill to [p%] and the text, if the page has one, to [p% complete],
    where [p] is what [getProgressPercentage] returns, a number between 0
    and 100; the storage is as it was.  Without the fill element nothing is
    read and nothing is set, the text included. *)
Theorem initProgressBar_shows_progress (w : World) (v : value)
    (width : string) (text : option string) :
  stored_pages w = Ret v → has_includes v = true →
  (∃ p, fst (getProgressPercentage w) = Ret p ∧ (0 ≤ p ≤ 100)%Z ∧
        fst (initProgressBar (mkProgressBar (Some width) text) w)
        = Ret (mkProgressBar (Some (number_to_string p +:+ "%"))
                 (match text with
                  | Some _ => Some (number_to_string p +:+ "% complete")
                  | None => None
                  end)) ∧
        localStorage (snd (initProgressBar (mkProgressBar (Some width) text) w))
        = localStorage w) ∧
  initProgressBar (mkProgressBar None text) w = (Ret (mkProgressBar None text), w).
Proof.
  intros Hstored Hv. split; [|reflexivity].
  destruct (getProgressPercentage_run w v Hstored Hv) as (p & w' & E & Hlog & _ & Hp).
  exists p. unfold initProgressBar. cbn [progressFill progressText].
  unfold bind. rewrite E. unfold ret. cbn [fst snd].
  split; [reflexivity|]. split; [exact Hp|]. split; [reflexivity | exact (proj1 Hlog)].
Qed.

Lemma initProgressBar_shows_progress_witness :
  let w := world_of (storage_with_pages
             (JSON.stringify (VArr [VStr "index"; VStr "biology"]))) in
  fst (initProgressBar (mkProgressBar (Some "0%") (Some "")) w)
  = Ret (mkProgressBar (Some "25%") (Some "25% complete")).
Proof.
  intros w.
  destruct (initProgressBar_shows_progress w (VArr [VStr "index"; VStr "biology"])
              "0%" (Some "")) as ((p & Hp & _ & Hbar & _) & _).
  - vm_compute. reflexivity.
  - reflexivity.
  - rewrite Hbar.
    assert (Hp' : Ret p = Ret 25%Z) by (rewrite <- Hp; vm_compute; reflexivity).
    injection Hp' as ->. reflexivity.
Defined.

Lemma reveal_click_other_attributes (b : RevealBlock) (a : string) :
  (a ≠ "aria-expanded" →
   getAttribute a (trigger (reveal_click b)) = getAttribute a (trigger b)) ∧
  (a ≠ "aria-hidden" →
   getAttribute a (content (reveal_click b)) = getAttribute a (content b)).
Proof.
  unfold reveal_click, getAttribute, setAttribute. simpl.
  split; intros Ha; now rewrite lookup_insert_ne.
Qed.

(** X13.  After initialisation and [n] clicks on its trigger a reveal block
    is expanded exactly when [n] is odd and hidden exactly when [n] is even;
    no attribute of the trigger other than [aria-expanded], and none of the
    content other than [aria-hidden], has changed. *)
Theorem reveal_clicks_parity (b : RevealBlock) (n : nat) :
  let b' := Nat.iter n reveal_click (reveal_init b) in
  expanded b' = Nat.odd n ∧ hidden b' = Nat.even n ∧
  (∀ a, a ≠ "aria-expanded" →
        getAttribute a (trigger b') = getAttribute a (trigger b)) ∧
  (∀ a, a ≠ "aria-hidden" →
        getAttribute a (content b') = getAttribute a (content b)).
Proof.
  cbv zeta. induction n as [|n (He & Hh & Ht & Hc)].
  - change (Nat.iter 0 reveal_click (reveal_init b)) with (reveal_init b).
    destruct (reveal_init_flags b) as [He Hh].
    split; [exact He|]. split; [exact Hh|].
    unfold reveal_init, getAttribute, setAttribute. simpl.
    split; intros a Ha; now rewrite lookup_insert_ne.
  - change (Nat.iter (S n) reveal_click (reveal_init b))
      with (reveal_click (Nat.iter n reveal_click (reveal_init b))).
    destruct (reveal_click_flags (Nat.iter n reveal_click (reveal_init b))) as [He' Hh'].
    rewrite He' , Hh', He, Nat.odd_succ, Nat.even_succ, Nat.negb_odd.
    split; [reflexivity|]. split; [reflexivity|].
    split; intros a Ha.
    + rewrite (proj1 (reveal_click_other_attributes _ a) Ha). now apply Ht.
    + rewrite (proj2 (reveal_click_other_attributes _ a) Ha). now apply Hc.
Qed.

(** X14.  A second [showConfirmation] replaces the toast of the first: the
    document holds one toast, the later one, on a node of its own, and the
    style sheet is not added a second time.  The timer of the first call,
    when it fires, finds its toast gone and leaves the later toast in place;
    the timer of the second call removes it. *)
Theorem showConfirmation_replaces (m1 m2 : string) (t1 t2 : option string) (w : World) :
  let w1 := snd (showConfirmation m1 t1 w) in
  let w2 := snd (showConfirmation m2 t2 w1) in
  let n1 := created (document w) in
  let n2 := created (document w1) in
  n1 < n2 ∧
  (∃ icon, toast (document w2) = Some (mkToast n2 icon m2)) ∧
  toastStyles (document w1) = true ∧
  created (document w2) = S n2 ∧
  timers w2 = timers w ++ [mkTimer (RemoveToast n1) 3000; mkTimer (RemoveToast n2) 3000] ∧
  toast (document (snd (toast_remove n1 w2))) = toast (document w2) ∧
  toast (document (snd (toast_remove n2 w2))) = None.
Proof.
  intros w1 w2 n1 n2. subst w1 w2 n1 n2.
  rewrite !showConfirmation_run. cbn [snd document created toastStyles toast timers].
  assert (Hlt : created (document w)
                < (if toastStyles (document w) then S (created (document w))
                   else S (S (created (document w)))))
    by (destruct (toastStyles (document w)); lia).
  split; [exact Hlt|]. split; [eexists; reflexivity|].
  split; [reflexivity|]. split; [reflexivity|].
  split; [now rewrite <- app_assoc|].
  unfold toast_remove. cbn [document toast toast_node].
  rewrite Nat.eqb_refl.
  rewrite (proj2 (Nat.eqb_neq _ _)) by lia.
  split; reflexivity.
Qed.

(* ================================================================== *)
(** * Debounce *)
(* ================================================================== *)

Lemma clearTimeout_own {A} (id : nat) (a : A) :
  clearTimeout (Some id) [(id, a)] = [].
Proof.
  unfold clearTimeout. rewrite filter_cons_False; [apply filter_nil|].
  simpl. intros H. now apply H.
Qed.

Lemma executedFunction_invariant {A} (d : Debounced A) (args : list A) (x : A) :
  debounce_invariant d args →
  pending (executedFunction x d) = [(next_timer d, x)] ∧
  calls (executedFunction x d) = calls d ∧
  debounce_invariant (executedFunction x d) (args ++ [x]).
Proof.
  intros Hinv.
  assert (Hclear : clearTimeout (timeout d) (pending d) = [] ∧
                   calls d `sublist_of` args).
  { destruct Hinv as [[Hp Hc] | (id & a & Hp & Ht & Hc)]; rewrite Hp.
    - split; [|exact Hc]. unfold clearTimeout.
      destruct (timeout d); [apply filter_nil | reflexivity].
    - rewrite Ht. split; [apply clearTimeout_own|].
      apply sublist_app_l in Hc as (k1 & k2 & -> & H1 & _).
      now apply sublist_inserts_r. }
  destruct Hclear as [Hclear Hsub].
  unfold executedFunction. cbn [pending calls timeout]. rewrite Hclear.
  split; [reflexivity|]. split; [reflexivity|].
  right. exists (next_timer d), x. split; [reflexivity|]. split; [reflexivity|].
  now apply sublist_app.
Qed.

Lemma fire_invariant {A} (d : Debounced A) (args : list A) (id : nat) :
  debounce_invariant d args → debounce_invariant (fire id d) args.
Proof.
  intros Hinv. unfold fire.
  destruct Hinv as [[Hp Hc] | (id0 & a & Hp & Ht & Hc)].
  - rewrite Hp. simpl. left. now split.
  - rewrite Hp. simpl timer_args. destruct (Nat.eqb_spec id0 id) as [->|Hne].
    + left. unfold later. cbn [pending calls timeout].
      rewrite filter_cons_False, filter_nil by (simpl; intros H; now apply H).
      split; [|exact Hc]. unfold clearTimeout. destruct (timeout d); reflexivity.
    + right. exists id0, a. now rewrite Hp, Ht.
Qed.

Lemma debounce_run_snoc {A} (events : list (DebounceEvent A)) (ev : DebounceEvent A)
    (d : Debounced A) :
  debounce_run (events ++ [ev]) d = debounce_step (debounce_run events d) ev.
Proof. unfold debounce_run. now rewrite fold_left_app. Qed.

Lemma debounce_run_invariant {A} (events : list (DebounceEvent A)) :
  debounce_invariant (debounce_run events debounce) (called_args events).
Proof.
  induction events as [|ev events IH] using rev_ind.
  - left. split; [reflexivity | apply sublist_nil_l].
  - rewrite debounce_run_snoc. unfold called_args. rewrite omap_app.
    fold (called_args events). destruct ev as [x|id]; simpl.
    + now apply executedFunction_invariant.
    + rewrite app_nil_r. now apply fire_invariant.
Qed.

(** A burst of calls from a state that satisfies the invariant. *)
Lemma debounce_burst {A} (burst : list A) (x : A) (d : Debounced A) (args : list A) :
  debounce_invariant d args →
  let d' := debounce_run (Called <$> (burst ++ [x])) d in
  calls d' = calls d ∧
  ∃ id, pending d' = [(id, x)] ∧ timeout d' = Some id.
Proof.
  revert d args. induction burst as [|y burst IH]; intros d args Hinv.
  - simpl. destruct (executedFunction_invariant d args x Hinv) as (Hp & Hc & _).
    split; [exact Hc|]. exists (next_timer d). now split.
  - simpl.
    destruct (executedFunction_invariant d args y Hinv) as (_ & Hc & Hinv').
    destruct (IH _ _ Hinv') as (Hc' & id & Hp & Ht).
    split; [now rewrite <- Hc|]. now exists id.
Qed.

(** X15.  A debounced function calls [func] only with arguments it was
    itself called with, in the order of those calls.  A burst of calls,
    after whatever went before, leaves exactly one pending timer, that of
    the last call of the burst, and has not called [func]; once that timer
    fires, [func] has been called once more, with the arguments of the last
    call, and no timer is pending.  No other timer can fire. *)
Theorem debounce_coalesces {A} (events : list (DebounceEvent A)) (burst : list A) (x : A) :
  let d := debounce_run events debounce in
  let d' := debounce_run (Called <$> (burst ++ [x])) d in
  calls d `sublist_of` called_args events ∧
  calls d' = calls d ∧
  ∃ id, pending d' = [(id, x)] ∧
        calls (fire id d') = calls d ++ [x] ∧
        pending (fire id d') = [] ∧
        ∀ id', id' ≠ id → fire id' d' = d'.
Proof.
  intros d d'.
  pose proof (debounce_run_invariant events) as Hinv. fold d in Hinv.
  split.
  { destruct Hinv as [[_ Hc] | (id & a & _ & _ & Hc)]; [exact Hc|].
    apply sublist_app_l in Hc as (k1 & k2 & -> & H1 & _).
    now apply sublist_inserts_r. }
  destruct (debounce_burst burst x d _ Hinv) as (Hc & id & Hp & Ht).
  fold d' in Hc, Hp, Ht.
  split; [exact Hc|]. exists id. split; [exact Hp|].
  unfold fire. rewrite Hp. simpl timer_args. rewrite Nat.eqb_refl.
  unfold later. cbn [pending calls timeout].
  rewrite filter_cons_False, filter_nil by (simpl; intros H; now apply H).
  split; [now rewrite Hc|]. split.
  - unfold clearTimeout. destruct (timeout d'); reflexivity.
  - intros id' Hne. now rewrite (proj2 (Nat.eqb_neq id id')) by congruence.
Qed.

(* ================================================================== *)
(** * The journey panel *)
(* ================================================================== *)

Lemma count_char_app (c : ascii) (a b : string) :
  count_char c (a +:+ b) = count_char c a + count_char c b.
Proof. induction a as [|x a IH]; simpl; [reflexivity | rewrite IH; lia]. Qed.

Lemma escape_html_char_plain (c : ascii) :
  count_char "<" (escape_html_char c) = 0 ∧ count_char ">" (escape_html_char c) = 0.
Proof. destruct c as [[] [] [] [] [] [] [] []]; split; reflexivity. Qed.

Lemma read_references_escape_char (c : ascii) (s : string) :
  read_references (escape_html_char c +:+ s) = String c (read_references s).
Proof. destruct c as [[] [] [] [] [] [] [] []]; reflexivity. Qed.

Lemma escapeHtml_no_angle (text : string) :
  count_char "<" (escapeHtml text) = 0 ∧ count_char ">" (escapeHtml text) = 0.
Proof.
  induction text as [|c text [IH1 IH2]]; [split; reflexivity|].
  simpl escapeHtml. rewrite !count_char_app, IH1, IH2.
  now rewrite (proj1 (escape_html_char_plain c)), (proj2 (escape_html_char_plain c)).
Qed.

(** X16.  The markup [escapeHtml] returns holds neither [<] nor [>],
    whatever the text, so that none of the text is read as a tag; and the
    text is read back from it, character reference by character reference,
    as it was: two different texts get different markups. *)
Theorem escapeHtml_safe (text : string) :
  count_char "<" (escapeHtml text) = 0 ∧
  count_char ">" (escapeHtml text) = 0 ∧
  read_references (escapeHtml text) = text ∧
  ∀ other, escapeHtml other = escapeHtml text → other = text.
Proof.
  assert (Hback : ∀ t, read_references (escapeHtml t) = t).
  { induction t as [|c t IH]; [reflexivity|].
    simpl escapeHtml. now rewrite read_references_escape_char, IH. }
  split; [|split; [|split]].
  - apply escapeHtml_no_angle.
  - apply escapeHtml_no_angle.
  - apply Hback.
  - intros other H. rewrite <- (Hback other), H. apply Hback.
Qed.

Lemma count_evidence_item (c : ascii) (title text : string) :
  c = "<"%char ∨ c = ">"%char →
  count_char c (evidence_item title text)
  = 6 + count_char c title + count_char c text.
Proof.
  intros Hc. unfold evidence_item, class_attribute.
  rewrite !count_char_app. destruct Hc as [-> | ->]; simpl; lia.
Qed.

Lemma nonblank_string (v : value) :
  nonblank v = true → ∃ t, v = VStr t ∧ trim t ≠ EmptyString.
Proof.
  destruct v as [ | | | | t | ]; try discriminate. simpl. intros H.
  exists t. split; [reflexivity|].
  intros E. rewrite E in H. discriminate H.
Qed.

(** The tags of the summary are those of the template. *)
Lemma summary_markup_count (c : ascii) (r : Responses) (ps : list Pillar) :
  c = "<"%char ∨ c = ">"%char →
  Forall (λ pillar, count_char c (name pillar) = 0) ps →
  count_char c (summary_markup r ps)
  = 6 * length (List.filter (λ pillar, nonblank (key pillar r)) ps).
Proof.
  intros Hc Hnames. unfold summary_markup.
  induction Hnames as [|pillar ps Hname _ IH]; [reflexivity|].
  cbn [List.filter]. destruct (nonblank (key pillar r)) eqn:Hnb; [|exact IH].
  destruct (nonblank_string _ Hnb) as (t & Ht & _).
  cbn [fold_right]. rewrite count_char_app, IH, count_evidence_item, Hname, Ht by exact Hc.
  simpl to_string.
  destruct Hc as [-> | ->].
  - rewrite (proj1 (escapeHtml_no_angle t)). simpl length. lia.
  - rewrite (proj2 (escapeHtml_no_angle t)). simpl length. lia.
Qed.

Lemma summary_markup_contains (r : Responses) (ps : list Pillar) (pillar : Pillar)
    (t : string) :
  pillar ∈ ps → key pillar r = VStr t → trim t ≠ EmptyString →
  occurs_in (evidence_item (name pillar) (escapeHtml t)) (summary_markup r ps).
Proof.
  intros Hin Ht Hfilled. unfold summary_markup.
  induction ps as [|q ps IH]; [inversion Hin|].
  cbn [List.filter]. apply elem_of_cons in Hin as [<- | Hin].
  - rewrite Ht. simpl nonblank.
    destruct (String.eqb_spec (trim t) EmptyString) as [E|_]; [contradiction|].
    cbn [negb fold_right]. rewrite Ht. cbn [to_string].
    apply occurs_in_app_l, occurs_in_refl.
  - destruct (nonblank (key q r)); [|now apply IH].
    cbn [fold_right]. now apply occurs_in_app_r, IH.
Qed.

(** On string reflections the loop of the summary appends [summary_markup]. *)
Lemma append_items_strings (r : Responses) (ps : list Pillar) :
  (∀ pillar, pillar ∈ ps → ∃ t, key pillar r = VStr t) →
  ∀ html w, append_items r ps html w = (Ret (html +:+ summary_markup r ps), w).
Proof.
  unfold summary_markup.
  induction ps as [|pillar ps IH]; intros Hstr html w.
  - simpl. unfold ret. now rewrite string_app_nil_r.
  - destruct (Hstr pillar ltac:(apply elem_of_cons; auto)) as (t & Ht).
    simpl append_items. cbn [List.filter]. rewrite Ht.
    unfold bind. rewrite is_filled_string.
    rewrite IH by (intros q Hq; apply Hstr, elem_of_cons; auto).
    simpl nonblank.
    destruct (String.eqb (trim t) EmptyString); cbn [negb]; [reflexivity|].
    cbn [fold_right]. now rewrite string_app_assoc, Ht.
Qed.

Lemma summary_markup_empty (r : Responses) (ps : list Pillar) :
  truthy (VStr (summary_markup r ps))
  = match List.filter (λ pillar, nonblank (key pillar r)) ps with
    | [] => false
    | _ :: _ => true
    end.
Proof.
  unfold summary_markup.
  destruct (List.filter (λ pillar, nonblank (key pillar r)) ps); reflexivity.
Qed.

Lemma pillar_names_plain (c : ascii) :
  c = "<"%char ∨ c = ">"%char →
  Forall (λ pillar, count_char c (name pillar) = 0) pillars.
Proof. intros [-> | ->]; repeat constructor. Qed.

(** X17.  On a record whose six reflections are strings,
    [populateEvidenceSummary] fills the summary with the no-reflections
    message when every reflection is blank, and otherwise with one item per
    reflection that is not blank, holding the name of its pillar and the
    escaped text of the reflection.  Then the markup has six [<] and six
    [>] per item, those of the template: nothing a user wrote adds a tag. *)
Theorem populateEvidenceSummary_markup (r : Responses) (shown : string) (w : World) :
  text_reflections r →
  ∃ html,
    populateEvidenceSummary r (Some shown) w = (Ret (Some html), w) ∧
    (recorded r = [] → html = NO_REFLECTIONS) ∧
    (recorded r ≠ [] →
     html = summary_markup r pillars ∧
     count_char "<" html = 6 * length (recorded r) ∧
     count_char ">" html = 6 * length (recorded r) ∧
     ∀ pillar t, pillar ∈ pillars → key pillar r = VStr t → trim t ≠ EmptyString →
                 occurs_in (evidence_item (name pillar) (escapeHtml t)) html).
Proof.
  intros Hstr. unfold populateEvidenceSummary, bind.
  rewrite (append_items_strings r pillars Hstr). unfold ret.
  change (EmptyString +:+ summary_markup r pillars) with (summary_markup r pillars).
  rewrite summary_markup_empty. fold (recorded r).
  eexists. split; [reflexivity|].
  destruct (recorded r) as [|p l] eqn:Hrec.
  - split; [reflexivity | congruence].
  - split; [discriminate|]. intros _. split; [reflexivity|].
    rewrite <- Hrec. unfold recorded.
    split; [apply summary_markup_count; [now left | apply pillar_names_plain; now left]|].
    split; [apply summary_markup_count; [now right | apply pillar_names_plain; now right]|].
    intros pillar t. apply summary_markup_contains.
Qed.

Lemma sample_answers_text : text_reflections sample_answers.
Proof.
  intros pillar Hin. unfold pillars in Hin.
  repeat (apply elem_of_cons in Hin as [-> | Hin]; [eexists; reflexivity|]).
  inversion Hin.
Qed.

Lemma populateEvidenceSummary_markup_witness :
  ∃ html,
    populateEvidenceSummary sample_answers (Some "") (world_of storage_empty)
    = (Ret (Some html), world_of storage_empty) ∧
    count_char "<" html = 6 ∧ count_char ">" html = 6.
Proof.
  destruct (populateEvidenceSummary_markup sample_answers "" (world_of storage_empty)
              sample_answers_text) as (html & E & _ & H).
  exists html. split; [exact E|].
  destruct (H ltac:(vm_compute; discriminate)) as (_ & H1 & H2 & _).
  split; [exact H1 | exact H2].
Defined.

Lemma getAllResponses_returns (w : World) (r : Responses) :
  fst (getAllResponses w) = Ret r →
  ∃ w1, getAllResponses w = (Ret r, w1) ∧ only_logs w w1.
Proof.
  intros H. destruct (getAllResponses_logs w) as (o & w1 & E & Hlog).
  rewrite E in H. cbn [fst] in H. subst o. now exists w1.
Qed.

(** X18.  On a first visit, when the storage holds nothing of the
    application, [loadUserJourney] shows the balanced label as the original
    position, leaves the text of the reasoning display as the page has it,
    and fills the summary with the no-reflections message; an element the
    page lacks stays absent.  Nothing is written to the storage. *)
Theorem loadUserJourney_first_visit (w : World) (page : JourneyPanel) :
  (∀ key, items (localStorage w) !! (STORAGE_PREFIX +:+ key) = None) →
  fst (loadUserJourney page w)
  = Ret (mkJourneyPanel
           (match originalSliderDisplay page with
            | Some _ => Some "Exactly balanced"
            | None => None
            end)
           (originalReasonDisplay page)
           (match evidenceSummary page with
            | Some _ => Some NO_REFLECTIONS
            | None => None
            end)) ∧
  localStorage (snd (loadUserJourney page w)) = localStorage w.
Proof.
  intros Habsent.
  assert (Hr : fst (getAllResponses w) = Ret default_responses).
  { apply getAllResponses_of_defaults. intros key d. now apply read_absent. }
  destruct (getAllResponses_returns w _ Hr) as (w1 & E & Hlog).
  assert (Hrun : loadUserJourney page w
                 = (Ret (mkJourneyPanel
                           (match originalSliderDisplay page with
                            | Some _ => Some "Exactly balanced"
                            | None => None
                            end)
                           (originalReasonDisplay page)
                           (match evidenceSummary page with
                            | Some _ => Some NO_REFLECTIONS
                            | None => None
                            end)), w1)).
  { unfold loadUserJourney. unfold bind at 1. rewrite E.
    destruct page as [[slider|] [reason|] [summary|]]; reflexivity. }
  rewrite Hrun. split; [reflexivity | exact (proj1 Hlog)].
Qed.

Lemma loadUserJourney_first_visit_witness :
  fst (loadUserJourney (mkJourneyPanel (Some "") (Some "No reasoning recorded.") (Some ""))
         (world_of storage_empty))
  = Ret (mkJourneyPanel (Some "Exactly balanced") (Some "No reasoning recorded.")
           (Some NO_REFLECTIONS)).
Proof.
  refine (proj1 (loadUserJourney_first_visit (world_of storage_empty)
                   (mkJourneyPanel (Some "") (Some "No reasoning recorded.") (Some "")) _)).
  intros key. apply lookup_empty.
Defined.

(* ================================================================== *)
(** * Export and the final slider, further *)
(* ================================================================== *)

Lemma is_filled_pure (v : value) (w : World) : ∃ o, is_filled v w = (o, w).
Proof.
  unfold is_filled. destruct (truthy v); [|eexists; reflexivity].
  destruct v; simpl; unfold bind, ret, throw; eexists; reflexivity.
Qed.

Lemma append_reflections_pure (r : Responses) (ps : list Pillar) :
  ∀ text w, ∃ o, append_reflections r ps text w = (o, w).
Proof.
  induction ps as [|pillar ps IH]; intros text w; [eexists; reflexivity|].
  simpl append_reflections. unfold bind.
  destruct (is_filled_pure (key pillar r) w) as ([b | e | ] & ->);
    [apply IH | eexists; reflexivity ..].
Qed.

Lemma slider_label_pure (v : value) (w : World) : ∃ o, slider_label v w = (o, w).
Proof. destruct v; eexists; reflexivity. Qed.

(** [exportText] changes nothing but the console, however it ends. *)
Lemma exportText_logs (w : World) :
  ∃ o w1, exportText w = (o, w1) ∧ only_logs w w1.
Proof.
  unfold exportText.
  destruct (getAllResponses_logs w) as ([r | e | ] & w1 & E & Hlog);
    unfold bind at 1; rewrite E; [| eexists _, _; split; [reflexivity | exact Hlog] ..].
  unfold bind at 1, toLocaleDateString.
  unfold bind at 1.
  destruct (slider_label_pure (initialSlider r) w1) as ([l1 | e | ] & ->);
    [| eexists _, _; split; [reflexivity | exact Hlog] ..].
  unfold bind at 1.
  destruct (slider_label_pure (or_else (finalSlider r) (VNum 50)) w1) as ([l2 | e | ] & ->);
    [| eexists _, _; split; [reflexivity | exact Hlog] ..].
  destruct (append_reflections_pure r pillars
              (export_preamble (today w1) l1 l2 r) w1) as (o & ->).
  eexists _, _. split; [reflexivity | exact Hlog].
Qed.

(** X19.  [exportSynthesis] never writes to the storage.  When the text
    can be assembled it triggers exactly one download, of that text under
    the name [conscience-inquiry-synthesis.txt], and then shows the success
    toast; when assembling the text fails, it ends the same way, and
    nothing is downloaded and no toast is shown. *)
Theorem exportSynthesis_effects (w : World) :
  let w' := snd (exportSynthesis w) in
  localStorage w' = localStorage w ∧
  match fst (exportText w) with
  | Ret text =>
      fst (exportSynthesis w) = Ret tt ∧
      downloads w' = downloads w ++ [("conscience-inquiry-synthesis.txt", text)] ∧
      toast (document w')
      = Some (mkToast (created (document w)) CheckMark
                "Synthesis exported successfully.") ∧
      timers w' = timers w ++ [mkTimer (RemoveToast (created (document w))) 3000]
  | Throw e =>
      fst (exportSynthesis w) = Throw e ∧
      downloads w' = downloads w ∧ document w' = document w ∧ timers w' = timers w
  | OutsideModel =>
      fst (exportSynthesis w) = OutsideModel ∧
      downloads w' = downloads w ∧ document w' = document w ∧ timers w' = timers w
  end.
Proof.
  intros w'. subst w'. unfold exportSynthesis.
  destruct (exportText_logs w) as ([text | e | ] & w1 & E & (Hst & Hdoc & Htim & Hdl & _));
    unfold bind, download; rewrite E; cbn [fst snd].
  - rewrite showConfirmation_run.
    cbn [fst snd localStorage downloads document toast timers with_downloads created].
    rewrite Hst, Hdoc, Htim, Hdl. repeat split.
  - repeat split; assumption.
  - repeat split; assumption.
Qed.

Lemma sample_answers_typed : typed_responses sample_answers.
Proof.
  split; [now exists 50%Z|]. split; [now left | exact sample_answers_text].
Qed.

Lemma exportText_contents_witness :
  ∃ text,
    fst (exportText (world_of storage_with_answers)) = Ret text ∧
    occurs_in ("Slider: Exactly balanced" +:+ LF) text ∧
    occurs_in (reflection_section "The Social Brain" (VStr "Mirror <neurons> & more"))
      text.
Proof.
  destruct (exportText_contents (world_of storage_with_answers) sample_answers 50)
    as (f & text & _ & Htext & _ & Hinit & _ & Hrefl).
  - vm_compute. reflexivity.
  - exact sample_answers_typed.
  - reflexivity.
  - exists text. split; [exact Htext|]. split; [exact Hinit|].
    apply (Hrefl (mkPillar biologyReflection "The Social Brain")).
    + apply list_elem_of_here.
    + reflexivity.
    + vm_compute. discriminate.
Defined.

(** X21.  The input listener of the final slider stores [parseInt] of the
    position.  When the storage takes the item and that integer is one a
    number holds exactly, [loadFromStorage] returns it afterwards, whatever
    default it is given: in particular [v] when the position is the numeral
    of such a [v].  A position without a digit is stored as [null] and read
    back as [null], not as the default.  The page is as it was. *)
Theorem finalSliderInput_persists (w : World) (s : string) (d : value) :
  finalSlider_value (document w) = Some s →
  accepts (localStorage w) (STORAGE_PREFIX +:+ "final_slider")
    (JSON.stringify (number_value (parseInt s))) = true →
  let w' := snd (finalSliderInput w) in
  (∀ v, parseInt s = Some v → safe_integer v →
        fst (loadFromStorage "final_slider" d w') = Ret (VNum v)) ∧
  (∀ v rest, s = number_to_string v +:+ rest → no_digit_head rest →
             safe_integer v →
             fst (loadFromStorage "final_slider" d w') = Ret (VNum v)) ∧
  (parseInt s = None →
   fst (loadFromStorage "final_slider" d w') = Ret VNull) ∧
  same_page w w'.
Proof.
  intros Hs Hacc w'.
  assert (Hrun : ∃ w1, finalSliderInput w = (Ret tt, w1) ∧
                       localStorage w1
                       = put (localStorage w) "final_slider" (number_value (parseInt s)) ∧
                       same_page w w1).
  { unfold finalSliderInput. rewrite Hs.
    destruct (bind_save "final_slider" (number_value (parseInt s)) (λ _, ret tt) w)
      as (w1 & E & Hst & Hpage).
    exists w1. rewrite E. now split. }
  destruct Hrun as (w1 & E & Hst & Hpage). subst w'. rewrite E. cbn [snd].
  assert (Hload : fst (loadFromStorage "final_slider" d w1)
                  = Ret (match parseInt s with Some v => VNum v | None => VNull end)).
  { rewrite loaded_is_read, Hst, read_put_same by exact Hacc.
    now destruct (parseInt s). }
  split; [|split; [|split; [|exact Hpage]]].
  - intros v Hv _. now rewrite Hload, Hv.
  - intros v rest -> Hrest _. rewrite Hload.
    now rewrite (parseInt_number_to_string v rest Hrest).
  - intros Hnan. now rewrite Hload, Hnan.
Qed.

Lemma finalSliderInput_persists_witness :
  fst (loadFromStorage "final_slider" (VNum 50)
         (snd (finalSliderInput (synthesis_world storage_empty "" "0"))))
  = Ret (VNum 0).
Proof.
  refine (proj1 (finalSliderInput_persists (synthesis_world storage_empty "" "0") "0"
                   (VNum 50) eq_refl _) 0%Z eq_refl _).
  - vm_compute. reflexivity.
  - unfold safe_integer. lia.
Defined.

(* ================================================================== *)
(** * Submitting again *)
(* ================================================================== *)

Lemma put_same (st : Storage) (key : string) (v : value) :
  items st !! (STORAGE_PREFIX +:+ key) = Some (JSON.stringify v) → put st key v = st.
Proof.
  intros H. unfold put. destruct (accepts _ _ _); [|reflexivity].
  rewrite insert_id by exact H. now destruct st.
Qed.

(** An accepted submission leaves the two controls of the form as they
    are. *)
Lemma submitHandler_accepted_controls (w : World) (s : string) (l : list value) :
  synthesisTextarea_value (document w) = Some s →
  100 ≤ String.length (trim s) →
  read (localStorage w) "completed_pages" (VArr []) = Ret (VArr l) →
  ∃ w', submitHandler w = (Ret tt, w') ∧
        synthesisTextarea_value (document w') = synthesisTextarea_value (document w) ∧
        finalSlider_value (document w') = finalSlider_value (document w).
Proof.
  intros Hs Hlen Hpages.
  rewrite (submitHandler_long w s Hs Hlen).
  destruct (bind_save "synthesis_statement" (VStr (trim s))
              (λ _, saveToStorage "final_slider" (slider_reading w) ;;
                    markPageCompleted "synthesis" ;;
                    showConfirmation SAVED_MESSAGE None ;;
                    setTimeout (Navigate "conclusion.html") 1500) w)
    as (w1 & -> & Hst1 & Hp1).
  destruct (bind_save "final_slider" (slider_reading w)
              (λ _, markPageCompleted "synthesis" ;;
                    showConfirmation SAVED_MESSAGE None ;;
                    setTimeout (Navigate "conclusion.html") 1500) w1)
    as (w2 & -> & Hst2 & Hp2).
  assert (Hpages2 : read (localStorage w2) "completed_pages" (VArr []) = Ret (VArr l)).
  { rewrite Hst2, Hst1, !read_put_other by discriminate. exact Hpages. }
  destruct (markPageCompleted_run "synthesis" l w2 Hpages2) as (w3 & E3 & _ & Hp3).
  unfold bind at 1. rewrite E3.
  unfold bind, setTimeout. rewrite showConfirmation_run.
  eexists. split; [reflexivity|].
  cbn [with_timers document synthesisTextarea_value finalSlider_value].
  pose proof (same_page_trans _ _ _ (same_page_trans _ _ _ Hp1 Hp2) Hp3) as (Hdoc & _).
  now rewrite Hdoc.
Qed.

(** What an accepted submission leaves, in a storage that has room for
    its three items. *)
Lemma submitHandler_stored (w : World) (s : string) (l : list value) :
  synthesisTextarea_value (document w) = Some s →
  100 ≤ String.length (trim s) →
  read (localStorage w) "completed_pages" (VArr []) = Ret (VArr l) →
  has_room (localStorage w)
    (item_size "synthesis_statement" (VStr (trim s))
     + item_size "final_slider" (slider_reading w)
     + item_size "completed_pages" (VArr (l ++ [VStr "synthesis"]))) →
  ∃ w1, submitHandler w = (Ret tt, w1) ∧
        enabled (localStorage w1) = true ∧
        items (localStorage w1) !! (STORAGE_PREFIX +:+ "synthesis_statement")
        = Some (JSON.stringify (VStr (trim s))) ∧
        items (localStorage w1) !! (STORAGE_PREFIX +:+ "final_slider")
        = Some (JSON.stringify (slider_reading w)) ∧
        (∃ l1, read (localStorage w1) "completed_pages" (VArr []) = Ret (VArr l1) ∧
               existsb (same_as_string "synthesis") l1 = true) ∧
        synthesisTextarea_value (document w1) = Some s ∧
        finalSlider_value (document w1) = finalSlider_value (document w).
Proof.
  intros Hs Hlen Hpages Hroom.
  destruct (submitHandler_accepted_run w s l Hs Hlen Hpages) as (w1 & E & Hst & _).
  destruct (submitHandler_accepted_controls w s l Hs Hlen Hpages) as (w0 & E0 & Hta & Hsl).
  rewrite E in E0. injection E0 as <-.
  exists w1. split; [exact E|].
  set (v1 := VStr (trim s)) in *. set (v2 := slider_reading w) in *.
  set (v3 := VArr (l ++ [VStr "synthesis"])) in *.
  destruct (has_room_accepts _ "synthesis_statement" v1 _ Hroom ltac:(lia)) as [A1 R1].
  destruct (has_room_accepts _ "final_slider" v2 _ R1 ltac:(lia)) as [A2 R2].
  destruct (has_room_accepts _ "completed_pages" v3 _ R2 ltac:(lia)) as [A3 _].
  split; [|split; [|split; [|split; [|split]]]].
  - rewrite Hst. destruct (existsb _ l); rewrite ?put_enabled; apply Hroom.
  - rewrite Hst. destruct (existsb _ l);
      rewrite ?put_lookup_other by discriminate; rewrite put_lookup_same; now rewrite A1.
  - rewrite Hst. destruct (existsb _ l);
      rewrite ?put_lookup_other by discriminate; rewrite put_lookup_same; now rewrite A2.
  - rewrite Hst. destruct (existsb _ l) eqn:Hthere.
    + exists l. split; [|exact Hthere].
      rewrite !read_put_other by discriminate. exact Hpages.
    + eexists. split; [now rewrite read_put_same|].
      subst v3. simpl JSON.revived. apply existsb_revived_synthesis.
  - now rewrite Hta.
  - exact Hsl.
Qed.

(** X22.  Submitting the form a second time, with the controls as they
    are, changes nothing in the storage: when the first submission was
    accepted and the storage had room for its three items, the second one is
    accepted as well, and the storage after it is the storage after the
    first. *)
Theorem submitHandler_again (w : World) (s : string) (l : list value) :
  synthesisTextarea_value (document w) = Some s →
  100 ≤ String.length (trim s) →
  read (localStorage w) "completed_pages" (VArr []) = Ret (VArr l) →
  has_room (localStorage w)
    (item_size "synthesis_statement" (VStr (trim s))
     + item_size "final_slider" (slider_reading w)
     + item_size "completed_pages" (VArr (l ++ [VStr "synthesis"]))) →
  let w1 := snd (submitHandler w) in
  let w2 := snd (submitHandler w1) in
  fst (submitHandler w) = Ret tt ∧
  fst (submitHandler w1) = Ret tt ∧
  localStorage w2 = localStorage w1 ∧
  read (localStorage w2) "synthesis_statement" (VStr "") = Ret (VStr (trim s)).
Proof.
  intros Hs Hlen Hpages Hroom w1 w2.
  destruct (submitHandler_stored w s l Hs Hlen Hpages Hroom)
    as (w' & E & Hen & H1 & H2 & (l1 & Hpages1 & Hthere1) & Hs1 & Hsl).
  assert (Hw1 : w1 = w') by (subst w1; now rewrite E).
  rewrite <- Hw1 in Hen, H1, H2, Hpages1, Hs1, Hsl.
  assert (Hret : fst (submitHandler w) = Ret tt) by now rewrite E.
  clear w' E Hw1.
  assert (Hv2 : slider_reading w1 = slider_reading w).
  { unfold slider_reading. now rewrite Hsl. }
  destruct (submitHandler_accepted_run w1 s l1 Hs1 Hlen Hpages1) as (w'' & E2 & Hst2 & _).
  rewrite Hthere1, Hv2 in Hst2.
  rewrite (put_same _ _ _ H1), (put_same _ _ _ H2) in Hst2.
  assert (Hw2 : w2 = w'') by (subst w2; now rewrite E2).
  split; [exact Hret|].
  split; [now rewrite E2|]. rewrite Hw2. split; [exact Hst2|].
  rewrite Hst2. unfold read. rewrite H1, Hen. now rewrite parse_stringify.
Qed.

Lemma submitHandler_again_witness :
  let w := synthesis_world storage_empty (repeat_string "a" 100) "40" in
  localStorage (snd (submitHandler (snd (submitHandler w))))
  = localStorage (snd (submitHandler w)).
Proof.
  intros w.
  destruct (submitHandler_again w (repeat_string "a" 100) []) as (_ & _ & H & _).
  - reflexivity.
  - vm_compute. lia.
  - vm_compute. reflexivity.
  - split; [reflexivity | vm_compute; lia].
  - exact H.
Defined.

(* ================================================================== *)
(** * Coming back to the form *)
(* ================================================================== *)

(** One call of the restoring part of [initSynthesisForm], from what the
    two loads return. *)
Lemma restoreSavedSynthesis_run (wp : World) (a b : value) :
  read (localStorage wp) "synthesis_statement" (VStr "") = Ret a →
  read (localStorage wp) "final_slider" (VNum 50) = Ret b →
  ∃ wr, restoreSavedSynthesis true wp = (Ret tt, wr) ∧
        localStorage wr = localStorage wp ∧
        synthesisTextarea_value (document wr)
        = match synthesisTextarea_value (document wp) with
          | Some shown => if truthy a then Some (to_string a) else Some shown
          | None => None
          end ∧
        finalSlider_value (document wr)
        = match finalSlider_value (document wp) with
          | Some position => if is_not_null b then Some (to_string b) else Some position
          | None => None
          end.
Proof.
  intros Ha Hb. unfold restoreSavedSynthesis. cbn [negb].
  pose proof (only_logs_refl wp) as Hlog.
  load_step. rewrite Ha. load_step. rewrite Hb.
  destruct Hlog as (Hst & Hdoc & _).
  eexists. split; [reflexivity|].
  cbn [localStorage with_document document synthesisTextarea_value finalSlider_value].
  rewrite Hdoc. now split.
Qed.

(** X23.  What an accepted submission saved is put back into the form when
    the page is opened again: with the storage as the submission left it
    (it had room for the three items), [initSynthesisForm] sets the textarea
    to the trimmed text and the slider to the numeral of the position that
    was submitted, an integer that a number holds exactly, and writes
    nothing. *)
Theorem initSynthesisForm_restores (w wp : World) (s position shown shown_position : string)
    (l : list value) (v : Z) :
  synthesisTextarea_value (document w) = Some s →
  finalSlider_value (document w) = Some position →
  parseInt position = Some v →
  safe_integer v →
  100 ≤ String.length (trim s) →
  read (localStorage w) "completed_pages" (VArr []) = Ret (VArr l) →
  has_room (localStorage w)
    (item_size "synthesis_statement" (VStr (trim s))
     + item_size "final_slider" (slider_reading w)
     + item_size "completed_pages" (VArr (l ++ [VStr "synthesis"]))) →
  localStorage wp = localStorage (snd (submitHandler w)) →
  synthesisTextarea_value (document wp) = Some shown →
  finalSlider_value (document wp) = Some shown_position →
  let wr := snd (restoreSavedSynthesis true wp) in
  fst (restoreSavedSynthesis true wp) = Ret tt ∧
  synthesisTextarea_value (document wr) = Some (trim s) ∧
  finalSlider_value (document wr) = Some (number_to_string v) ∧
  localStorage wr = localStorage wp.
Proof.
  intros Hs Hpos Hv _ Hlen Hpages Hroom Hwp Hshown Hshownpos wr.
  destruct (submitHandler_stored w s l Hs Hlen Hpages Hroom)
    as (w1 & E & Hen & H1 & H2 & _).
  rewrite E in Hwp. cbn [snd] in Hwp.
  assert (Hreading : slider_reading w = VNum v).
  { unfold slider_reading. now rewrite Hpos, Hv. }
  rewrite Hreading in H2.
  assert (Ha : read (localStorage wp) "synthesis_statement" (VStr "") = Ret (VStr (trim s))).
  { unfold read. rewrite Hwp, Hen, H1. now rewrite parse_stringify. }
  assert (Hb : read (localStorage wp) "final_slider" (VNum 50) = Ret (VNum v)).
  { unfold read. rewrite Hwp, Hen, H2. now rewrite parse_stringify. }
  destruct (restoreSavedSynthesis_run wp _ _ Ha Hb) as (wr' & Er & Hst & Hta & Hsl).
  subst wr. rewrite Er. cbn [fst snd].
  split; [reflexivity|]. rewrite Hta, Hsl, Hshown, Hshownpos.
  split; [|split; [reflexivity | exact Hst]].
  cbn [truthy to_string]. destruct (trim s); [simpl in Hlen; lia | reflexivity].
Qed.

Lemma initSynthesisForm_restores_witness :
  let s := "  " +:+ repeat_string "b" 100 +:+ " " in
  let w := synthesis_world storage_empty s "40" in
  let wp := synthesis_world (localStorage (snd (submitHandler w))) "" "50" in
  let wr := snd (restoreSavedSynthesis true wp) in
  synthesisTextarea_value (document wr) = Some (repeat_string "b" 100) ∧
  finalSlider_value (document wr) = Some "40".
Proof.
  intros s w wp wr.
  assert (Hlen : 100 ≤ String.length (trim s)) by (vm_compute; lia).
  assert (Hroom : has_room (localStorage w)
                    (item_size "synthesis_statement" (VStr (trim s))
                     + item_size "final_slider" (slider_reading w)
                     + item_size "completed_pages" (VArr ([] ++ [VStr "synthesis"]))))
    by (split; [reflexivity | vm_compute; lia]).
  assert (Hsafe : safe_integer 40) by (unfold safe_integer; lia).
  destruct (initSynthesisForm_restores w wp s "40" "" "50" [] 40
              eq_refl eq_refl eq_refl Hsafe Hlen eq_refl Hroom eq_refl eq_refl eq_refl)
    as (_ & Hta & Hsl & _).
  split; [exact Hta | exact Hsl].
Defined.

(** X24.  The text that the auto-save stored is put back as it was typed,
    white space at its ends included: with the storage as the auto-save
    left it (the storage took the item), [initSynthesisForm] sets the
    textarea to that text; an empty text is not put back, the textarea
    keeps what it shows. *)
Theorem autoSave_restores (w wp : World) (t shown : string) (b : value) :
  synthesisTextarea_value (document w) = Some t →
  accepts (localStorage w) (STORAGE_PREFIX +:+ "synthesis_statement")
    (JSON.stringify (VStr t)) = true →
  read (localStorage w) "final_slider" (VNum 50) = Ret b →
  localStorage wp = localStorage (snd (autoSave w)) →
  synthesisTextarea_value (document wp) = Some shown →
  let wr := snd (restoreSavedSynthesis true wp) in
  fst (restoreSavedSynthesis true wp) = Ret tt ∧
  synthesisTextarea_value (document wr)
  = Some (if String.eqb t EmptyString then shown else t) ∧
  localStorage wr = localStorage wp.
Proof.
  intros Ht Hacc Hslider Hwp Hshown wr.
  assert (Hsaved : localStorage (snd (autoSave w))
                   = put (localStorage w) "synthesis_statement" (VStr t)).
  { unfold autoSave. rewrite Ht.
    destruct (bind_save "synthesis_statement" (VStr t) (λ _, ret tt) w)
      as (w1 & E & Hst & _).
    now rewrite E. }
  rewrite Hsaved in Hwp.
  assert (Ha : read (localStorage wp) "synthesis_statement" (VStr "") = Ret (VStr t)).
  { rewrite Hwp. now rewrite read_put_same. }
  assert (Hb : read (localStorage wp) "final_slider" (VNum 50) = Ret b).
  { rewrite Hwp, read_put_other by discriminate. exact Hslider. }
  destruct (restoreSavedSynthesis_run wp _ _ Ha Hb) as (wr' & Er & Hst & Hta & _).
  subst wr. rewrite Er. cbn [fst snd].
  split; [reflexivity|]. split; [|exact Hst].
  rewrite Hta, Hshown. cbn [truthy to_string].
  now destruct (String.eqb t EmptyString).
Qed.

Lemma autoSave_restores_witness :
  let w := synthesis_world storage_empty "  a draft " "50" in
  let wp := synthesis_world (localStorage (snd (autoSave w))) "" "50" in
  synthesisTextarea_value (document (snd (restoreSavedSynthesis true wp)))
  = Some "  a draft ".
Proof.
  intros w wp.
  exact (proj1 (proj2 (autoSave_restores w wp "  a draft " "" (VNum 50)
                         eq_refl eq_refl eq_refl eq_refl eq_refl))).
Defined.
